(** * Payload Executor: instruction codec, fetch/execute FSM, scratchpad, bus switch

    A shallow embedding of [rowhammer_tester/gateware/payload_executor.py].

    - Python integers are [Z]; [&], [|], [<<] are [Z.land], [Z.lor], [Z.shiftl].
    - A Migen [Signal] of width [w] is a [Z] kept in [0, 2^w): every registered
      or combinational assignment truncates with [trunc w].
    - A Migen [Module] is a record of its registers together with a function
      giving, for one clock cycle, the next register values and the
      combinational outputs of the cycle. *)

From Stdlib Require Import ZArith List Lia Bool.
Import ListNotations.
Local Open Scope Z_scope.

(** ** Python and Migen primitives used by the source *)

Inductive PyError : Type :=
| AssertionError
| KeyError
| TypeError
| ValueError.

Inductive result (A : Type) : Type :=
| Ok (a : A)
| Raise (e : PyError).
Arguments Ok {A} a.
Arguments Raise {A} e.

Definition bind {A B : Type} (r : result A) (k : A -> result B) : result B :=
  match r with
  | Ok a => k a
  | Raise e => Raise e
  end.

Notation "x <- r ;; k" := (bind r (fun x => k))
  (at level 61, r at next level, right associativity).

Definition raises {A : Type} (r : result A) : Prop :=
  exists e, r = Raise e.

(** [assert c] *)
Definition py_assert (c : bool) : result unit :=
  if c then Ok tt else Raise AssertionError.

(** [kwargs[k]] *)
Definition getitem (v : option Z) : result Z :=
  match v with
  | Some x => Ok x
  | None => Raise KeyError
  end.

(** [range(start, stop, step)] for a positive [step]. *)
Definition py_range (start stop step : Z) : list Z :=
  map (fun k => start + step * Z.of_nat k)
      (seq 0 (Z.to_nat ((stop - start + step - 1) / step))).

Definition sumZ (l : list Z) : Z := fold_right Z.add 0 l.

Module Migen.

(** Truncation of a value assigned to a [w]-bit unsigned signal. *)
Definition trunc (w x : Z) : Z := Z.land x (Z.ones w).

(** [x[lo:hi]] *)
Definition slice (x lo hi : Z) : Z := Z.land (Z.shiftr x lo) (Z.ones (hi - lo)).

(** [bits_for(n)]: the number of bits of an unsigned signal holding [n]. *)
Definition bits_for (n : Z) : Z :=
  if 0 <? n then Z.log2_up (n + 1) else Z.log2_up (- n) + 1.

(** Width of [Signal(max=m)]: the bound is exclusive. *)
Definition signal_max (m : Z) : Z := bits_for (m - 1).

(** [log2_int(n)], which insists on a power of two; [(n - 1).bit_length()]
    is [Z.log2_up n] from 1 on, and below 0 no power of two matches. *)
Definition log2_int (n : Z) : result Z :=
  if n =? 0 then Ok 0
  else
    let r := Z.log2_up n in
    if 2 ^ r =? n then Ok r else Raise ValueError.

End Migen.

(** ** [OpCode] *)

Inductive OpCode : Type := NOOP | LOOP | ACT | PRE | REF | ZQC | READ.

Definition OpCode_value (op : OpCode) : Z :=
  match op with
  | NOOP => 0 (* 0b000 *)
  | LOOP => 7 (* 0b111 *)
  | ACT => 4  (* 0b100 *)
  | PRE => 5  (* 0b101 *)
  | REF => 6  (* 0b110 *)
  | ZQC => 1  (* 0b001 *)
  | READ => 2 (* 0b010 *)
  end.

Definition OpCode_eqb (a b : OpCode) : bool := OpCode_value a =? OpCode_value b.

(** ** [Decoder] *)

Module Decoder.

Definition INSTRUCTION : Z := 32.
Definition OP_CODE : Z := 3.
Definition TIMESLICE : Z := 5.
Definition ADDRESS : Z := 24.
Definition TIMESLICE_NOOP : Z := TIMESLICE + ADDRESS.
Definition LOOP_COUNT : Z := 12.
Definition LOOP_JUMP : Z := 17.

(** The combinational outputs of the decoder. *)
Record t : Type := mk {
  op_code : Z;
  timeslice : Z;
  address : Z;
  cas : bool;
  ras : bool;
  we : bool;
  dfi_bank : Z;
  dfi_address : Z;
  dfi_rank : Z;
  loop_count : Z;
  loop_jump : Z;
  stop : bool
}.

Section Decode.
Variables rankbits bankbits rowbits colbits : Z.

Definition decode (instruction : Z) : t :=
  let tail := Migen.slice instruction OP_CODE INSTRUCTION in
  let op := Migen.slice instruction 0 OP_CODE in
  let ts :=
    if op =? OpCode_value NOOP
    then Migen.slice tail 0 TIMESLICE_NOOP
    else Migen.slice tail 0 TIMESLICE in
  let addr := Migen.slice tail TIMESLICE (INSTRUCTION - OP_CODE) in
  {| op_code := op;
     timeslice := ts;
     address := addr;
     cas := Z.testbit op 1;
     ras := Z.testbit op 2;
     we := Z.testbit op 0;
     dfi_bank := Migen.slice addr rankbits (rankbits + bankbits);
     dfi_address :=
       Migen.trunc (Z.max rowbits colbits)
                   (Migen.slice addr (rankbits + bankbits) ADDRESS);
     dfi_rank := Migen.slice addr 0 rankbits;
     loop_count := Migen.slice tail 0 LOOP_COUNT;
     loop_jump := Migen.slice tail LOOP_COUNT (INSTRUCTION - OP_CODE);
     stop := (op =? OpCode_value NOOP) && (ts =? 0) |}.
End Decode.

End Decoder.

(** ** [Encoder] *)

Module Encoder.

(** The keyword arguments [Instruction.__init__] looks at. *)
Record kwargs : Type := mk_kwargs {
  kw_count : option Z;
  kw_jump : option Z;
  kw_timeslice : option Z;
  kw_address : option Z
}.

(** A bit field to pack: [(width, val)]. *)
Definition part : Type := (Z * Z)%type.

(** [Instruction]: [_noops] is an attribute only when the timeslice did not
    fit the base word. *)
Record Instruction : Type := mk_Instruction {
  op_code : OpCode;
  _parts : list part;
  _noops : option (list (list part))
}.

Definition noop_parts (wait : Z) : list part :=
  [(Decoder.OP_CODE, OpCode_value NOOP); (Decoder.TIMESLICE_NOOP, wait)].

(** The [for i in range(0, remaining, TIMESLICE_NOOP - 1)] loop. *)
Definition noops_for (remaining : Z) : list (list part) :=
  map (fun i => noop_parts (Z.min (remaining - i) (Decoder.TIMESLICE_NOOP - 1)))
      (py_range 0 remaining (Decoder.TIMESLICE_NOOP - 1)).

(** [Instruction.__init__] *)
Definition Instruction_init (op : OpCode) (kw : kwargs) : result Instruction :=
  match op with
  | LOOP =>
      count <- getitem (kw_count kw) ;;
      _ <- py_assert (count <? 2 ^ Decoder.LOOP_COUNT) ;;
      jump <- getitem (kw_jump kw) ;;
      Ok {| op_code := op;
            _parts := [(Decoder.OP_CODE, OpCode_value op);
                       (Decoder.LOOP_COUNT, count);
                       (Decoder.LOOP_JUMP, jump)];
            _noops := None |}
  | NOOP =>
      timeslice <- getitem (kw_timeslice kw) ;;
      _ <- py_assert (timeslice <? 2 ^ Decoder.TIMESLICE_NOOP) ;;
      Ok {| op_code := op;
            _parts := [(Decoder.OP_CODE, OpCode_value op);
                       (Decoder.TIMESLICE_NOOP, timeslice)];
            _noops := None |}
  | _ =>
      timeslice <- getitem (kw_timeslice kw) ;;
      _ <- py_assert (negb (timeslice =? 0)) ;;
      _ <- py_assert (match kw_address kw with Some _ => true | None => false end
                      || OpCode_eqb op REF) ;;
      let base_timeslice := Z.max (Z.land timeslice (2 ^ Decoder.TIMESLICE - 1)) 1 in
      let parts := [(Decoder.OP_CODE, OpCode_value op);
                    (Decoder.TIMESLICE, base_timeslice);
                    (Decoder.ADDRESS,
                     match kw_address kw with Some a => a | None => 0 end)] in
      Ok {| op_code := op;
            _parts := parts;
            _noops :=
              if negb (base_timeslice =? timeslice)
              then Some (noops_for (timeslice - base_timeslice))
              else None |}
  end.

(** The inner loop of [encode_spec]: [instr |= (val & mask) << n; n += width]. *)
Definition pack_step (acc : Z * Z) (p : part) : Z * Z :=
  let '(instr, n) := acc in
  let '(width, val) := p in
  let mask := 2 ^ width - 1 in
  (Z.lor instr (Z.shiftl (Z.land val mask) n), n + width).

Definition pack (parts : list part) : Z :=
  fst (fold_left pack_step parts (0, 0)).

Definition encode_spec (spec : Instruction) : list Z :=
  let _instrs_to_enc :=
    _parts spec :: match _noops spec with Some l => l | None => [] end in
  map pack _instrs_to_enc.

Definition encode (op : OpCode) (kw : kwargs) : result (list Z) :=
  spec <- Instruction_init op kw ;;
  Ok (encode_spec spec).

Definition encode_payload (payload : list Instruction) : list Z :=
  flat_map encode_spec payload.

Section Address.
Variables (bankbits nranks : Z).

(** [Encoder.address(rank=, bank=, row=, col=)] *)
Definition address (rank : option Z) (bank : Z) (row col : option Z) : result Z :=
  _ <- py_assert (negb (match row, col with Some _, Some _ => true | _, _ => false end)) ;;
  let rowcol :=
    match row, col with
    | Some r, _ => r
    | None, Some c => c
    | None, None => 0
    end in
  (* [2**bankbits] is a float for a negative [bankbits], and [int & float]
     a TypeError *)
  if bankbits <? 0 then Raise TypeError
  else
    let address := Z.land bank (2 ^ bankbits - 1) in
    let address := Z.lor address (Z.shiftl rowcol bankbits) in
    if 1 <? nranks then
      sh <- Migen.log2_int nranks ;;
      let address := Z.shiftl address sh in
      match rank with
      | Some r => Ok (Z.lor address r)
      | None => Raise TypeError
      end
    else Ok address.
End Address.

End Encoder.

(** ** [Scratchpad] *)

Module Scratchpad.

(** One DFI phase as the scratchpad sees it: [(rddata, rddata_valid)]. *)
Definition rdphase : Type := (Z * bool)%type.

(** Registers of the module, its write port and the memory behind it.  A
    memory word holds one entry per phase; the byte enables of a phase are
    all copies of its [rddata_valid]. *)
Record t : Type := mk {
  counter : Z;
  overflow : bool;
  wr_port_adr : Z;
  wr_port_dat_w : list Z;
  wr_port_we : list bool;
  mem : list (list Z)
}.

Section Step.
(** [mem.depth] *)
Variable depth : Z.

(** [self.counter = Signal(max=mem.depth - 1)] *)
Definition counter_width : Z := Migen.signal_max (depth - 1).

Definition init (m : list (list Z)) : t :=
  {| counter := 0; overflow := false; wr_port_adr := 0;
     wr_port_dat_w := []; wr_port_we := []; mem := m |}.

(** [reduce(or_, wr_port.we)] *)
Definition write_strobe (s : t) : bool := existsb (fun b => b) (wr_port_we s).

Fixpoint merge_lanes (we : list bool) (new old : list Z) : list Z :=
  match we, new, old with
  | w :: we', n :: new', o :: old' => (if w then n else o) :: merge_lanes we' new' old'
  | w :: we', n :: new', [] => (if w then n else 0) :: merge_lanes we' new' []
  | _, _, _ => old
  end.

Fixpoint write_at (n : nat) (we : list bool) (new : list Z) (m : list (list Z))
  : list (list Z) :=
  match m, n with
  | [], _ => []
  | word :: m', O => merge_lanes we new word :: m'
  | word :: m', S n' => word :: write_at n' we new m'
  end.

(** One clock edge: [reset] is the [ResetInserter] input. *)
Definition step (reset : bool) (dfi : list rdphase) (s : t) : t :=
  let mem' := write_at (Z.to_nat (wr_port_adr s)) (wr_port_we s) (wr_port_dat_w s) (mem s) in
  if reset then init mem'
  else
    let '(counter', overflow') :=
      if write_strobe s then
        if counter s =? depth - 1 then (0, true)
        else (Migen.trunc counter_width (counter s + 1), overflow s)
      else (counter s, overflow s) in
    {| counter := counter';
       overflow := overflow';
       wr_port_adr := counter s;
       wr_port_dat_w := map fst dfi;
       wr_port_we := map snd dfi;
       mem := mem' |}.

(** Clock the module over a list of [(reset, dfi)] inputs. *)
Definition run (ins : list (bool * list rdphase)) (s : t) : t :=
  fold_left (fun s i => step (fst i) (snd i) s) ins s.
End Step.

End Scratchpad.

(** ** [RefreshCounter] *)

Module RefreshCounter.

(** The command lines of the observed DFI phase. *)
Record dfi_phase : Type := mk_phase {
  cs_n : Z;
  cas_n : Z;
  ras_n : Z;
  we_n : Z;
  address : Z
}.

Section Step.
Variables (width : Z) (ddr5 : bool).

Definition refresh (p : dfi_phase) : bool :=
  if ddr5 then
    negb (Z.testbit (cs_n p) 0) && (Migen.slice (address p) 0 5 =? 19 (* 0b10011 *))
  else
    (cs_n p =? 0) && (cas_n p =? 0) && (ras_n p =? 0) && (we_n p =? 1).

Definition step (p : dfi_phase) (counter : Z) : Z :=
  if refresh p then Migen.trunc width (counter + 1) else counter.
End Step.

End RefreshCounter.

(** ** [DFISwitch] *)

Module DFISwitch.

Inductive fsm_state : Type := MEMORY_CONTROLLER | PAYLOAD_EXECUTION.

Record t : Type := mk {
  fsm : fsm_state;
  refresh_counter : Z;
  mc_ongoing_d : bool;
  refresh_count_status : Z
}.

Record inputs : Type := mk_inputs {
  wants_dfi : bool;
  at_refresh : Z;
  master_phase0 : RefreshCounter.dfi_phase;
  refresh_update_re : bool
}.

Record outputs : Type := mk_outputs {
  dfi_ready : bool;
  ext_dfi_sel : bool;
  refresher_reset : bool
}.

Definition init : t :=
  {| fsm := MEMORY_CONTROLLER; refresh_counter := 0;
     mc_ongoing_d := false; refresh_count_status := 0 |}.

Section Step.
Variables (with_refresh ddr5 : bool).

Definition refresh_matches (i : inputs) (s : t) : bool :=
  (at_refresh i =? 0) || (at_refresh i =? refresh_counter s + 1).

Definition next_state (i : inputs) (s : t) : fsm_state :=
  match fsm s with
  | MEMORY_CONTROLLER =>
      if wants_dfi i then
        if with_refresh then
          if RefreshCounter.refresh ddr5 (master_phase0 i) && refresh_matches i s
          then PAYLOAD_EXECUTION
          else MEMORY_CONTROLLER
        else PAYLOAD_EXECUTION
      else MEMORY_CONTROLLER
  | PAYLOAD_EXECUTION =>
      if negb (wants_dfi i) then MEMORY_CONTROLLER else PAYLOAD_EXECUTION
  end.

Definition comb (i : inputs) (s : t) : outputs :=
  match fsm s with
  | MEMORY_CONTROLLER =>
      {| dfi_ready := false; ext_dfi_sel := false; refresher_reset := false |}
  | PAYLOAD_EXECUTION =>
      {| dfi_ready := true; ext_dfi_sel := true;
         refresher_reset := negb (wants_dfi i) |}
  end.

Definition is_pe (f : fsm_state) : bool :=
  match f with PAYLOAD_EXECUTION => true | MEMORY_CONTROLLER => false end.

Definition step (i : inputs) (s : t) : t :=
  let mc_to_pe := mc_ongoing_d s && is_pe (fsm s) in
  {| fsm := next_state i s;
     refresh_counter := RefreshCounter.step 64 ddr5 (master_phase0 i) (refresh_counter s);
     mc_ongoing_d := negb (is_pe (fsm s));
     refresh_count_status :=
       if mc_to_pe || refresh_update_re i
       then refresh_counter s
       else refresh_count_status s |}.
End Step.

End DFISwitch.

(** ** [Fetcher] and [PayloadExecutor] *)

Module PayloadExecutor.

Definition PIPELINE_DELAY : Z := 2.

Inductive fsm_state : Type := READY | WAIT_DFI | RUN | IDLE | BUBBLE.

(** Registers: the executor's own, the fetcher's two program counters, the
    instruction register and the output register of the payload read port. *)
Record t : Type := mk {
  fsm : fsm_state;
  wants_dfi : bool;
  loop_counter : Z;
  idle_counter : Z;
  program_counter : Z;
  program_counter_old : Z;
  instruction : Z;
  dat_r : Z;
  exec_start : Z;
  exec_stop : Z;
  cycle_counter : Z
}.

Record inputs : Type := mk_inputs {
  start : bool;
  dfi_ready : bool
}.

(** What one [fsm.act] block drives in a cycle: combinational strobes,
    [NextState] and the [NextValue]s. *)
Record act : Type := mk_act {
  stall : bool;
  executing : bool;
  ready : bool;
  bubble : bool;
  reset_pc : bool;
  scratchpad_reset : bool;
  jump : bool;
  exec : bool;
  phase : Z;
  next_fsm : fsm_state;
  next_wants_dfi : bool;
  next_loop_counter : Z;
  next_idle_counter : Z
}.

(** The combinational view of a cycle kept in traces. *)
Record outputs : Type := mk_outputs {
  o_act : act;
  o_mem_addr : Z;
  o_instruction : Z
}.

Definition init : t :=
  {| fsm := READY; wants_dfi := false; loop_counter := 0; idle_counter := 0;
     program_counter := 0; program_counter_old := 0; instruction := 0; dat_r := 0;
     exec_start := 0; exec_stop := 0; cycle_counter := 0 |}.

Section Executor.
(** Contents of the payload memory and the address layout. *)
Variable mem_payload : list Z.
Variables (rankbits bankbits rowbits colbits rdphase : Z).

Definition depth : Z := Z.of_nat (length mem_payload).

(** [self.mem_addr = Signal(max=mem_payload.depth)] *)
Definition addr_width : Z := Migen.signal_max depth.

Definition mem_read (adr : Z) : Z := nth (Z.to_nat adr) mem_payload 0.

Definition decoder (s : t) : Decoder.t :=
  Decoder.decode rankbits bankbits rowbits colbits (instruction s).

(** [Fetcher]: combinational part. *)
Definition next_addr (jump : bool) (jump_offset : Z) (s : t) : Z :=
  Migen.trunc addr_width
    (if negb jump then program_counter s + 1
     else program_counter s - jump_offset - PIPELINE_DELAY).

Definition mem_addr (stall : bool) (s : t) : Z :=
  if stall then program_counter_old s else program_counter s.

(** Signals nobody drives keep their default; registers keep their value. *)
Definition hold (s : t) (st ex rd bb rp sr : bool) : act :=
  {| stall := st; executing := ex; ready := rd; bubble := bb; reset_pc := rp;
     scratchpad_reset := sr; jump := false; exec := false; phase := 0;
     next_fsm := fsm s; next_wants_dfi := wants_dfi s;
     next_loop_counter := loop_counter s; next_idle_counter := idle_counter s |}.

Definition with_next (a : act) (f : fsm_state) : act :=
  {| stall := stall a; executing := executing a; ready := ready a; bubble := bubble a;
     reset_pc := reset_pc a; scratchpad_reset := scratchpad_reset a;
     jump := jump a; exec := exec a; phase := phase a;
     next_fsm := f; next_wants_dfi := next_wants_dfi a;
     next_loop_counter := next_loop_counter a;
     next_idle_counter := next_idle_counter a |}.

Definition with_wants_dfi (a : act) (w : bool) : act :=
  {| stall := stall a; executing := executing a; ready := ready a; bubble := bubble a;
     reset_pc := reset_pc a; scratchpad_reset := scratchpad_reset a;
     jump := jump a; exec := exec a; phase := phase a;
     next_fsm := next_fsm a; next_wants_dfi := w;
     next_loop_counter := next_loop_counter a;
     next_idle_counter := next_idle_counter a |}.

Definition with_loop_counter (a : act) (c : Z) : act :=
  {| stall := stall a; executing := executing a; ready := ready a; bubble := bubble a;
     reset_pc := reset_pc a; scratchpad_reset := scratchpad_reset a;
     jump := jump a; exec := exec a; phase := phase a;
     next_fsm := next_fsm a; next_wants_dfi := next_wants_dfi a;
     next_loop_counter := c;
     next_idle_counter := next_idle_counter a |}.

Definition with_idle_counter (a : act) (c : Z) : act :=
  {| stall := stall a; executing := executing a; ready := ready a; bubble := bubble a;
     reset_pc := reset_pc a; scratchpad_reset := scratchpad_reset a;
     jump := jump a; exec := exec a; phase := phase a;
     next_fsm := next_fsm a; next_wants_dfi := next_wants_dfi a;
     next_loop_counter := next_loop_counter a;
     next_idle_counter := c |}.

Definition with_jump (a : act) : act :=
  {| stall := stall a; executing := executing a; ready := ready a; bubble := bubble a;
     reset_pc := reset_pc a; scratchpad_reset := scratchpad_reset a;
     jump := true; exec := exec a; phase := phase a;
     next_fsm := next_fsm a; next_wants_dfi := next_wants_dfi a;
     next_loop_counter := next_loop_counter a;
     next_idle_counter := next_idle_counter a |}.

Definition with_exec (a : act) (p : Z) : act :=
  {| stall := stall a; executing := executing a; ready := ready a; bubble := bubble a;
     reset_pc := reset_pc a; scratchpad_reset := scratchpad_reset a;
     jump := jump a; exec := true; phase := p;
     next_fsm := next_fsm a; next_wants_dfi := next_wants_dfi a;
     next_loop_counter := next_loop_counter a;
     next_idle_counter := next_idle_counter a |}.

(** The termination test of RUN. *)
Definition terminate (s : t) : bool :=
  let d := decoder s in
  ((mem_addr false s =? PIPELINE_DELAY - 1) || Decoder.stop d)
  && (negb (Decoder.op_code d =? OpCode_value LOOP)
      || (Decoder.loop_count d =? loop_counter s)).

(** The five [fsm.act] blocks. *)
Definition fsm_act (i : inputs) (s : t) : act :=
  let d := decoder s in
  match fsm s with
  | READY =>
      let a := hold s true false true false true false in
      if start i then with_next (with_wants_dfi a true) WAIT_DFI else a
  | WAIT_DFI =>
      let a := hold s true false false false false true in
      if dfi_ready i
      then with_idle_counter (with_next a BUBBLE) (PIPELINE_DELAY - 1)
      else a
  | RUN =>
      let a := hold s false true false false false false in
      if terminate s then
        with_next (with_wants_dfi a false) READY
      else if Decoder.op_code d =? OpCode_value LOOP then
        if negb (loop_counter s =? Decoder.loop_count d) then
          with_idle_counter
            (with_next
               (with_loop_counter (with_jump a)
                  (Migen.trunc Decoder.LOOP_COUNT (loop_counter s + 1)))
               BUBBLE)
            (PIPELINE_DELAY - 1)
        else with_loop_counter a 0
      else
        let a :=
          if (Decoder.timeslice d =? 0) || (Decoder.timeslice d =? 1) then a
          else
            with_next
              (with_idle_counter a
                 (Migen.trunc Decoder.TIMESLICE_NOOP (Decoder.timeslice d - 2)))
              IDLE in
        with_exec a
          (if Decoder.cas d && negb (Decoder.ras d) && negb (Decoder.we d)
           then rdphase else 0)
  | IDLE =>
      let a := hold s true true false false false false in
      if idle_counter s =? 0 then with_next a RUN
      else with_idle_counter a
             (Migen.trunc Decoder.TIMESLICE_NOOP (idle_counter s - 1))
  | BUBBLE =>
      let a := hold s false true false true false false in
      if idle_counter s =? 0 then with_next a RUN
      else with_idle_counter a
             (Migen.trunc Decoder.TIMESLICE_NOOP (idle_counter s - 1))
  end.

(** The status counters: later statements of the [sync] list win. *)
Definition next_exec_start (i : inputs) (a : act) (s : t) : Z :=
  if executing a && (exec_start s =? 0) then cycle_counter s
  else if start i then 0
  else exec_start s.

Definition next_exec_stop (i : inputs) (a : act) (s : t) : Z :=
  if executing a then Migen.trunc 64 (cycle_counter s + 1)
  else if executing a && (exec_start s =? 0) then 0
  else if start i then 0
  else exec_stop s.

(** One clock cycle of the executor together with its fetcher. *)
Definition cycle (i : inputs) (s : t) : t * outputs :=
  let d := decoder s in
  let a := fsm_act i s in
  let adr := mem_addr (stall a) s in
  let nxt := next_addr (jump a) (Decoder.loop_jump d) s in
  ({| fsm := next_fsm a;
      wants_dfi := next_wants_dfi a;
      loop_counter := next_loop_counter a;
      idle_counter := next_idle_counter a;
      program_counter :=
        if negb (stall a) then nxt
        else if reset_pc a then 0
        else program_counter s;
      program_counter_old :=
        if negb (stall a) then program_counter s
        else if reset_pc a then 0
        else program_counter_old s;
      instruction := if negb (stall a) then dat_r s else instruction s;
      dat_r := mem_read adr;
      exec_start := next_exec_start i a s;
      exec_stop := next_exec_stop i a s;
      cycle_counter := Migen.trunc 64 (cycle_counter s + 1) |},
   {| o_act := a; o_mem_addr := adr; o_instruction := instruction s |}).

(** Clock the executor over a list of inputs, collecting the cycles. *)
Fixpoint run (ins : list inputs) (s : t) : t * list outputs :=
  match ins with
  | [] => (s, [])
  | i :: ins' =>
      let '(s1, o) := cycle i s in
      let '(s2, os) := run ins' s1 in
      (s2, o :: os)
  end.

(** The instruction words the command emitter was strobed with. *)
Definition issued (os : list outputs) : list Z :=
  map o_instruction (filter (fun o => exec (o_act o)) os).

(** Number of cycles in which the fetcher was told to jump. *)
Definition jumps (os : list outputs) : nat :=
  length (filter (fun o => jump (o_act o)) os).
End Executor.

End PayloadExecutor.

(** ** Vocabulary of the properties *)

Definition WORD : Z := 2 ^ Decoder.INSTRUCTION.

Definition word_in_range (w : Z) : Prop := 0 <= w < WORD.

(** The fields of a word that do not depend on the address layout. *)
Definition decode0 (w : Z) : Decoder.t := Decoder.decode 0 0 0 0 w.

Definition is_dfi (op : OpCode) : bool :=
  match op with
  | ACT | PRE | REF | ZQC | READ => true
  | NOOP | LOOP => false
  end.

Definition needs_address (op : OpCode) : bool :=
  match op with
  | ACT | PRE | ZQC | READ => true
  | NOOP | LOOP | REF => false
  end.

Definition is_some {A : Type} (o : option A) : bool :=
  match o with Some _ => true | None => false end.

(** The call supplies the keyword arguments [__init__] subscripts for [op]. *)
Definition supplied (op : OpCode) (kw : Encoder.kwargs) : bool :=
  match op with
  | LOOP => is_some (Encoder.kw_count kw) && is_some (Encoder.kw_jump kw)
  | _ => is_some (Encoder.kw_timeslice kw)
  end.

Definition geb_opt (v : option Z) (bound : Z) : bool :=
  match v with Some x => bound <=? x | None => false end.

Definition eqb_opt (v : option Z) (x : Z) : bool :=
  match v with Some y => y =? x | None => false end.

(** The four rejected shapes of an instruction. *)
Definition rejected (op : OpCode) (kw : Encoder.kwargs) : bool :=
  (OpCode_eqb op LOOP && geb_opt (Encoder.kw_count kw) (2 ^ 12))
  || (OpCode_eqb op NOOP && geb_opt (Encoder.kw_timeslice kw) (2 ^ 29))
  || (is_dfi op && eqb_opt (Encoder.kw_timeslice kw) 0)
  || (needs_address op && negb (is_some (Encoder.kw_address kw))).

Definition in_bits (w : Z) (v : option Z) : bool :=
  match v with Some x => (0 <=? x) && (x <? 2 ^ w) | None => false end.

(** Instructions whose every field fits the width the word gives it. *)
Definition valid_instruction (op : OpCode) (kw : Encoder.kwargs) : bool :=
  match op with
  | LOOP => in_bits 12 (Encoder.kw_count kw) && in_bits 17 (Encoder.kw_jump kw)
  | NOOP => in_bits 29 (Encoder.kw_timeslice kw)
  | _ =>
      match Encoder.kw_timeslice kw with
      | Some ts => (1 <=? ts) && (ts <=? 31)
      | None => false
      end
      && in_bits 24 (Encoder.kw_address kw)
  end.

(** The same with no bound on the jump of a LOOP. *)
Definition valid_up_to_jump (op : OpCode) (kw : Encoder.kwargs) : bool :=
  match op with
  | LOOP =>
      in_bits 12 (Encoder.kw_count kw)
      && match Encoder.kw_jump kw with Some j => 0 <=? j | None => false end
  | _ => valid_instruction op kw
  end.

(** What decoding must give back for the instruction [op], [kw]. *)
Definition recovers (op : OpCode) (kw : Encoder.kwargs) (d : Decoder.t) : Prop :=
  Decoder.op_code d = OpCode_value op /\
  match op with
  | LOOP =>
      Some (Decoder.loop_count d) = Encoder.kw_count kw /\
      Some (Decoder.loop_jump d) = Encoder.kw_jump kw
  | NOOP => Some (Decoder.timeslice d) = Encoder.kw_timeslice kw
  | _ =>
      Some (Decoder.timeslice d) = Encoder.kw_timeslice kw /\
      Some (Decoder.address d) = Encoder.kw_address kw
  end.

(** One word comes out and decodes to the instruction. *)
Definition round_trips (op : OpCode) (kw : Encoder.kwargs) : Prop :=
  exists w, Encoder.encode op kw = Ok [w] /\ word_in_range w /\
            forall rankbits bankbits rowbits colbits,
              recovers op kw (Decoder.decode rankbits bankbits rowbits colbits w).

(** Keyword arguments of a DFI instruction. *)
Definition dfi_kwargs (timeslice : Z) (address : option Z) : Encoder.kwargs :=
  {| Encoder.kw_count := None; Encoder.kw_jump := None;
     Encoder.kw_timeslice := Some timeslice; Encoder.kw_address := address |}.

Definition loop_kwargs (count jump : Z) : Encoder.kwargs :=
  {| Encoder.kw_count := Some count; Encoder.kw_jump := Some jump;
     Encoder.kw_timeslice := None; Encoder.kw_address := None |}.

Definition noop_kwargs (timeslice : Z) : Encoder.kwargs :=
  {| Encoder.kw_count := None; Encoder.kw_jump := None;
     Encoder.kw_timeslice := Some timeslice; Encoder.kw_address := None |}.

(** Cycles a DFI word stands for: its 5-bit timeslice, 0 counting as 1. *)
Definition base_duration (w : Z) : Z := Z.max (Decoder.timeslice (decode0 w)) 1.

(** Cycles a NOOP word stands for: its 29-bit timeslice. *)
Definition noop_duration (w : Z) : Z := Decoder.timeslice (decode0 w).

Definition is_noop_word (w : Z) : Prop :=
  Decoder.op_code (decode0 w) = OpCode_value NOOP.

(** Duration of a base word followed by NOOP words. *)
Definition total_duration (ws : list Z) : Z :=
  match ws with
  | [] => 0
  | base :: noops => base_duration base + sumZ (map noop_duration noops)
  end.

(** An [Instruction] object that [__init__] returned. *)
Definition constructed (spec : Encoder.Instruction) : Prop :=
  exists op kw, Encoder.Instruction_init op kw = Ok spec.

Section ExecutorVocabulary.
Variable mem_payload : list Z.
Variables (rankbits bankbits rowbits colbits rdphase : Z).

Let mem_read := PayloadExecutor.mem_read mem_payload.
Let decode := Decoder.decode rankbits bankbits rowbits colbits.

(** The fetch pipeline holds the word of address [a] in the instruction
    register, the word of [a + 1] on the read port, and fetches [a + 2]. *)
Definition fetch_at (s : PayloadExecutor.t) (a : Z) : Prop :=
  PayloadExecutor.instruction s = mem_read a /\
  PayloadExecutor.dat_r s = mem_read (a + 1) /\
  PayloadExecutor.program_counter s = a + 2 /\
  PayloadExecutor.program_counter_old s = a + 1.

(** RUN is about to act on the instruction of address [a]. *)
Definition run_at (s : PayloadExecutor.t) (a : Z) : Prop :=
  PayloadExecutor.fsm s = PayloadExecutor.RUN /\ fetch_at s a.

(** A word that is neither LOOP nor STOP. *)
Definition plain (w : Z) : Prop :=
  Decoder.op_code (decode w) <> OpCode_value LOOP /\
  Decoder.stop (decode w) = false.

(** Cycles the executor spends on a plain word. *)
Definition cycles_of (w : Z) : Z := Z.max (Decoder.timeslice (decode w)) 1.

(** The [n] words stored from address [a] on. *)
Definition block (a : Z) (n : nat) : list Z :=
  map (fun k => mem_read (a + Z.of_nat k)) (seq 0 n).

Definition block_cycles (a : Z) (n : nat) : Z :=
  sumZ (map cycles_of (block a n)).

(** The word at [l] is a LOOP with the given count and jump. *)
Definition loop_at (l count jump : Z) : Prop :=
  Decoder.op_code (decode (mem_read l)) = OpCode_value LOOP /\
  Decoder.loop_count (decode (mem_read l)) = count /\
  Decoder.loop_jump (decode (mem_read l)) = jump.

(** An unstalled cycle without jump moves the fetch pipeline on. *)
Definition fetch_step (s s' : PayloadExecutor.t) : Prop :=
  PayloadExecutor.program_counter s' =
    Migen.trunc (PayloadExecutor.addr_width mem_payload)
                (PayloadExecutor.program_counter s + 1) /\
  PayloadExecutor.program_counter_old s' = PayloadExecutor.program_counter s /\
  PayloadExecutor.instruction s' = PayloadExecutor.dat_r s /\
  PayloadExecutor.dat_r s' = mem_read (PayloadExecutor.program_counter s).

(** A stalled cycle keeps it and reads the old address again. *)
Definition fetch_hold (s s' : PayloadExecutor.t) : Prop :=
  PayloadExecutor.program_counter s' = PayloadExecutor.program_counter s /\
  PayloadExecutor.program_counter_old s' = PayloadExecutor.program_counter_old s /\
  PayloadExecutor.instruction s' = PayloadExecutor.instruction s /\
  PayloadExecutor.dat_r s' = mem_read (PayloadExecutor.program_counter_old s).

(** The registers of the FSM that a wait leaves alone. *)
Definition same_control (s s' : PayloadExecutor.t) : Prop :=
  PayloadExecutor.loop_counter s' = PayloadExecutor.loop_counter s /\
  PayloadExecutor.wants_dfi s' = PayloadExecutor.wants_dfi s.

(** A cycle that neither strobes the emitter nor jumps. *)
Definition quiet (o : PayloadExecutor.outputs) : Prop :=
  PayloadExecutor.exec (PayloadExecutor.o_act o) = false /\
  PayloadExecutor.jump (PayloadExecutor.o_act o) = false.

(** [NextState] of every cycle of a trace. *)
Definition next_states (os : list PayloadExecutor.outputs) : list PayloadExecutor.fsm_state :=
  map (fun o => PayloadExecutor.next_fsm (PayloadExecutor.o_act o)) os.
End ExecutorVocabulary.

(** The timeslice kept in the base word of a DFI instruction. *)
Definition base_timeslice (t : Z) : Z := Z.max (t mod 32) 1.

(** Inputs of a run in which the host strobes [start] once and the bus switch
    grants the bus at once. *)
Definition started (n : nat) : list PayloadExecutor.inputs :=
  PayloadExecutor.mk_inputs true true
  :: repeat (PayloadExecutor.mk_inputs false true) n.

(** Inputs of cycles in which the host and the bus switch are silent. *)
Definition silent (n : nat) : list PayloadExecutor.inputs :=
  repeat (PayloadExecutor.mk_inputs false false) n.

(** The executor in RUN with the word of address [a] in its instruction
    register. *)
Definition running (mem : list Z) (a loop_counter : Z) : PayloadExecutor.t :=
  {| PayloadExecutor.fsm := PayloadExecutor.RUN;
     PayloadExecutor.wants_dfi := true;
     PayloadExecutor.loop_counter := loop_counter;
     PayloadExecutor.idle_counter := 0;
     PayloadExecutor.program_counter := a + 2;
     PayloadExecutor.program_counter_old := a + 1;
     PayloadExecutor.instruction := PayloadExecutor.mem_read mem a;
     PayloadExecutor.dat_r := PayloadExecutor.mem_read mem (a + 1);
     PayloadExecutor.exec_start := 0;
     PayloadExecutor.exec_stop := 0;
     PayloadExecutor.cycle_counter := 0 |}.

(** ACT, PRE, LOOP(count=1, jump=1), STOP in a memory of eight words. *)
Definition loop_program : list Z := [2060; 4109; 32783; 0; 0; 0; 0; 0].

(** ACT with timeslice 4, STOP. *)
Definition act_program : list Z := [1060; 0; 0; 0].

(** Read data of all phases of a cycle, with [rddata_valid] high or low. *)
Definition valid_data (d : list Z) : list Scratchpad.rdphase :=
  map (fun x => (x, true)) d.

Definition idle_data (d : list Z) : list Scratchpad.rdphase :=
  map (fun x => (x, false)) d.

(** Scratchpad inputs for read data arriving one word at a time, each valid
    cycle followed by a cycle without valid data; no reset. *)
Definition pulses (ds : list (list Z)) : list (bool * list Scratchpad.rdphase) :=
  flat_map (fun d => [(false, valid_data d); (false, idle_data d)]) ds.

(** The write port holds no write and is no wider than the memory words. *)
Definition port_at_rest (lanes : nat) (s : Scratchpad.t) : Prop :=
  Scratchpad.write_strobe s = false /\
  (length (Scratchpad.wr_port_we s) <= lanes)%nat /\
  Forall (fun w => length w = lanes) (Scratchpad.mem s).

(** ** [OneHotDecoder] (the rank decoder) *)

Module OneHotDecoder.

(** Output [o] of a decoder of the given width for input [i]: bit [i] alone,
    or nothing when [i] is no output index; the input [n] is never driven. *)
Definition o (width i : Z) : Z :=
  if (0 <=? i) && (i <? width) then Z.shiftl 1 i else 0.

End OneHotDecoder.

(** ** [DFIExecutor] *)

Module DFIExecutor.

(** The registered command lines of one DFI phase. *)
Record phase : Type := mk_phase {
  cke : Z;
  odt : Z;
  reset_n : Z;
  cs_n : Z;
  cas_n : Z;
  ras_n : Z;
  we_n : Z;
  address : Z;
  bank : Z;
  rddata_en : bool
}.

(** [~x] for a one-bit signal. *)
Definition inv (b : bool) : Z := if b then 0 else 1.

Section Step.
Variables (nranks nphases : Z).

(** [self.phase = Signal(max=max(len(dfi.phases) - 1, 2))] *)
Definition phase_width : Z := Migen.signal_max (Z.max (nphases - 1) 2).

(** [Replicate(1, nranks)] *)
Definition all_ranks : Z := Z.ones nranks.

(** The [sync] block of phase [i]; [sel] and [exec] are the signals [phase]
    and [exec], [rank_o] the output of the rank decoder. *)
Definition step_phase (i sel : Z) (exec : bool) (d : Decoder.t) (rank_o : Z)
           (p : phase) : phase :=
  if (Migen.trunc phase_width sel =? i) && exec then
    {| cke := all_ranks; odt := all_ranks; reset_n := all_ranks;
       cs_n :=
         if Decoder.op_code d =? OpCode_value NOOP then all_ranks
         else if Decoder.op_code d =? OpCode_value REF then 0
         else Migen.trunc nranks (Z.lnot rank_o);
       cas_n := inv (Decoder.cas d);
       ras_n := inv (Decoder.ras d);
       we_n := inv (Decoder.we d);
       address := Decoder.dfi_address d;
       bank := Decoder.dfi_bank d;
       rddata_en := Decoder.op_code d =? OpCode_value READ |}
  else
    {| cke := all_ranks; odt := all_ranks; reset_n := all_ranks;
       cs_n := all_ranks; cas_n := 1; ras_n := 1; we_n := 1;
       address := address p; bank := bank p; rddata_en := false |}.

Fixpoint step_from (i sel : Z) (exec : bool) (d : Decoder.t) (rank_o : Z)
         (ps : list phase) : list phase :=
  match ps with
  | [] => []
  | p :: ps' => step_phase i sel exec d rank_o p :: step_from (i + 1) sel exec d rank_o ps'
  end.

(** One clock edge of all phases, [for i, phase in enumerate(dfi.phases)]. *)
Definition step (sel : Z) (exec : bool) (d : Decoder.t) (rank_o : Z)
           (ps : list phase) : list phase :=
  step_from 0 sel exec d rank_o ps.

(** The inactive pattern: no rank selected, no command, no read. *)
Definition idle (p : phase) : Prop :=
  cs_n p = all_ranks /\ cas_n p = 1 /\ ras_n p = 1 /\ we_n p = 1 /\ rddata_en p = false.

Definition idle_phase : phase :=
  {| cke := all_ranks; odt := all_ranks; reset_n := all_ranks;
     cs_n := all_ranks; cas_n := 1; ras_n := 1; we_n := 1;
     address := 0; bank := 0; rddata_en := false |}.
End Step.

(** The command lines as the refresh counter reads them. *)
Definition observed (p : phase) : RefreshCounter.dfi_phase :=
  {| RefreshCounter.cs_n := cs_n p;
     RefreshCounter.cas_n := cas_n p;
     RefreshCounter.ras_n := ras_n p;
     RefreshCounter.we_n := we_n p;
     RefreshCounter.address := address p |}.

End DFIExecutor.

(** ** The executor with its submodules and the bus switch *)

Module System.

Record t : Type := mk {
  executor : PayloadExecutor.t;
  switch : DFISwitch.t;
  scratchpad : Scratchpad.t;
  ext_dfi : list DFIExecutor.phase
}.

(** What comes from outside in a cycle: the host's strobes and register, the
    command on phase 0 of the master bus, and the read data. *)
Record inputs : Type := mk_inputs {
  start : bool;
  at_refresh : Z;
  refresh_update_re : bool;
  master_phase0 : RefreshCounter.dfi_phase;
  rddata : list Scratchpad.rdphase
}.

Section Step.
Variable mem_payload : list Z.
Variables (rankbits bankbits rowbits colbits rdphase : Z).
Variables (with_refresh ddr5 : bool).
Variable scratchpad_depth : Z.

(** [rankbits = log2_int(nranks)] *)
Definition nranks : Z := 2 ^ rankbits.

Definition switch_inputs (i : inputs) (s : t) : DFISwitch.inputs :=
  {| DFISwitch.wants_dfi := PayloadExecutor.wants_dfi (executor s);
     DFISwitch.at_refresh := at_refresh i;
     DFISwitch.master_phase0 := master_phase0 i;
     DFISwitch.refresh_update_re := refresh_update_re i |}.

Definition executor_inputs (i : inputs) (s : t) : PayloadExecutor.inputs :=
  {| PayloadExecutor.start := start i;
     PayloadExecutor.dfi_ready :=
       DFISwitch.dfi_ready (DFISwitch.comb (switch_inputs i s) (switch s)) |}.

(** [rank_decoder.i] is driven only [if rankbits]. *)
Definition rank_decoder_o (d : Decoder.t) : Z :=
  OneHotDecoder.o nranks (if rankbits =? 0 then 0 else Decoder.dfi_rank d).

Definition step (i : inputs) (s : t) : t :=
  let d := PayloadExecutor.decoder rankbits bankbits rowbits colbits (executor s) in
  let r := PayloadExecutor.cycle mem_payload rankbits bankbits rowbits colbits rdphase
             (executor_inputs i s) (executor s) in
  let a := PayloadExecutor.o_act (snd r) in
  {| executor := fst r;
     switch := DFISwitch.step with_refresh ddr5 (switch_inputs i s) (switch s);
     scratchpad :=
       Scratchpad.step scratchpad_depth (PayloadExecutor.scratchpad_reset a)
         (rddata i) (scratchpad s);
     ext_dfi :=
       DFIExecutor.step nranks (Z.of_nat (length (ext_dfi s)))
         (PayloadExecutor.phase a) (PayloadExecutor.exec a) d (rank_decoder_o d)
         (ext_dfi s) |}.

Definition run (ins : list inputs) (s : t) : t :=
  fold_left (fun s i => step i s) ins s.

Definition init (scratchpad_mem : list (list Z)) (nphases : nat) : t :=
  {| executor := PayloadExecutor.init;
     switch := DFISwitch.init;
     scratchpad := Scratchpad.init scratchpad_mem;
     ext_dfi := repeat (DFIExecutor.idle_phase nranks) nphases |}.
End Step.

End System.

(** The executor is in one of the states that drive [executing]. *)
Definition is_executing (f : PayloadExecutor.fsm_state) : bool :=
  match f with
  | PayloadExecutor.RUN | PayloadExecutor.IDLE | PayloadExecutor.BUBBLE => true
  | PayloadExecutor.READY | PayloadExecutor.WAIT_DFI => false
  end.

(** The executor holds its request while it waits or executes, it executes
    only while the switch is in PAYLOAD-EXECUTION, and outside that state of
    the switch every phase it drives is inactive. *)
Definition bus_owned (nranks : Z) (s : System.t) : Prop :=
  (PayloadExecutor.fsm (System.executor s) <> PayloadExecutor.READY ->
   PayloadExecutor.wants_dfi (System.executor s) = true) /\
  (is_executing (PayloadExecutor.fsm (System.executor s)) = true ->
   DFISwitch.fsm (System.switch s) = DFISwitch.PAYLOAD_EXECUTION) /\
  (DFISwitch.fsm (System.switch s) = DFISwitch.MEMORY_CONTROLLER ->
   Forall (DFIExecutor.idle nranks) (System.ext_dfi s)).

(** * Properties *)

(** ** Bit fields *)

Lemma ones_pow2 (w : Z) : 0 <= w -> 2 ^ w - 1 = Z.ones w.
Proof.
  intros Hw. rewrite Z.ones_equiv. lia.
Qed.

Lemma land_mask_mod (w x : Z) : 0 <= w -> Z.land x (2 ^ w - 1) = x mod 2 ^ w.
Proof.
  intros Hw. rewrite ones_pow2 by assumption. apply Z.land_ones; assumption.
Qed.

Lemma trunc_mod (w x : Z) : 0 <= w -> Migen.trunc w x = x mod 2 ^ w.
Proof.
  intros Hw. unfold Migen.trunc. apply Z.land_ones; assumption.
Qed.

Lemma trunc_small (w x : Z) : 0 <= w -> 0 <= x < 2 ^ w -> Migen.trunc w x = x.
Proof.
  intros Hw Hx. rewrite trunc_mod by assumption. apply Z.mod_small; assumption.
Qed.

Lemma slice_div_mod (x lo hi : Z) :
  0 <= lo -> lo <= hi -> Migen.slice x lo hi = (x / 2 ^ lo) mod 2 ^ (hi - lo).
Proof.
  intros Hlo Hhi. unfold Migen.slice.
  rewrite Z.land_ones by lia. rewrite Z.shiftr_div_pow2 by lia. reflexivity.
Qed.

(** OR-ing a field above the bits already used adds it. *)
Lemma lor_shiftl_add (a b n : Z) :
  0 <= n -> 0 <= a < 2 ^ n -> Z.lor a (Z.shiftl b n) = a + b * 2 ^ n.
Proof.
  intros Hn Ha.
  assert (Hdisj : Z.land a (Z.shiftl b n) = 0).
  { rewrite <- (Z.mod_small a (2 ^ n)) by assumption.
    rewrite <- Z.land_ones by assumption.
    rewrite <- Z.land_assoc, (Z.land_comm (Z.ones n)).
    rewrite Z.land_ones by assumption.
    rewrite Z.shiftl_mul_pow2 by assumption.
    rewrite Z.mod_mul by lia. apply Z.land_0_r. }
  rewrite <- Z.lxor_lor by assumption.
  rewrite <- Z.add_nocarry_lxor by assumption.
  rewrite Z.shiftl_mul_pow2 by assumption. reflexivity.
Qed.

Lemma pack_step_eq (instr n width val : Z) :
  0 <= n -> 0 <= width -> 0 <= instr < 2 ^ n ->
  Encoder.pack_step (instr, n) (width, val) =
  (instr + (val mod 2 ^ width) * 2 ^ n, n + width).
Proof.
  intros Hn Hw Hi. unfold Encoder.pack_step.
  rewrite land_mask_mod by assumption.
  rewrite lor_shiftl_add by assumption. reflexivity.
Qed.

Lemma pack3 (a b c w1 w2 : Z) :
  0 <= w1 -> 0 <= w2 ->
  Encoder.pack [(3, a); (w1, b); (w2, c)] =
  a mod 8 + (b mod 2 ^ w1) * 8 + (c mod 2 ^ w2) * 2 ^ (3 + w1).
Proof.
  intros H1 H2. unfold Encoder.pack. cbn [fold_left].
  assert (Ha : 0 <= a mod 8 < 8) by (apply Z.mod_pos_bound; lia).
  assert (Hb : 0 <= b mod 2 ^ w1 < 2 ^ w1) by (apply Z.mod_pos_bound; lia).
  rewrite pack_step_eq by (try apply Z.pow_pos_nonneg; lia).
  change (2 ^ 0) with 1. change (2 ^ 3) with 8.
  rewrite pack_step_eq by (change (2 ^ (0 + 3)) with 8; lia).
  change (2 ^ (0 + 3)) with 8.
  rewrite pack_step_eq.
  - cbn [fst]. replace (0 + 3 + w1) with (3 + w1) by lia. lia.
  - lia.
  - lia.
  - replace (0 + 3 + w1) with (3 + w1) by lia. rewrite Z.pow_add_r by lia.
    change (2 ^ 3) with 8. nia.
Qed.

Lemma pack2 (a b : Z) :
  Encoder.pack [(3, a); (29, b)] = a mod 8 + (b mod 2 ^ 29) * 8.
Proof.
  unfold Encoder.pack. cbn [fold_left].
  assert (Ha : 0 <= a mod 8 < 8) by (apply Z.mod_pos_bound; lia).
  rewrite pack_step_eq by lia.
  change (2 ^ 0) with 1. change (2 ^ 3) with 8.
  rewrite pack_step_eq by (change (2 ^ (0 + 3)) with 8; lia).
  cbn [fst]. change (2 ^ (0 + 3)) with 8. lia.
Qed.

(** ** The decoder's fields as quotients and remainders *)

Section DecoderFields.
Variables rankbits bankbits rowbits colbits : Z.
Let decode := Decoder.decode rankbits bankbits rowbits colbits.

Ltac slices :=
  unfold decode, Decoder.decode, Decoder.TIMESLICE_NOOP, Decoder.INSTRUCTION,
    Decoder.OP_CODE, Decoder.TIMESLICE, Decoder.ADDRESS, Decoder.LOOP_COUNT,
    Decoder.LOOP_JUMP;
  cbn [Decoder.op_code Decoder.timeslice Decoder.address Decoder.loop_count
       Decoder.loop_jump Decoder.stop OpCode_value];
  rewrite ?slice_div_mod by lia;
  repeat match goal with
         | |- context [2 ^ ?e] =>
             let v := eval cbv in (2 ^ e) in
             progress change (2 ^ e) with v
         end.

Lemma decode_op_code (w : Z) : Decoder.op_code (decode w) = w mod 8.
Proof.
  slices. rewrite Z.div_1_r. reflexivity.
Qed.

Lemma decode_timeslice (w : Z) :
  Decoder.timeslice (decode w) =
  if w mod 8 =? 0 then (w / 8) mod 2 ^ 29 else (w / 8) mod 32.
Proof.
  slices. rewrite !Z.div_1_r.
  destruct (w mod 8 =? 0); Z.div_mod_to_equations; lia.
Qed.

Lemma decode_address (w : Z) : Decoder.address (decode w) = (w / 256) mod 2 ^ 24.
Proof.
  slices. Z.div_mod_to_equations. lia.
Qed.

Lemma decode_loop_count (w : Z) : Decoder.loop_count (decode w) = (w / 8) mod 2 ^ 12.
Proof.
  slices. rewrite !Z.div_1_r. Z.div_mod_to_equations. lia.
Qed.

Lemma decode_loop_jump (w : Z) :
  Decoder.loop_jump (decode w) = (w / 2 ^ 15) mod 2 ^ 17.
Proof.
  slices. Z.div_mod_to_equations. lia.
Qed.

Lemma decode_stop (w : Z) :
  Decoder.stop (decode w) =
  (Decoder.op_code (decode w) =? 0) && (Decoder.timeslice (decode w) =? 0).
Proof.
  reflexivity.
Qed.

Lemma decode_timeslice_range (w : Z) : 0 <= Decoder.timeslice (decode w) < 2 ^ 29.
Proof.
  rewrite decode_timeslice.
  destruct (w mod 8 =? 0); Z.div_mod_to_equations; lia.
Qed.

Lemma decode_loop_count_range (w : Z) : 0 <= Decoder.loop_count (decode w) < 2 ^ 12.
Proof.
  rewrite decode_loop_count. apply Z.mod_pos_bound. lia.
Qed.
End DecoderFields.

(** ** The words the encoder returns *)

Lemma opcode_value_range (op : OpCode) : 0 <= OpCode_value op < 8.
Proof.
  destruct op; cbn; lia.
Qed.

Lemma encode_LOOP (kw : Encoder.kwargs) (c j : Z) :
  Encoder.kw_count kw = Some c -> Encoder.kw_jump kw = Some j -> c < 2 ^ 12 ->
  Encoder.encode LOOP kw = Ok [7 + (c mod 2 ^ 12) * 8 + (j mod 2 ^ 17) * 2 ^ 15].
Proof.
  intros Hc Hj Hlt. unfold Encoder.encode, Encoder.Instruction_init.
  rewrite Hc, Hj. cbn [getitem bind].
  replace (c <? 2 ^ Decoder.LOOP_COUNT) with true
    by (symmetry; apply Z.ltb_lt; exact Hlt).
  cbn [py_assert bind Encoder.encode_spec Encoder._parts Encoder._noops map].
  change Decoder.OP_CODE with 3.
  rewrite pack3 by (cbv; discriminate). reflexivity.
Qed.

Lemma encode_NOOP (kw : Encoder.kwargs) (t : Z) :
  Encoder.kw_timeslice kw = Some t -> t < 2 ^ 29 ->
  Encoder.encode NOOP kw = Ok [(t mod 2 ^ 29) * 8].
Proof.
  intros Ht Hlt. unfold Encoder.encode, Encoder.Instruction_init.
  rewrite Ht. cbn [getitem bind].
  replace (t <? 2 ^ Decoder.TIMESLICE_NOOP) with true
    by (symmetry; apply Z.ltb_lt; exact Hlt).
  cbn [py_assert bind Encoder.encode_spec Encoder._parts Encoder._noops map].
  change Decoder.OP_CODE with 3. change Decoder.TIMESLICE_NOOP with 29.
  rewrite pack2. reflexivity.
Qed.

Lemma base_timeslice_range (t : Z) : 1 <= base_timeslice t <= 31.
Proof.
  unfold base_timeslice. pose proof (Z.mod_pos_bound t 32). lia.
Qed.

Lemma base_timeslice_fits (t : Z) : 1 <= t <= 31 -> base_timeslice t = t.
Proof.
  intros Ht. unfold base_timeslice. rewrite Z.mod_small by lia. lia.
Qed.

Lemma base_timeslice_le (t : Z) : 1 <= t -> base_timeslice t <= t.
Proof.
  intros Ht. unfold base_timeslice.
  pose proof (Z.mod_le t 32). lia.
Qed.

Lemma pack_noop (wait : Z) : Encoder.pack (Encoder.noop_parts wait) = (wait mod 2 ^ 29) * 8.
Proof.
  unfold Encoder.noop_parts. change Decoder.OP_CODE with 3.
  change Decoder.TIMESLICE_NOOP with 29. rewrite pack2. reflexivity.
Qed.

Lemma noops_for_0 : Encoder.noops_for 0 = [].
Proof.
  reflexivity.
Qed.

Lemma encode_DFI (op : OpCode) (kw : Encoder.kwargs) (t : Z) :
  is_dfi op = true ->
  Encoder.kw_timeslice kw = Some t -> t <> 0 ->
  is_some (Encoder.kw_address kw) || OpCode_eqb op REF = true ->
  Encoder.encode op kw =
  Ok ((OpCode_value op + base_timeslice t * 8
       + (match Encoder.kw_address kw with Some a => a | None => 0 end mod 2 ^ 24) * 256)
      :: map Encoder.pack (Encoder.noops_for (t - base_timeslice t))).
Proof.
  intros Hop Ht Hnz Haddr.
  assert (Hbase : Z.max (Z.land t (2 ^ Decoder.TIMESLICE - 1)) 1 = base_timeslice t).
  { unfold base_timeslice. change Decoder.TIMESLICE with 5.
    rewrite land_mask_mod by lia. reflexivity. }
  assert (Hinit :
    Encoder.Instruction_init op kw =
    Ok {| Encoder.op_code := op;
          Encoder._parts :=
            [(Decoder.OP_CODE, OpCode_value op);
             (Decoder.TIMESLICE, base_timeslice t);
             (Decoder.ADDRESS, match Encoder.kw_address kw with Some a => a | None => 0 end)];
          Encoder._noops :=
            if negb (base_timeslice t =? t)
            then Some (Encoder.noops_for (t - base_timeslice t))
            else None |}).
  { destruct op; try discriminate Hop;
      unfold Encoder.Instruction_init; rewrite Ht; cbn [getitem bind];
      replace (t =? 0) with false by (symmetry; apply Z.eqb_neq; exact Hnz);
      cbn [negb py_assert bind];
      unfold is_some in Haddr; rewrite Haddr; cbn [py_assert bind];
      rewrite Hbase; reflexivity. }
  unfold Encoder.encode. rewrite Hinit. cbn [bind]. f_equal.
  unfold Encoder.encode_spec. cbn [Encoder._parts Encoder._noops map]. f_equal.
  - change Decoder.OP_CODE with 3. rewrite pack3 by (cbv; discriminate).
    change Decoder.TIMESLICE with 5. change Decoder.ADDRESS with 24.
    pose proof (opcode_value_range op). pose proof (base_timeslice_range t).
    rewrite (Z.mod_small (OpCode_value op)) by lia.
    change (2 ^ 5) with 32. rewrite (Z.mod_small (base_timeslice t)) by lia.
    reflexivity.
  - destruct (base_timeslice t =? t) eqn:E; cbn [negb].
    + apply Z.eqb_eq in E. rewrite E, Z.sub_diag. reflexivity.
    + reflexivity.
Qed.

(** ** Decoding the three shapes of word *)

Section DecodeWords.
Variables rankbits bankbits rowbits colbits : Z.
Let decode := Decoder.decode rankbits bankbits rowbits colbits.

Lemma decode_loop_word (c j : Z) :
  0 <= c < 2 ^ 12 -> 0 <= j < 2 ^ 17 ->
  let w := 7 + c * 8 + j * 2 ^ 15 in
  word_in_range w /\
  Decoder.op_code (decode w) = 7 /\
  Decoder.loop_count (decode w) = c /\
  Decoder.loop_jump (decode w) = j.
Proof.
  intros Hc Hj w. subst w. unfold word_in_range, WORD, decode.
  rewrite decode_op_code, decode_loop_count, decode_loop_jump.
  change Decoder.INSTRUCTION with 32.
  change (2 ^ 12) with 4096 in *. change (2 ^ 17) with 131072 in *.
  change (2 ^ 15) with 32768. change (2 ^ 32) with 4294967296.
  repeat split; try lia; Z.div_mod_to_equations; lia.
Qed.

Lemma decode_noop_word (t : Z) :
  0 <= t < 2 ^ 29 ->
  let w := t * 8 in
  word_in_range w /\
  Decoder.op_code (decode w) = 0 /\
  Decoder.timeslice (decode w) = t.
Proof.
  intros Ht w. subst w. unfold word_in_range, WORD, decode.
  rewrite decode_op_code, decode_timeslice.
  change Decoder.INSTRUCTION with 32.
  replace (t * 8 mod 8) with 0 by (symmetry; apply Z.mod_mul; lia).
  cbn [Z.eqb].
  change (2 ^ 29) with 536870912 in *. change (2 ^ 32) with 4294967296.
  repeat split; try lia; Z.div_mod_to_equations; lia.
Qed.

Lemma decode_dfi_word (v b a : Z) :
  0 < v < 8 -> 0 <= b < 32 -> 0 <= a < 2 ^ 24 ->
  let w := v + b * 8 + a * 256 in
  word_in_range w /\
  Decoder.op_code (decode w) = v /\
  Decoder.timeslice (decode w) = b /\
  Decoder.address (decode w) = a.
Proof.
  intros Hv Hb Ha w. subst w. unfold word_in_range, WORD, decode.
  rewrite decode_op_code, decode_timeslice, decode_address.
  change Decoder.INSTRUCTION with 32.
  change (2 ^ 24) with 16777216 in *. change (2 ^ 32) with 4294967296.
  assert (Hm : (v + b * 8 + a * 256) mod 8 = v) by (Z.div_mod_to_equations; lia).
  rewrite Hm. replace (v =? 0) with false by (symmetry; apply Z.eqb_neq; lia).
  repeat split; try lia; Z.div_mod_to_equations; lia.
Qed.
End DecodeWords.

Lemma dfi_opcode_pos (op : OpCode) : is_dfi op = true -> 0 < OpCode_value op < 8.
Proof.
  destruct op; cbn; intros H; try discriminate H; lia.
Qed.

(** ** The trailing NOOPs of a long timeslice *)

Lemma noops_for_words (r : Z) :
  map Encoder.pack (Encoder.noops_for r) =
  map (fun k => (Z.min (r - 28 * Z.of_nat k) 28 mod 2 ^ 29) * 8)
      (seq 0 (Z.to_nat ((r + 27) / 28))).
Proof.
  unfold Encoder.noops_for, py_range.
  change (Decoder.TIMESLICE_NOOP - 1) with 28.
  replace (r - 0 + 28 - 1) with (r + 27) by lia.
  rewrite !map_map. apply map_ext. intros k.
  rewrite pack_noop. reflexivity.
Qed.

Lemma sum_waits (n : nat) :
  forall r : Z,
    0 <= r <= 28 * Z.of_nat n ->
    28 * Z.of_nat n - 28 < r \/ n = 0%nat ->
    sumZ (map (fun k => Z.min (r - 28 * Z.of_nat k) 28) (seq 0 n)) = r.
Proof.
  induction n as [|n IH]; intros r Hr Hlow.
  - cbn. lia.
  - cbn [seq map sumZ fold_right]. rewrite <- seq_shift, map_map.
    rewrite (map_ext _ (fun k => Z.min ((r - 28) - 28 * Z.of_nat k) 28))
      by (intros k; f_equal; lia).
    fold (sumZ (map (fun k => Z.min (r - 28 - 28 * Z.of_nat k) 28) (seq 0 n))).
    destruct n as [|n'].
    + cbn. lia.
    + rewrite IH by lia. lia.
Qed.

Lemma waits_count (r : Z) :
  0 <= r ->
  let n := Z.to_nat ((r + 27) / 28) in
  0 <= r <= 28 * Z.of_nat n /\ (28 * Z.of_nat n - 28 < r \/ n = 0%nat).
Proof.
  intros Hr n. subst n.
  rewrite Z2Nat.id by (apply Z.div_pos; lia).
  Z.div_mod_to_equations. lia.
Qed.

Lemma waits_bounds (r : Z) (k : nat) :
  0 <= r -> In k (seq 0 (Z.to_nat ((r + 27) / 28))) ->
  1 <= Z.min (r - 28 * Z.of_nat k) 28 <= 28.
Proof.
  intros Hr Hin. apply in_seq in Hin.
  assert (Hk : Z.of_nat k < (r + 27) / 28) by lia.
  Z.div_mod_to_equations. lia.
Qed.

(** The trailing NOOP words are NOOPs of 1 to 28 cycles summing to [r]. *)
Lemma noops_for_durations (r : Z) :
  0 <= r ->
  Forall (fun w => word_in_range w /\ is_noop_word w /\ 1 <= noop_duration w <= 28)
         (map Encoder.pack (Encoder.noops_for r)) /\
  sumZ (map noop_duration (map Encoder.pack (Encoder.noops_for r))) = r.
Proof.
  intros Hr. rewrite noops_for_words. split.
  - apply Forall_forall. intros w Hw. apply in_map_iff in Hw.
    destruct Hw as [k [Hw Hk]]. subst w.
    pose proof (waits_bounds r k Hr Hk) as Hb.
    rewrite Z.mod_small by (change (2 ^ 29) with 536870912; lia).
    destruct (decode_noop_word 0 0 0 0 (Z.min (r - 28 * Z.of_nat k) 28))
      as [Hrange [Hop Hts]]; [change (2 ^ 29) with 536870912; lia|].
    unfold is_noop_word, noop_duration, decode0. rewrite Hop, Hts.
    split; [exact Hrange | split; [reflexivity | lia]].
  - rewrite map_map.
    rewrite (map_ext_in _ (fun k => Z.min (r - 28 * Z.of_nat k) 28)).
    + destruct (waits_count r Hr) as [H1 H2]. apply sum_waits; assumption.
    + intros k Hk. pose proof (waits_bounds r k Hr Hk) as Hb.
      rewrite Z.mod_small by (change (2 ^ 29) with 536870912; lia).
      destruct (decode_noop_word 0 0 0 0 (Z.min (r - 28 * Z.of_nat k) 28))
        as [_ [_ Hts]]; [change (2 ^ 29) with 536870912; lia|].
      unfold noop_duration, decode0. exact Hts.
Qed.

(** ** Round trip through encoder and decoder *)

Lemma in_bits_spec (w : Z) (v : option Z) :
  in_bits w v = true -> exists x, v = Some x /\ 0 <= x < 2 ^ w.
Proof.
  destruct v as [x|]; cbn; [|discriminate].
  intros H. apply andb_prop in H. destruct H as [H1 H2].
  exists x. split; [reflexivity|]. split; [apply Z.leb_le | apply Z.ltb_lt]; assumption.
Qed.

Lemma round_trip_dfi (op : OpCode) (kw : Encoder.kwargs) (t a : Z) :
  is_dfi op = true ->
  Encoder.kw_timeslice kw = Some t -> Encoder.kw_address kw = Some a ->
  1 <= t <= 31 -> 0 <= a < 2 ^ 24 ->
  round_trips op kw.
Proof.
  intros Hop Ht Ha Htr Har.
  exists (OpCode_value op + t * 8 + a * 256).
  rewrite (encode_DFI op kw t Hop Ht) by (try lia; rewrite Ha; reflexivity).
  rewrite (base_timeslice_fits t Htr), Z.sub_diag, noops_for_0, Ha.
  rewrite Z.mod_small by assumption.
  split; [reflexivity|].
  split; [apply (decode_dfi_word 0 0 0 0 _ t a (dfi_opcode_pos op Hop)); lia|].
  intros r b ro co.
  destruct (decode_dfi_word r b ro co _ t a (dfi_opcode_pos op Hop))
    as [_ [Hd [Hts Had]]]; [lia | assumption |].
  split; [exact Hd|]. rewrite Hts, Had, Ht, Ha.
  destruct op; try discriminate Hop; split; reflexivity.
Qed.

(** C1 (as amended): every instruction whose fields all fit their widths
    -- a LOOP with a 12-bit count and a 17-bit jump, a NOOP with a 29-bit
    timeslice, a DFI instruction with a timeslice from 1 to 31 and a 24-bit
    address -- is encoded into exactly one 32-bit word, and the decoder's
    field extraction gives back its opcode and its fields. *)
Theorem C1_round_trip (op : OpCode) (kw : Encoder.kwargs) :
  valid_instruction op kw = true -> round_trips op kw.
Proof.
  intros Hv.
  assert (Hdfi : is_dfi op = true -> round_trips op kw).
  { intros Hop.
    assert (Hv' : match Encoder.kw_timeslice kw with
                  | Some ts => (1 <=? ts) && (ts <=? 31)
                  | None => false
                  end && in_bits 24 (Encoder.kw_address kw) = true)
      by (destruct op; try discriminate Hop; exact Hv).
    apply andb_prop in Hv'. destruct Hv' as [H1 H2].
    destruct (Encoder.kw_timeslice kw) as [t|] eqn:Ht; [|discriminate H1].
    apply in_bits_spec in H2. destruct H2 as [a [Ha Har]].
    apply (round_trip_dfi op kw t a Hop Ht Ha); [lia | assumption]. }
  destruct op; try (apply Hdfi; reflexivity); clear Hdfi;
    cbn [valid_instruction] in Hv; unfold round_trips.
  - (* NOOP *)
    apply in_bits_spec in Hv. destruct Hv as [t [Ht Hr]].
    exists (t * 8). rewrite (encode_NOOP kw t Ht) by lia.
    rewrite Z.mod_small by assumption.
    split; [reflexivity|].
    split; [apply (decode_noop_word 0 0 0 0 t Hr)|].
    intros r b ro c. destruct (decode_noop_word r b ro c t Hr) as [_ [Hop Hts]].
    split; [exact Hop | rewrite Hts, Ht; reflexivity].
  - (* LOOP *)
    apply andb_prop in Hv. destruct Hv as [H1 H2].
    apply in_bits_spec in H1. destruct H1 as [c [Hc Hcr]].
    apply in_bits_spec in H2. destruct H2 as [j [Hj Hjr]].
    exists (7 + c * 8 + j * 2 ^ 15). rewrite (encode_LOOP kw c j Hc Hj) by lia.
    rewrite !Z.mod_small by assumption.
    split; [reflexivity|].
    split; [apply (decode_loop_word 0 0 0 0 c j Hcr Hjr)|].
    intros r b ro co.
    destruct (decode_loop_word r b ro co c j Hcr Hjr) as [_ [Hop [Hlc Hlj]]].
    split; [exact Hop|]. rewrite Hlc, Hlj, Hc, Hj. split; reflexivity.
Qed.

Lemma C1_round_trip_witness :
  round_trips ACT (dfi_kwargs 4 (Some 74563)).
Proof.
  apply C1_round_trip. reflexivity.
Defined.

(** A LOOP whose jump needs 18 bits passes validation, is encoded into one
    word, and decodes to another jump. *)
Lemma C1_jump_not_recovered :
  valid_up_to_jump LOOP (loop_kwargs 0 (2 ^ 17)) = true /\
  Encoder.encode LOOP (loop_kwargs 0 (2 ^ 17)) = Ok [7] /\
  Decoder.loop_jump (decode0 7) = 0 /\
  ~ round_trips LOOP (loop_kwargs 0 (2 ^ 17)).
Proof.
  split; [reflexivity|]. split; [reflexivity|]. split; [reflexivity|].
  intros [w [Henc [_ Hrec]]].
  assert (Hw : w = 7) by (vm_compute in Henc; congruence).
  subst w. destruct (Hrec 0 0 0 0) as [_ [_ Hj]].
  vm_compute in Hj. discriminate Hj.
Qed.

(** ** Long timeslices *)

Lemma address_condition (op : OpCode) (kw : Encoder.kwargs) :
  is_dfi op = true ->
  (needs_address op = true -> is_some (Encoder.kw_address kw) = true) ->
  is_some (Encoder.kw_address kw) || OpCode_eqb op REF = true.
Proof.
  intros Hop Ha.
  destruct op; try discriminate Hop;
    try (rewrite (Ha eq_refl); reflexivity).
  apply orb_true_r.
Qed.

(** The base word and the trailing NOOPs of a DFI instruction. *)
Lemma encode_DFI_shape (op : OpCode) (kw : Encoder.kwargs) (T : Z) :
  is_dfi op = true ->
  Encoder.kw_timeslice kw = Some T -> 1 <= T ->
  (needs_address op = true -> is_some (Encoder.kw_address kw) = true) ->
  exists base noops,
    Encoder.encode op kw = Ok (base :: noops) /\
    word_in_range base /\
    Decoder.op_code (decode0 base) = OpCode_value op /\
    Decoder.timeslice (decode0 base) = Z.max (T mod 32) 1 /\
    Forall (fun w => word_in_range w /\ is_noop_word w /\ 1 <= noop_duration w <= 28) noops /\
    sumZ (map noop_duration noops) = T - Z.max (T mod 32) 1.
Proof.
  intros Hop Ht HT Ha.
  pose proof (address_condition op kw Hop Ha) as Hc.
  pose proof (base_timeslice_range T) as Hb.
  pose proof (base_timeslice_le T HT) as Hle.
  eexists. eexists. split.
  - apply (encode_DFI op kw T Hop Ht); [lia | exact Hc].
  - match goal with
    | |- context [?x mod 2 ^ 24] =>
        assert (Hm : 0 <= x mod 2 ^ 24 < 2 ^ 24) by (apply Z.mod_pos_bound; lia);
        destruct (decode_dfi_word 0 0 0 0 (OpCode_value op) (base_timeslice T)
                    (x mod 2 ^ 24) (dfi_opcode_pos op Hop))
          as [Hr [Hd [Hts _]]]; [lia | exact Hm |]
    end.
    destruct (noops_for_durations (T - base_timeslice T)) as [Hall Hsum]; [lia|].
    split; [exact Hr|]. split; [exact Hd|]. split; [exact Hts|].
    split; [exact Hall | exact Hsum].
Qed.

(** C2: for a DFI instruction with requested timeslice [T >= 1] the returned
    words last [T] cycles in total, the base word counting for its 5-bit
    timeslice (0 as 1) and each trailing NOOP for its 29-bit timeslice, which
    is at most [2^29 - 1]. *)
Theorem C2_total_duration (op : OpCode) (kw : Encoder.kwargs) (T : Z) :
  is_dfi op = true ->
  Encoder.kw_timeslice kw = Some T -> 1 <= T ->
  (needs_address op = true -> is_some (Encoder.kw_address kw) = true) ->
  exists base noops,
    Encoder.encode op kw = Ok (base :: noops) /\
    Decoder.op_code (decode0 base) = OpCode_value op /\
    Forall (fun w => is_noop_word w /\ noop_duration w <= 2 ^ 29 - 1) noops /\
    total_duration (base :: noops) = T.
Proof.
  intros Hop Ht HT Ha.
  destruct (encode_DFI_shape op kw T Hop Ht HT Ha)
    as [base [noops [Henc [_ [Hd [Hts [Hall Hsum]]]]]]].
  exists base, noops. split; [exact Henc|]. split; [exact Hd|]. split.
  - eapply Forall_impl; [|exact Hall].
    intros w [_ [Hn Hw]]. split; [exact Hn|].
    change (2 ^ 29) with 536870912. lia.
  - unfold total_duration, base_duration. rewrite Hts, Hsum. lia.
Qed.

Lemma C2_total_duration_witness :
  exists base noops,
    Encoder.encode READ (dfi_kwargs 1000 (Some 3)) = Ok (base :: noops) /\
    Decoder.op_code (decode0 base) = OpCode_value READ /\
    Forall (fun w => is_noop_word w /\ noop_duration w <= 2 ^ 29 - 1) noops /\
    total_duration (base :: noops) = 1000.
Proof.
  apply (C2_total_duration READ (dfi_kwargs 1000 (Some 3)) 1000);
    [reflexivity | reflexivity | lia | reflexivity].
Defined.

(** C3 (as amended): for a DFI instruction with requested timeslice
    [T > 31] the first word carries the timeslice [max (T mod 32) 1] and the
    trailing NOOP words carry, each at least 1 and at most [2^29 - 1] cycles,
    the rest [T - max (T mod 32) 1]. *)
Theorem C3_long_timeslice (op : OpCode) (kw : Encoder.kwargs) (T : Z) :
  is_dfi op = true ->
  Encoder.kw_timeslice kw = Some T -> 31 < T ->
  (needs_address op = true -> is_some (Encoder.kw_address kw) = true) ->
  exists base noops,
    Encoder.encode op kw = Ok (base :: noops) /\
    Decoder.op_code (decode0 base) = OpCode_value op /\
    Decoder.timeslice (decode0 base) = Z.max (T mod 32) 1 /\
    Forall (fun w => is_noop_word w /\ 1 <= noop_duration w <= 2 ^ 29 - 1) noops /\
    sumZ (map noop_duration noops) = T - Z.max (T mod 32) 1.
Proof.
  intros Hop Ht HT Ha.
  destruct (encode_DFI_shape op kw T Hop Ht ltac:(lia) Ha)
    as [base [noops [Henc [_ [Hd [Hts [Hall Hsum]]]]]]].
  exists base, noops. repeat (split; [assumption|]). split; [|exact Hsum].
  eapply Forall_impl; [|exact Hall].
  intros w [_ [Hn Hw]]. split; [exact Hn|].
  change (2 ^ 29) with 536870912. lia.
Qed.

(** ACT with timeslice 100: an ACT word of timeslice 4, then NOOPs for 96. *)
Lemma C3_long_timeslice_witness :
  exists base noops,
    Encoder.encode ACT (dfi_kwargs 100 (Some 5)) = Ok (base :: noops) /\
    Decoder.op_code (decode0 base) = OpCode_value ACT /\
    Decoder.timeslice (decode0 base) = 4 /\
    Forall (fun w => is_noop_word w /\ 1 <= noop_duration w <= 2 ^ 29 - 1) noops /\
    sumZ (map noop_duration noops) = 96.
Proof.
  apply (C3_long_timeslice ACT (dfi_kwargs 100 (Some 5)) 100);
    [reflexivity | reflexivity | lia | reflexivity].
Defined.

(** ACT with timeslice 100 is not returned as an ACT word of timeslice 31
    followed by one NOOP of 69: the base word carries [100 mod 32 = 4]. *)
Lemma C3_not_clamped_to_31 :
  Encoder.encode ACT (dfi_kwargs 100 (Some 5)) = Ok [1316; 224; 224; 224; 96] /\
  Decoder.timeslice (decode0 1316) = 4 /\
  ~ (exists base noop,
        Encoder.encode ACT (dfi_kwargs 100 (Some 5)) = Ok [base; noop] /\
        Decoder.timeslice (decode0 base) = 31 /\
        noop_duration noop = 69).
Proof.
  split; [reflexivity|]. split; [reflexivity|].
  intros [base [noop [Henc _]]]. vm_compute in Henc. discriminate Henc.
Qed.

(** ** Validation *)

Ltac split_comparisons :=
  repeat match goal with
         | |- context [?x <? ?y] => destruct (Z.ltb_spec x y)
         | |- context [?x <=? ?y] => destruct (Z.leb_spec x y)
         | |- context [?x =? ?y] => destruct (Z.eqb_spec x y)
         end.

(** A call that supplies its keyword arguments either trips one of the
    assertions, exactly when it has a rejected shape, or returns. *)
Lemma init_result (op : OpCode) (kw : Encoder.kwargs) :
  supplied op kw = true ->
  (rejected op kw = true -> Encoder.Instruction_init op kw = Raise AssertionError) /\
  (rejected op kw = false -> exists spec, Encoder.Instruction_init op kw = Ok spec).
Proof.
  intros Hs.
  destruct kw as [[c|] [j|] [t|] [a|]]; destruct op; cbn in Hs; try discriminate Hs;
    unfold rejected, Encoder.Instruction_init;
    cbn [Encoder.kw_count Encoder.kw_jump Encoder.kw_timeslice Encoder.kw_address
         getitem bind OpCode_eqb OpCode_value is_dfi needs_address is_some geb_opt
         eqb_opt Z.eqb Pos.eqb andb orb negb];
    change (2 ^ Decoder.LOOP_COUNT) with (2 ^ 12);
    change (2 ^ Decoder.TIMESLICE_NOOP) with (2 ^ 29);
    split_comparisons; cbn [py_assert bind negb andb orb];
    (split; intros H'; try discriminate H'; try lia; try reflexivity; eauto).
Qed.

(** A call that leaves out a keyword argument its opcode reads fails at the
    subscript, unless it is a LOOP whose count trips the assertion before
    [kwargs["jump"]] is read. *)
Lemma init_missing (op : OpCode) (kw : Encoder.kwargs) :
  supplied op kw = false ->
  Encoder.Instruction_init op kw =
  Raise (if OpCode_eqb op LOOP && geb_opt (Encoder.kw_count kw) (2 ^ 12)
         then AssertionError else KeyError).
Proof.
  intros Hs.
  destruct kw as [[c|] [j|] [t|] [a|]]; destruct op; cbn in Hs; try discriminate Hs;
    unfold Encoder.Instruction_init;
    cbn [Encoder.kw_count Encoder.kw_jump Encoder.kw_timeslice Encoder.kw_address
         getitem bind OpCode_eqb OpCode_value geb_opt Z.eqb Pos.eqb andb];
    change (2 ^ Decoder.LOOP_COUNT) with (2 ^ 12);
    try reflexivity;
    destruct (Z.ltb_spec c (2 ^ 12)); destruct (Z.leb_spec (2 ^ 12) c);
    try lia; reflexivity.
Qed.

(** C6: constructing or encoding an instruction raises if and only if it is
    a LOOP with count [>= 2^12], a NOOP with timeslice [>= 2^29], a DFI
    instruction with timeslice 0, an ACT, PRE, ZQC or READ without address, or
    a call that leaves out a keyword argument its opcode reads (count or jump
    for LOOP, timeslice otherwise).  With the keywords supplied the error is
    the failed assertion; with one missing it is the KeyError of the subscript,
    except for a LOOP with count [>= 2^12] and no jump, whose assertion fails
    first. *)
Theorem C6_rejections (op : OpCode) (kw : Encoder.kwargs) :
  (raises (Encoder.Instruction_init op kw) <->
   rejected op kw = true \/ supplied op kw = false) /\
  (raises (Encoder.encode op kw) <->
   rejected op kw = true \/ supplied op kw = false) /\
  (supplied op kw = true -> rejected op kw = true ->
   Encoder.encode op kw = Raise AssertionError) /\
  (supplied op kw = false ->
   Encoder.encode op kw =
   Raise (if OpCode_eqb op LOOP && geb_opt (Encoder.kw_count kw) (2 ^ 12)
          then AssertionError else KeyError)).
Proof.
  unfold Encoder.encode, raises.
  destruct (supplied op kw) eqn:Es.
  - destruct (init_result op kw Es) as [Hrej Hok].
    destruct (rejected op kw) eqn:Er.
    + rewrite (Hrej eq_refl). cbn [bind].
      split; [split; intros; [left; reflexivity | exists AssertionError; reflexivity]|].
      split; [split; intros; [left; reflexivity | exists AssertionError; reflexivity]|].
      split; [reflexivity | intros H; discriminate H].
    + destruct (Hok eq_refl) as [spec Hspec]. rewrite Hspec. cbn [bind].
      split; [split; [intros [e He]; discriminate He
                     | intros [H|H]; discriminate H]|].
      split; [split; [intros [e He]; discriminate He
                     | intros [H|H]; discriminate H]|].
      split; intros H; try discriminate H. intros H'. discriminate H'.
  - rewrite (init_missing op kw Es). cbn [bind].
    split; [split; intros; [right; reflexivity | eexists; reflexivity]|].
    split; [split; intros; [right; reflexivity | eexists; reflexivity]|].
    split; [intros H; discriminate H | reflexivity].
Qed.

(** PRE without address: the keywords are there and the assertion fails. *)
Lemma C6_rejections_witness :
  Encoder.encode PRE (dfi_kwargs 2 None) = Raise AssertionError.
Proof.
  exact (proj1 (proj2 (proj2 (C6_rejections PRE (dfi_kwargs 2 None)))) eq_refl eq_refl).
Defined.

(** A LOOP with count 5 and no jump has none of the four rejected shapes,
    and raises: the subscript [kwargs["jump"]] fails with a KeyError. *)
Lemma C6_missing_jump_raises :
  rejected LOOP (Encoder.mk_kwargs (Some 5) None None None) = false /\
  Encoder.Instruction_init LOOP (Encoder.mk_kwargs (Some 5) None None None)
  = Raise KeyError /\
  Encoder.encode LOOP (Encoder.mk_kwargs (Some 5) None None None) = Raise KeyError /\
  raises (Encoder.encode LOOP (Encoder.mk_kwargs (Some 5) None None None)).
Proof.
  split; [reflexivity|]. split; [reflexivity|]. split; [reflexivity|].
  exists KeyError. reflexivity.
Qed.

(** REF without address and with timeslice 40 is accepted. *)
Example REF_without_address_accepted :
  rejected REF (dfi_kwargs 40 None) = false /\
  exists ws, Encoder.encode REF (dfi_kwargs 40 None) = Ok ws.
Proof.
  split; [reflexivity|]. eexists. reflexivity.
Qed.

Example LOOP_jump_too_wide_accepted :
  rejected LOOP (loop_kwargs 3 (2 ^ 17)) = false /\
  Encoder.encode LOOP (loop_kwargs 3 (2 ^ 17)) = Ok [31].
Proof.
  split; reflexivity.
Qed.

Example PRE_without_address_rejected :
  rejected PRE (dfi_kwargs 2 None) = true /\
  Encoder.encode PRE (dfi_kwargs 2 None) = Raise AssertionError.
Proof.
  split; reflexivity.
Qed.

(** ** Range of the returned words *)

Lemma pack_loop_range (a c j : Z) :
  word_in_range (Encoder.pack [(Decoder.OP_CODE, a); (Decoder.LOOP_COUNT, c);
                               (Decoder.LOOP_JUMP, j)]).
Proof.
  change Decoder.OP_CODE with 3. rewrite pack3 by (cbv; discriminate).
  change Decoder.LOOP_COUNT with 12. change Decoder.LOOP_JUMP with 17.
  unfold word_in_range, WORD. change Decoder.INSTRUCTION with 32.
  pose proof (Z.mod_pos_bound a 8). pose proof (Z.mod_pos_bound c (2 ^ 12)).
  pose proof (Z.mod_pos_bound j (2 ^ 17)).
  change (2 ^ 12) with 4096 in *. change (2 ^ 17) with 131072 in *.
  change (2 ^ (3 + 12)) with 32768. change (2 ^ 32) with 4294967296. lia.
Qed.

Lemma pack_dfi_range (a t adr : Z) :
  word_in_range (Encoder.pack [(Decoder.OP_CODE, a); (Decoder.TIMESLICE, t);
                               (Decoder.ADDRESS, adr)]).
Proof.
  change Decoder.OP_CODE with 3. rewrite pack3 by (cbv; discriminate).
  change Decoder.TIMESLICE with 5. change Decoder.ADDRESS with 24.
  unfold word_in_range, WORD. change Decoder.INSTRUCTION with 32.
  pose proof (Z.mod_pos_bound a 8). pose proof (Z.mod_pos_bound t (2 ^ 5)).
  pose proof (Z.mod_pos_bound adr (2 ^ 24)).
  change (2 ^ 5) with 32 in *. change (2 ^ 24) with 16777216 in *.
  change (2 ^ (3 + 5)) with 256. change (2 ^ 32) with 4294967296. lia.
Qed.

Lemma pack_noop_range (a t : Z) :
  word_in_range (Encoder.pack [(Decoder.OP_CODE, a); (Decoder.TIMESLICE_NOOP, t)]).
Proof.
  change Decoder.OP_CODE with 3. change Decoder.TIMESLICE_NOOP with 29.
  rewrite pack2.
  unfold word_in_range, WORD. change Decoder.INSTRUCTION with 32.
  pose proof (Z.mod_pos_bound a 8). pose proof (Z.mod_pos_bound t (2 ^ 29)).
  change (2 ^ 29) with 536870912 in *. change (2 ^ 32) with 4294967296. lia.
Qed.

Lemma noops_range (r : Z) :
  Forall word_in_range (map Encoder.pack (Encoder.noops_for r)).
Proof.
  apply Forall_forall. intros w Hw.
  apply in_map_iff in Hw. destruct Hw as [ps [Hw Hps]]. subst w.
  unfold Encoder.noops_for in Hps. apply in_map_iff in Hps.
  destruct Hps as [i [Hps _]]. subst ps. apply pack_noop_range.
Qed.

Lemma init_words (op : OpCode) (kw : Encoder.kwargs) (spec : Encoder.Instruction) :
  Encoder.Instruction_init op kw = Ok spec ->
  Forall word_in_range (Encoder.encode_spec spec).
Proof.
  intros Hinit.
  destruct kw as [[c|] [j|] [t|] [a|]]; destruct op;
    unfold Encoder.Instruction_init in Hinit;
    cbn [Encoder.kw_count Encoder.kw_jump Encoder.kw_timeslice Encoder.kw_address
         getitem bind] in Hinit;
    try discriminate Hinit;
    revert Hinit; split_comparisons; cbn [py_assert bind negb orb];
    intros Hinit; try discriminate Hinit;
    injection Hinit as Hinit; subst spec; unfold Encoder.encode_spec;
    cbn [Encoder._parts Encoder._noops map];
    constructor;
    first [ apply pack_loop_range | apply pack_dfi_range | apply pack_noop_range
          | apply noops_range | constructor ].
Qed.

Lemma encode_words (op : OpCode) (kw : Encoder.kwargs) (ws : list Z) :
  Encoder.encode op kw = Ok ws -> Forall word_in_range ws.
Proof.
  unfold Encoder.encode. intros H.
  destruct (Encoder.Instruction_init op kw) as [spec|e] eqn:E; cbn [bind] in H.
  - injection H as H. subst ws. exact (init_words op kw spec E).
  - discriminate H.
Qed.

(** C10: every word returned by [encode], [encode_spec] (on an instruction
    that [__init__] built) or [encode_payload] lies in [0, 2^32); a field is
    packed modulo [2^width], so a LOOP jump or an address that is too wide is
    cut to its low bits and the neighbouring fields decode unchanged. *)
Theorem C10_words_in_range :
  (forall op kw ws, Encoder.encode op kw = Ok ws -> Forall word_in_range ws) /\
  (forall spec, constructed spec -> Forall word_in_range (Encoder.encode_spec spec)) /\
  (forall payload, Forall constructed payload ->
                   Forall word_in_range (Encoder.encode_payload payload)) /\
  (forall c j, c < 2 ^ 12 ->
     exists w, Encoder.encode LOOP (loop_kwargs c j) = Ok [w] /\
               Decoder.op_code (decode0 w) = OpCode_value LOOP /\
               Decoder.loop_count (decode0 w) = c mod 2 ^ 12 /\
               Decoder.loop_jump (decode0 w) = j mod 2 ^ 17) /\
  (forall op t a, is_dfi op = true -> t <> 0 ->
     exists base noops,
       Encoder.encode op (dfi_kwargs t (Some a)) = Ok (base :: noops) /\
       Decoder.op_code (decode0 base) = OpCode_value op /\
       Decoder.timeslice (decode0 base) = Z.max (t mod 32) 1 /\
       Decoder.address (decode0 base) = a mod 2 ^ 24).
Proof.
  split; [exact encode_words|].
  split; [intros spec [op [kw H]]; exact (init_words op kw spec H)|].
  split.
  - intros payload Hall. unfold Encoder.encode_payload.
    induction Hall as [|spec payload [op [kw H]] _ IH]; cbn [flat_map].
    + constructor.
    + apply Forall_app. split; [exact (init_words op kw spec H) | exact IH].
  - split.
    + intros c j Hc. eexists. split.
      * apply (encode_LOOP (loop_kwargs c j) c j); [reflexivity | reflexivity | exact Hc].
      * assert (H1 : 0 <= c mod 2 ^ 12 < 2 ^ 12) by (apply Z.mod_pos_bound; lia).
        assert (H2 : 0 <= j mod 2 ^ 17 < 2 ^ 17) by (apply Z.mod_pos_bound; lia).
        destruct (decode_loop_word 0 0 0 0 _ _ H1 H2) as [_ [Hop [Hlc Hlj]]].
        split; [exact Hop|]. split; [exact Hlc | exact Hlj].
    + intros op t a Hop Ht. eexists. eexists. split.
      * apply (encode_DFI op (dfi_kwargs t (Some a)) t Hop); [reflexivity | exact Ht | reflexivity].
      * cbn [dfi_kwargs Encoder.kw_address].
        assert (H1 : 0 <= a mod 2 ^ 24 < 2 ^ 24) by (apply Z.mod_pos_bound; lia).
        pose proof (base_timeslice_range t) as Hb.
        destruct (decode_dfi_word 0 0 0 0 (OpCode_value op) (base_timeslice t)
                    (a mod 2 ^ 24) (dfi_opcode_pos op Hop))
          as [_ [Hd [Hts Had]]]; [lia | exact H1 |].
        split; [exact Hd|]. split; [exact Hts | exact Had].
Qed.

(** A jump of [2^17 + 5] is packed as 5 next to an unchanged count of 3. *)
Lemma C10_words_in_range_witness :
  exists w, Encoder.encode LOOP (loop_kwargs 3 (2 ^ 17 + 5)) = Ok [w] /\
            Decoder.op_code (decode0 w) = OpCode_value LOOP /\
            Decoder.loop_count (decode0 w) = 3 mod 2 ^ 12 /\
            Decoder.loop_jump (decode0 w) = (2 ^ 17 + 5) mod 2 ^ 17.
Proof.
  apply (proj1 (proj2 (proj2 (proj2 C10_words_in_range))) 3 (2 ^ 17 + 5)).
  reflexivity.
Defined.

Example address_above_24_bits_cut :
  Encoder.address 4 1 None 3 (Some (2 ^ 20)) None = Ok (2 ^ 24 + 3) /\
  Encoder.encode ACT (dfi_kwargs 1 (Some (2 ^ 24 + 3))) = Ok [780] /\
  Decoder.address (decode0 780) = 3.
Proof.
  repeat split; reflexivity.
Qed.

(** ** Bus switch *)

Lemma refresh_classic (p : RefreshCounter.dfi_phase) :
  RefreshCounter.refresh false p = true <->
  RefreshCounter.cs_n p = 0 /\ RefreshCounter.cas_n p = 0 /\
  RefreshCounter.ras_n p = 0 /\ RefreshCounter.we_n p = 1.
Proof.
  unfold RefreshCounter.refresh. rewrite !andb_true_iff, !Z.eqb_eq. tauto.
Qed.

(** C8: the switch leaves CONTROLLER for PAYLOAD only with [wants_dfi], and
    under refresh gating only in a cycle that shows a refresh command while
    [at_refresh] is 0 or [refresh_counter + 1]; it returns to CONTROLLER
    exactly when [wants_dfi] is low in PAYLOAD, and resets the external
    refresher in that cycle and in no other. *)
Theorem C8_bus_switch (with_refresh ddr5 : bool) (i : DFISwitch.inputs) (s : DFISwitch.t) :
  (DFISwitch.fsm s = DFISwitch.MEMORY_CONTROLLER ->
   (DFISwitch.fsm (DFISwitch.step with_refresh ddr5 i s) = DFISwitch.PAYLOAD_EXECUTION <->
    DFISwitch.wants_dfi i = true /\
    (with_refresh = true ->
     RefreshCounter.refresh ddr5 (DFISwitch.master_phase0 i) = true /\
     (DFISwitch.at_refresh i = 0 \/
      DFISwitch.at_refresh i = DFISwitch.refresh_counter s + 1))) /\
   DFISwitch.refresher_reset (DFISwitch.comb i s) = false /\
   DFISwitch.dfi_ready (DFISwitch.comb i s) = false) /\
  (DFISwitch.fsm s = DFISwitch.PAYLOAD_EXECUTION ->
   (DFISwitch.fsm (DFISwitch.step with_refresh ddr5 i s) = DFISwitch.MEMORY_CONTROLLER <->
    DFISwitch.wants_dfi i = false) /\
   (DFISwitch.refresher_reset (DFISwitch.comb i s) = true <->
    DFISwitch.wants_dfi i = false) /\
   DFISwitch.dfi_ready (DFISwitch.comb i s) = true).
Proof.
  split; intros Hs; unfold DFISwitch.step, DFISwitch.next_state, DFISwitch.comb;
    cbn [DFISwitch.fsm]; rewrite Hs;
    cbn [DFISwitch.refresher_reset DFISwitch.dfi_ready].
  - split; [|split; reflexivity].
    unfold DFISwitch.refresh_matches.
    destruct (DFISwitch.wants_dfi i); [|split; [discriminate | intros [H _]; discriminate H]].
    destruct with_refresh.
    + destruct (RefreshCounter.refresh ddr5 (DFISwitch.master_phase0 i)); cbn [andb].
      * destruct (Z.eqb_spec (DFISwitch.at_refresh i) 0) as [E0|E0];
          destruct (Z.eqb_spec (DFISwitch.at_refresh i) (DFISwitch.refresh_counter s + 1))
            as [E1|E1]; cbn [orb]; split; intros H; try discriminate H;
          try (split; [reflexivity | intros _; split; [reflexivity | tauto]]);
          try reflexivity.
        destruct H as [_ H]. destruct (H eq_refl) as [_ [H'|H']]; contradiction.
      * split; [discriminate|]. intros [_ H]. destruct (H eq_refl) as [H' _]. discriminate H'.
    + split; [|reflexivity]. intros _. split; [reflexivity | discriminate].
  - destruct (DFISwitch.wants_dfi i); cbn [negb]; repeat split;
      intros H; try discriminate H; reflexivity.
Qed.

Example switch_waits_for_its_refresh :
  let ref := RefreshCounter.mk_phase 0 0 0 1 0 in
  let s := DFISwitch.mk DFISwitch.MEMORY_CONTROLLER 6 true 0 in
  DFISwitch.fsm (DFISwitch.step true false (DFISwitch.mk_inputs true 8 ref false) s)
  = DFISwitch.MEMORY_CONTROLLER /\
  DFISwitch.fsm (DFISwitch.step true false (DFISwitch.mk_inputs true 7 ref false) s)
  = DFISwitch.PAYLOAD_EXECUTION.
Proof.
  split; reflexivity.
Qed.

Lemma C8_bus_switch_witness :
  DFISwitch.fsm
    (DFISwitch.step true false
       (DFISwitch.mk_inputs true 7 (RefreshCounter.mk_phase 0 0 0 1 0) false)
       (DFISwitch.mk DFISwitch.MEMORY_CONTROLLER 6 true 0))
  = DFISwitch.PAYLOAD_EXECUTION <->
  true = true /\
  (true = true ->
   RefreshCounter.refresh false (RefreshCounter.mk_phase 0 0 0 1 0) = true /\
   (7 = 0 \/ 7 = 6 + 1)).
Proof.
  exact (proj1 (proj1 (C8_bus_switch true false
                         (DFISwitch.mk_inputs true 7 (RefreshCounter.mk_phase 0 0 0 1 0) false)
                         (DFISwitch.mk DFISwitch.MEMORY_CONTROLLER 6 true 0))
                  eq_refl)).
Defined.

(** ** Executor: the RUN state *)

Section ExecutorProperties.
Variable mem_payload : list Z.
Variables (rankbits bankbits rowbits colbits rdphase : Z).

Let cycle := PayloadExecutor.cycle mem_payload rankbits bankbits rowbits colbits rdphase.
Let run := PayloadExecutor.run mem_payload rankbits bankbits rowbits colbits rdphase.
Let decoder := PayloadExecutor.decoder rankbits bankbits rowbits colbits.
Let fsm_act := PayloadExecutor.fsm_act rankbits bankbits rowbits colbits rdphase.
Let mem_read := PayloadExecutor.mem_read mem_payload.
Let addr_width := PayloadExecutor.addr_width mem_payload.

Lemma stop_is_noop (s : PayloadExecutor.t) :
  Decoder.stop (decoder s) = true ->
  Decoder.op_code (decoder s) = OpCode_value NOOP /\ Decoder.timeslice (decoder s) = 0.
Proof.
  unfold decoder, PayloadExecutor.decoder. rewrite decode_stop.
  intros H. apply andb_prop in H. destruct H as [H1 H2].
  apply Z.eqb_eq in H1. apply Z.eqb_eq in H2. split; assumption.
Qed.

Lemma terminate_spec (s : PayloadExecutor.t) :
  PayloadExecutor.terminate rankbits bankbits rowbits colbits s = true <->
  (PayloadExecutor.program_counter s = PayloadExecutor.PIPELINE_DELAY - 1 \/
   Decoder.stop (decoder s) = true) /\
  (Decoder.op_code (decoder s) <> OpCode_value LOOP \/
   Decoder.loop_count (decoder s) = PayloadExecutor.loop_counter s).
Proof.
  unfold PayloadExecutor.terminate, PayloadExecutor.mem_addr. fold decoder.
  rewrite andb_true_iff, !orb_true_iff, negb_true_iff, Z.eqb_neq, !Z.eqb_eq.
  tauto.
Qed.

(** The next state of a RUN cycle. *)
Lemma run_next_fsm (i : PayloadExecutor.inputs) (s : PayloadExecutor.t) :
  PayloadExecutor.fsm s = PayloadExecutor.RUN ->
  PayloadExecutor.next_fsm (fsm_act i s) =
  if PayloadExecutor.terminate rankbits bankbits rowbits colbits s then PayloadExecutor.READY
  else if Decoder.op_code (decoder s) =? OpCode_value LOOP then
    if negb (PayloadExecutor.loop_counter s =? Decoder.loop_count (decoder s))
    then PayloadExecutor.BUBBLE else PayloadExecutor.RUN
  else if (Decoder.timeslice (decoder s) =? 0) || (Decoder.timeslice (decoder s) =? 1)
       then PayloadExecutor.RUN else PayloadExecutor.IDLE.
Proof.
  intros Hrun. unfold fsm_act, PayloadExecutor.fsm_act. fold decoder. rewrite Hrun.
  destruct (PayloadExecutor.terminate rankbits bankbits rowbits colbits s); [reflexivity|].
  destruct (Decoder.op_code (decoder s) =? OpCode_value LOOP).
  - destruct (negb (PayloadExecutor.loop_counter s =? Decoder.loop_count (decoder s)));
      cbn; [reflexivity | exact Hrun].
  - destruct ((Decoder.timeslice (decoder s) =? 0) || (Decoder.timeslice (decoder s) =? 1));
      cbn; [exact Hrun | reflexivity].
Qed.

(** C5: a RUN cycle ends in READY exactly when the fetch address is
    [PIPELINE_DELAY - 1] or the instruction is STOP, and the instruction is not
    a LOOP with iterations left; [wants_dfi] is then dropped.  STOP always
    qualifies, whatever [loop_counter] holds. *)
Theorem C5_run_exit (i : PayloadExecutor.inputs) (s : PayloadExecutor.t) :
  PayloadExecutor.fsm s = PayloadExecutor.RUN ->
  let s' := fst (cycle i s) in
  let o := snd (cycle i s) in
  PayloadExecutor.o_mem_addr o = PayloadExecutor.program_counter s /\
  (PayloadExecutor.fsm s' = PayloadExecutor.READY <->
   (PayloadExecutor.o_mem_addr o = PayloadExecutor.PIPELINE_DELAY - 1 \/
    Decoder.stop (decoder s) = true) /\
   (Decoder.op_code (decoder s) <> OpCode_value LOOP \/
    Decoder.loop_count (decoder s) = PayloadExecutor.loop_counter s)) /\
  (PayloadExecutor.fsm s' = PayloadExecutor.READY -> PayloadExecutor.wants_dfi s' = false) /\
  (Decoder.stop (decoder s) = true ->
   PayloadExecutor.fsm s' = PayloadExecutor.READY /\ PayloadExecutor.wants_dfi s' = false).
Proof.
  intros Hrun s' o.
  assert (Hstall : PayloadExecutor.stall (fsm_act i s) = false).
  { unfold fsm_act, PayloadExecutor.fsm_act. rewrite Hrun.
    repeat match goal with |- context [if ?c then _ else _] => destruct c end; reflexivity. }
  assert (Hadr : PayloadExecutor.o_mem_addr o = PayloadExecutor.program_counter s).
  { subst o. unfold cycle, PayloadExecutor.cycle. cbn [snd PayloadExecutor.o_mem_addr].
    fold fsm_act. rewrite Hstall. reflexivity. }
  assert (Hfsm : PayloadExecutor.fsm s' = PayloadExecutor.next_fsm (fsm_act i s)) by reflexivity.
  assert (Hwants : PayloadExecutor.wants_dfi s' = PayloadExecutor.next_wants_dfi (fsm_act i s))
    by reflexivity.
  assert (Hready : PayloadExecutor.fsm s' = PayloadExecutor.READY <->
                   PayloadExecutor.terminate rankbits bankbits rowbits colbits s = true).
  { rewrite Hfsm, (run_next_fsm i s Hrun).
    repeat match goal with |- context [if ?c then _ else _] => destruct c end;
      split; intros H; try discriminate H; reflexivity. }
  assert (Hdrop : PayloadExecutor.terminate rankbits bankbits rowbits colbits s = true ->
                  PayloadExecutor.wants_dfi s' = false).
  { intros Ht. rewrite Hwants. unfold fsm_act, PayloadExecutor.fsm_act.
    rewrite Hrun, Ht. reflexivity. }
  split; [exact Hadr|]. rewrite Hadr. split; [|split].
  - rewrite Hready. apply terminate_spec.
  - intros H. apply Hdrop, Hready, H.
  - intros Hstop.
    assert (Ht : PayloadExecutor.terminate rankbits bankbits rowbits colbits s = true).
    { apply terminate_spec. split; [right; exact Hstop|].
      left. destruct (stop_is_noop s Hstop) as [Hop _]. rewrite Hop. discriminate. }
    split; [apply Hready, Ht | apply Hdrop, Ht].
Qed.

(** ** Executor: running over several cycles *)

Lemma run_cons (i : PayloadExecutor.inputs) (ins : list PayloadExecutor.inputs)
      (s : PayloadExecutor.t) :
  run (i :: ins) s =
  (fst (run ins (fst (cycle i s))), snd (cycle i s) :: snd (run ins (fst (cycle i s)))).
Proof.
  unfold run. cbn [PayloadExecutor.run]. fold cycle.
  destruct (cycle i s) as [s1 o]. cbn [fst snd].
  destruct (PayloadExecutor.run mem_payload rankbits bankbits rowbits colbits rdphase ins s1).
  reflexivity.
Qed.

Lemma run_app (ins1 ins2 : list PayloadExecutor.inputs) :
  forall s,
    run (ins1 ++ ins2) s =
    (fst (run ins2 (fst (run ins1 s))),
     snd (run ins1 s) ++ snd (run ins2 (fst (run ins1 s)))).
Proof.
  induction ins1 as [|i ins1 IH]; intros s.
  - cbn [app]. change (run [] s) with (s, @nil PayloadExecutor.outputs).
    cbn [fst snd app]. destruct (run ins2 s). reflexivity.
  - cbn [app]. rewrite !run_cons. cbn [fst snd]. rewrite IH. reflexivity.
Qed.

Lemma issued_app (os1 os2 : list PayloadExecutor.outputs) :
  PayloadExecutor.issued (os1 ++ os2) = PayloadExecutor.issued os1 ++ PayloadExecutor.issued os2.
Proof.
  unfold PayloadExecutor.issued. rewrite filter_app, map_app. reflexivity.
Qed.

Lemma jumps_app (os1 os2 : list PayloadExecutor.outputs) :
  PayloadExecutor.jumps (os1 ++ os2) = (PayloadExecutor.jumps os1 + PayloadExecutor.jumps os2)%nat.
Proof.
  unfold PayloadExecutor.jumps. rewrite filter_app, length_app. reflexivity.
Qed.

Lemma issued_quiet (o : PayloadExecutor.outputs) (os : list PayloadExecutor.outputs) :
  quiet o -> PayloadExecutor.issued (o :: os) = PayloadExecutor.issued os.
Proof.
  intros [He _]. unfold PayloadExecutor.issued. cbn [filter]. rewrite He. reflexivity.
Qed.

Lemma jumps_quiet (o : PayloadExecutor.outputs) (os : list PayloadExecutor.outputs) :
  quiet o -> PayloadExecutor.jumps (o :: os) = PayloadExecutor.jumps os.
Proof.
  intros [_ Hj]. unfold PayloadExecutor.jumps. cbn [filter]. rewrite Hj. reflexivity.
Qed.

Lemma addr_width_nonneg : 0 <= addr_width.
Proof.
  unfold addr_width, PayloadExecutor.addr_width, Migen.signal_max, Migen.bits_for.
  destruct (0 <? PayloadExecutor.depth mem_payload - 1).
  - apply Z.log2_up_nonneg.
  - pose proof (Z.log2_up_nonneg (- (PayloadExecutor.depth mem_payload - 1))). lia.
Qed.

Lemma fetch_at_step (s s' : PayloadExecutor.t) (a : Z) :
  fetch_at mem_payload s a -> fetch_step mem_payload s s' ->
  0 <= a -> a + 3 < 2 ^ addr_width ->
  fetch_at mem_payload s' (a + 1).
Proof.
  intros [Hi [Hd [Hp Ho]]] [Sp [So [Si Sd]]] Ha Hw.
  unfold fetch_at. rewrite Sp, So, Si, Sd, Hp, Hd.
  fold addr_width. rewrite trunc_small by (try apply addr_width_nonneg; lia).
  repeat split; try reflexivity; try lia. f_equal. lia.
Qed.

Lemma fetch_at_hold (s s' : PayloadExecutor.t) (a : Z) :
  fetch_at mem_payload s a -> fetch_hold mem_payload s s' -> fetch_at mem_payload s' a.
Proof.
  intros [Hi [Hd [Hp Ho]]] [Sp [So [Si Sd]]].
  unfold fetch_at. rewrite Sp, So, Si, Sd, Hp, Ho, Hi. repeat split; reflexivity.
Qed.

(** One IDLE cycle. *)
Lemma idle_cycle (i : PayloadExecutor.inputs) (s : PayloadExecutor.t) :
  PayloadExecutor.fsm s = PayloadExecutor.IDLE ->
  let s' := fst (cycle i s) in
  let o := snd (cycle i s) in
  fetch_hold mem_payload s s' /\ same_control s s' /\ quiet o /\
  PayloadExecutor.next_fsm (PayloadExecutor.o_act o) = PayloadExecutor.fsm s' /\
  (PayloadExecutor.idle_counter s = 0 -> PayloadExecutor.fsm s' = PayloadExecutor.RUN) /\
  (PayloadExecutor.idle_counter s <> 0 ->
   PayloadExecutor.fsm s' = PayloadExecutor.IDLE /\
   PayloadExecutor.idle_counter s' =
     Migen.trunc Decoder.TIMESLICE_NOOP (PayloadExecutor.idle_counter s - 1)).
Proof.
  intros Hf s' o. subst s' o.
  unfold cycle, PayloadExecutor.cycle, PayloadExecutor.fsm_act,
    fetch_hold, same_control, quiet, PayloadExecutor.mem_addr.
  rewrite Hf.
  destruct (Z.eqb_spec (PayloadExecutor.idle_counter s) 0) as [E|E]; cbn;
    repeat split; intros; try reflexivity; try assumption; try contradiction.
Qed.

(** One BUBBLE cycle. *)
Lemma bubble_cycle (i : PayloadExecutor.inputs) (s : PayloadExecutor.t) :
  PayloadExecutor.fsm s = PayloadExecutor.BUBBLE ->
  let s' := fst (cycle i s) in
  let o := snd (cycle i s) in
  fetch_step mem_payload s s' /\ same_control s s' /\ quiet o /\
  PayloadExecutor.next_fsm (PayloadExecutor.o_act o) = PayloadExecutor.fsm s' /\
  (PayloadExecutor.idle_counter s = 0 -> PayloadExecutor.fsm s' = PayloadExecutor.RUN) /\
  (PayloadExecutor.idle_counter s <> 0 ->
   PayloadExecutor.fsm s' = PayloadExecutor.BUBBLE /\
   PayloadExecutor.idle_counter s' =
     Migen.trunc Decoder.TIMESLICE_NOOP (PayloadExecutor.idle_counter s - 1)).
Proof.
  intros Hf s' o. subst s' o.
  unfold cycle, PayloadExecutor.cycle, PayloadExecutor.fsm_act,
    fetch_step, same_control, quiet, PayloadExecutor.mem_addr, PayloadExecutor.next_addr.
  rewrite Hf.
  destruct (Z.eqb_spec (PayloadExecutor.idle_counter s) 0) as [E|E]; cbn;
    repeat split; intros; try reflexivity; try assumption; try contradiction.
Qed.

(** A RUN cycle on a word that is neither LOOP nor STOP strobes the emitter. *)
Lemma run_cycle_plain (i : PayloadExecutor.inputs) (s : PayloadExecutor.t) :
  PayloadExecutor.fsm s = PayloadExecutor.RUN ->
  PayloadExecutor.program_counter s <> PayloadExecutor.PIPELINE_DELAY - 1 ->
  Decoder.stop (decoder s) = false ->
  Decoder.op_code (decoder s) <> OpCode_value LOOP ->
  let s' := fst (cycle i s) in
  let o := snd (cycle i s) in
  let ts := Decoder.timeslice (decoder s) in
  fetch_step mem_payload s s' /\ same_control s s' /\
  PayloadExecutor.exec (PayloadExecutor.o_act o) = true /\
  PayloadExecutor.jump (PayloadExecutor.o_act o) = false /\
  PayloadExecutor.o_instruction o = PayloadExecutor.instruction s /\
  PayloadExecutor.next_fsm (PayloadExecutor.o_act o) = PayloadExecutor.fsm s' /\
  (ts <= 1 -> PayloadExecutor.fsm s' = PayloadExecutor.RUN) /\
  (1 < ts -> PayloadExecutor.fsm s' = PayloadExecutor.IDLE /\
             PayloadExecutor.idle_counter s' = ts - 2).
Proof.
  intros Hf Hpc Hstop Hop s' o ts.
  assert (Hterm : PayloadExecutor.terminate rankbits bankbits rowbits colbits s = false).
  { unfold PayloadExecutor.terminate, PayloadExecutor.mem_addr. fold decoder.
    rewrite Hstop. apply Z.eqb_neq in Hpc. rewrite Hpc. reflexivity. }
  assert (Hts : 0 <= ts < 2 ^ 29)
    by apply (decode_timeslice_range rankbits bankbits rowbits colbits
                (PayloadExecutor.instruction s)).
  subst s' o.
  unfold cycle, PayloadExecutor.cycle, PayloadExecutor.fsm_act,
    fetch_step, same_control, PayloadExecutor.mem_addr, PayloadExecutor.next_addr.
  fold decoder. rewrite Hf, Hterm.
  apply Z.eqb_neq in Hop. rewrite Hop.
  subst ts. clear Hstop Hop Hterm.
  remember (decoder s) as d eqn:Hd. clear Hd.
  destruct (Z.eqb_spec (Decoder.timeslice d) 0) as [E0|E0];
    [|destruct (Z.eqb_spec (Decoder.timeslice d) 1) as [E1|E1]];
    cbn; repeat split; intros; try reflexivity; try assumption; try lia.
  apply trunc_small; [cbv; discriminate|].
  change Decoder.TIMESLICE_NOOP with 29. lia.
Qed.

(** A RUN cycle on a LOOP with iterations left tells the fetcher to jump. *)
Lemma run_cycle_loop_back (i : PayloadExecutor.inputs) (s : PayloadExecutor.t) :
  PayloadExecutor.fsm s = PayloadExecutor.RUN ->
  Decoder.op_code (decoder s) = OpCode_value LOOP ->
  PayloadExecutor.loop_counter s <> Decoder.loop_count (decoder s) ->
  let s' := fst (cycle i s) in
  let o := snd (cycle i s) in
  PayloadExecutor.program_counter s' =
    Migen.trunc addr_width
      (PayloadExecutor.program_counter s - Decoder.loop_jump (decoder s)
       - PayloadExecutor.PIPELINE_DELAY) /\
  PayloadExecutor.program_counter_old s' = PayloadExecutor.program_counter s /\
  PayloadExecutor.instruction s' = PayloadExecutor.dat_r s /\
  PayloadExecutor.dat_r s' = mem_read (PayloadExecutor.program_counter s) /\
  PayloadExecutor.fsm s' = PayloadExecutor.BUBBLE /\
  PayloadExecutor.idle_counter s' = PayloadExecutor.PIPELINE_DELAY - 1 /\
  PayloadExecutor.loop_counter s' =
    Migen.trunc Decoder.LOOP_COUNT (PayloadExecutor.loop_counter s + 1) /\
  PayloadExecutor.wants_dfi s' = PayloadExecutor.wants_dfi s /\
  PayloadExecutor.exec (PayloadExecutor.o_act o) = false /\
  PayloadExecutor.jump (PayloadExecutor.o_act o) = true.
Proof.
  intros Hf Hop Hlc s' o.
  assert (Hterm : PayloadExecutor.terminate rankbits bankbits rowbits colbits s = false).
  { unfold PayloadExecutor.terminate. fold decoder. rewrite Hop.
    replace (Decoder.loop_count (decoder s) =? PayloadExecutor.loop_counter s) with false
      by (symmetry; apply Z.eqb_neq; congruence).
    apply andb_false_r. }
  subst s' o.
  unfold cycle, PayloadExecutor.cycle, PayloadExecutor.fsm_act,
    PayloadExecutor.mem_addr, PayloadExecutor.next_addr.
  fold decoder. rewrite Hf, Hterm, Hop.
  apply Z.eqb_neq in Hlc. rewrite Hlc.
  cbn. repeat split; reflexivity.
Qed.

(** A RUN cycle on a LOOP whose iterations are done falls through. *)
Lemma run_cycle_loop_exit (i : PayloadExecutor.inputs) (s : PayloadExecutor.t) :
  PayloadExecutor.fsm s = PayloadExecutor.RUN ->
  PayloadExecutor.program_counter s <> PayloadExecutor.PIPELINE_DELAY - 1 ->
  Decoder.op_code (decoder s) = OpCode_value LOOP ->
  PayloadExecutor.loop_counter s = Decoder.loop_count (decoder s) ->
  let s' := fst (cycle i s) in
  let o := snd (cycle i s) in
  fetch_step mem_payload s s' /\
  PayloadExecutor.fsm s' = PayloadExecutor.RUN /\
  PayloadExecutor.loop_counter s' = 0 /\
  PayloadExecutor.wants_dfi s' = PayloadExecutor.wants_dfi s /\
  quiet o.
Proof.
  intros Hf Hpc Hop Hlc s' o.
  assert (Hstop : Decoder.stop (decoder s) = false).
  { pose proof (decode_stop rankbits bankbits rowbits colbits
                  (PayloadExecutor.instruction s)) as E.
    change (Decoder.decode rankbits bankbits rowbits colbits
              (PayloadExecutor.instruction s)) with (decoder s) in E.
    rewrite E, Hop. reflexivity. }
  assert (Hterm : PayloadExecutor.terminate rankbits bankbits rowbits colbits s = false).
  { unfold PayloadExecutor.terminate, PayloadExecutor.mem_addr. fold decoder.
    rewrite Hstop. apply Z.eqb_neq in Hpc. rewrite Hpc. reflexivity. }
  subst s' o.
  unfold cycle, PayloadExecutor.cycle, PayloadExecutor.fsm_act, fetch_step, quiet,
    PayloadExecutor.mem_addr, PayloadExecutor.next_addr.
  fold decoder. rewrite Hf, Hterm, Hop.
  apply Z.eqb_eq in Hlc. rewrite Hlc.
  cbn. repeat split; try reflexivity; assumption.
Qed.

Lemma run_nil (s : PayloadExecutor.t) : run [] s = (s, []).
Proof.
  reflexivity.
Qed.

Lemma fetch_hold_trans (s1 s2 s3 : PayloadExecutor.t) :
  fetch_hold mem_payload s1 s2 -> fetch_hold mem_payload s2 s3 ->
  fetch_hold mem_payload s1 s3.
Proof.
  intros [A1 [A2 [A3 A4]]] [B1 [B2 [B3 B4]]]. unfold fetch_hold.
  rewrite B1, B2, B3, B4, A1, A2, A3. repeat split; reflexivity.
Qed.

Lemma same_control_trans (s1 s2 s3 : PayloadExecutor.t) :
  same_control s1 s2 -> same_control s2 s3 -> same_control s1 s3.
Proof.
  intros [A1 A2] [B1 B2]. unfold same_control. rewrite B1, B2, A1, A2.
  split; reflexivity.
Qed.

(** IDLE with [idle_counter = k] is left for RUN after exactly [k + 1]
    cycles, with the fetch pipeline as it was. *)
Lemma idle_countdown (k : nat) :
  forall (s : PayloadExecutor.t) (ins : list PayloadExecutor.inputs),
    PayloadExecutor.fsm s = PayloadExecutor.IDLE ->
    PayloadExecutor.idle_counter s = Z.of_nat k ->
    Z.of_nat k < 2 ^ 29 ->
    length ins = S k ->
    let s' := fst (run ins s) in
    let os := snd (run ins s) in
    PayloadExecutor.fsm s' = PayloadExecutor.RUN /\
    fetch_hold mem_payload s s' /\ same_control s s' /\
    PayloadExecutor.issued os = [] /\ PayloadExecutor.jumps os = 0%nat /\
    next_states os = repeat PayloadExecutor.IDLE k ++ [PayloadExecutor.RUN].
Proof.
  induction k as [|k IH]; intros s ins Hf Hc Hk Hlen;
    destruct ins as [|i ins]; try discriminate Hlen;
    injection Hlen as Hlen; rewrite run_cons; cbn [fst snd];
    destruct (idle_cycle i s Hf) as [Hh [Hsc [Hq [Hn [H0 H1]]]]].
  - destruct ins; [|discriminate Hlen]. rewrite run_nil. cbn [fst snd].
    rewrite issued_quiet, jumps_quiet by exact Hq.
    unfold next_states. cbn [map repeat app]. rewrite Hn, (H0 Hc).
    repeat split; try reflexivity; try apply Hh; apply Hsc.
  - destruct H1 as [Hf1 Hc1]; [lia|].
    assert (Hc1' : PayloadExecutor.idle_counter (fst (cycle i s)) = Z.of_nat k).
    { rewrite Hc1, Hc. rewrite trunc_small; [lia | cbv; discriminate |].
      change Decoder.TIMESLICE_NOOP with 29. lia. }
    destruct (IH (fst (cycle i s)) ins Hf1 Hc1' ltac:(lia) Hlen)
      as [Gf [Gh [Gsc [Gi [Gj Gn]]]]].
    rewrite issued_quiet, jumps_quiet by exact Hq.
    split; [exact Gf|]. split; [exact (fetch_hold_trans _ _ _ Hh Gh)|].
    split; [exact (same_control_trans _ _ _ Hsc Gsc)|].
    split; [exact Gi|]. split; [exact Gj|].
    unfold next_states in *. cbn [map repeat app]. rewrite Gn, Hn, Hf1. reflexivity.
Qed.

Lemma decoder_at (s : PayloadExecutor.t) (a : Z) :
  fetch_at mem_payload s a ->
  decoder s = Decoder.decode rankbits bankbits rowbits colbits (mem_read a).
Proof.
  intros [Hi _]. unfold decoder, PayloadExecutor.decoder. rewrite Hi. reflexivity.
Qed.

(** From RUN on a plain word at [a] to RUN at [a + 1], in as many cycles as
    the word's timeslice says, with the word issued once. *)
Lemma exec_plain (s : PayloadExecutor.t) (a : Z) (ins : list PayloadExecutor.inputs) :
  run_at mem_payload s a ->
  plain rankbits bankbits rowbits colbits (mem_read a) ->
  0 <= a -> a + 3 < 2 ^ addr_width ->
  Z.of_nat (length ins) = cycles_of rankbits bankbits rowbits colbits (mem_read a) ->
  let s' := fst (run ins s) in
  let os := snd (run ins s) in
  run_at mem_payload s' (a + 1) /\ same_control s s' /\
  PayloadExecutor.issued os = [mem_read a] /\ PayloadExecutor.jumps os = 0%nat.
Proof.
  intros [Hf Hat] [Hop Hstop] Ha Hw Hlen.
  pose proof (decoder_at s a Hat) as Hd.
  unfold cycles_of in Hlen. rewrite <- Hd in Hop, Hstop, Hlen.
  destruct ins as [|i ins]; [cbn in Hlen; lia|].
  rewrite run_cons. cbn [fst snd].
  assert (Hpc : PayloadExecutor.program_counter s <> PayloadExecutor.PIPELINE_DELAY - 1).
  { destruct Hat as [_ [_ [Hp _]]]. rewrite Hp. unfold PayloadExecutor.PIPELINE_DELAY. lia. }
  destruct (run_cycle_plain i s Hf Hpc Hstop Hop)
    as [Hs [Hsc [He [Hj [Hi [Hn [Hshort Hlong]]]]]]].
  pose proof (fetch_at_step s _ a Hat Hs Ha Hw) as Hat1.
  assert (Hiss : forall os, PayloadExecutor.issued (snd (cycle i s) :: os)
                            = mem_read a :: PayloadExecutor.issued os).
  { intros os. unfold PayloadExecutor.issued. cbn [filter]. rewrite He.
    cbn [map]. rewrite Hi. destruct Hat as [Hins _]. rewrite Hins. reflexivity. }
  assert (Hjmp : forall os, PayloadExecutor.jumps (snd (cycle i s) :: os)
                            = PayloadExecutor.jumps os).
  { intros os. unfold PayloadExecutor.jumps. cbn [filter]. rewrite Hj. reflexivity. }
  rewrite Hiss, Hjmp.
  destruct (Z_le_gt_dec (Decoder.timeslice (decoder s)) 1) as [Hle|Hgt].
  - assert (ins = []) by (destruct ins; [reflexivity | cbn [length] in Hlen; lia]).
    subst ins. rewrite run_nil. cbn [fst snd].
    split; [split; [exact (Hshort Hle) | exact Hat1]|].
    split; [exact Hsc|]. split; reflexivity.
  - destruct Hlong as [Hf1 Hc1]; [lia|].
    pose proof (decode_timeslice_range rankbits bankbits rowbits colbits
                  (PayloadExecutor.instruction s)) as Hts.
    change (Decoder.decode rankbits bankbits rowbits colbits
              (PayloadExecutor.instruction s)) with (decoder s) in Hts.
    destruct (idle_countdown (Z.to_nat (Decoder.timeslice (decoder s) - 2))
                (fst (cycle i s)) ins Hf1)
      as [Gf [Gh [Gsc [Gi [Gj _]]]]].
    + rewrite Hc1. lia.
    + lia.
    + cbn [length] in Hlen. lia.
    + split; [split; [exact Gf | exact (fetch_at_hold _ _ _ Hat1 Gh)]|].
      split; [exact (same_control_trans _ _ _ Hsc Gsc)|].
      rewrite Gi, Gj. split; reflexivity.
Qed.

Lemma dfi_timeslice_5_bits (s : PayloadExecutor.t) :
  Decoder.op_code (decoder s) <> OpCode_value NOOP ->
  0 <= Decoder.timeslice (decoder s) < 2 ^ 5 /\ Decoder.stop (decoder s) = false.
Proof.
  unfold decoder, PayloadExecutor.decoder.
  rewrite decode_stop, decode_timeslice, decode_op_code. cbn [OpCode_value].
  intros Hop. apply Z.eqb_neq in Hop. rewrite Hop. split; [|reflexivity].
  apply Z.mod_pos_bound. lia.
Qed.

(** C9: a RUN cycle that executes an instruction other than NOOP and LOOP
    stays in RUN when the decoded 5-bit timeslice is 0 or 1, so the instruction
    takes one cycle; with a timeslice [T >= 2] it loads [idle_counter] with
    [T - 2], waits in IDLE and is back in RUN after exactly [T] cycles. *)
Theorem C9_timeslice (s : PayloadExecutor.t) :
  PayloadExecutor.fsm s = PayloadExecutor.RUN ->
  Decoder.op_code (decoder s) <> OpCode_value NOOP ->
  Decoder.op_code (decoder s) <> OpCode_value LOOP ->
  PayloadExecutor.program_counter s <> PayloadExecutor.PIPELINE_DELAY - 1 ->
  let T := Decoder.timeslice (decoder s) in
  0 <= T < 2 ^ 5 /\
  (T <= 1 ->
   forall i,
     PayloadExecutor.fsm (fst (cycle i s)) = PayloadExecutor.RUN /\
     PayloadExecutor.exec (PayloadExecutor.o_act (snd (cycle i s))) = true) /\
  (2 <= T ->
   (forall i,
      PayloadExecutor.fsm (fst (cycle i s)) = PayloadExecutor.IDLE /\
      PayloadExecutor.idle_counter (fst (cycle i s)) = T - 2 /\
      PayloadExecutor.exec (PayloadExecutor.o_act (snd (cycle i s))) = true) /\
   (forall ins,
      Z.of_nat (length ins) = T ->
      PayloadExecutor.fsm (fst (run ins s)) = PayloadExecutor.RUN /\
      next_states (snd (run ins s)) =
        repeat PayloadExecutor.IDLE (Z.to_nat (T - 1)) ++ [PayloadExecutor.RUN] /\
      PayloadExecutor.issued (snd (run ins s)) = [PayloadExecutor.instruction s])).
Proof.
  intros Hf Hnoop Hloop Hpc T.
  destruct (dfi_timeslice_5_bits s Hnoop) as [HT Hstop]. fold T in HT.
  split; [exact HT|]. split.
  - intros Hle i.
    destruct (run_cycle_plain i s Hf Hpc Hstop Hloop) as [_ [_ [He [_ [_ [_ [Hshort _]]]]]]].
    split; [exact (Hshort Hle) | exact He].
  - intros Hge. split.
    + intros i.
      destruct (run_cycle_plain i s Hf Hpc Hstop Hloop) as [_ [_ [He [_ [_ [_ [_ Hlong]]]]]]].
      destruct Hlong as [Hf1 Hc1]; [fold T; lia|].
      split; [exact Hf1|]. split; [exact Hc1 | exact He].
    + intros ins Hlen. destruct ins as [|i ins]; [cbn [length Z.of_nat] in Hlen; lia|].
      rewrite run_cons. cbn [fst snd].
      destruct (run_cycle_plain i s Hf Hpc Hstop Hloop)
        as [_ [_ [He [_ [Hi [Hn [_ Hlong]]]]]]].
      destruct Hlong as [Hf1 Hc1]; [fold T; lia|]. fold T in Hc1.
      destruct (idle_countdown (Z.to_nat (T - 2)) (fst (cycle i s)) ins Hf1)
        as [Gf [_ [_ [Gi [_ Gn]]]]].
      * rewrite Hc1. lia.
      * change (2 ^ 5) with 32 in HT. change (2 ^ 29) with 536870912. lia.
      * cbn [length] in Hlen. lia.
      * split; [exact Gf|]. split.
        -- unfold next_states in *. cbn [map]. rewrite Gn, Hn, Hf1.
           replace (Z.to_nat (T - 1)) with (S (Z.to_nat (T - 2))) by lia.
           reflexivity.
        -- unfold PayloadExecutor.issued in *. cbn [filter]. rewrite He.
           cbn [map]. rewrite Gi, Hi. reflexivity.
Qed.

(** ** Executor: blocks and loops *)

Lemma split_inputs (ins : list PayloadExecutor.inputs) (n m : nat) :
  length ins = (n + m)%nat ->
  exists ins1 ins2, ins = ins1 ++ ins2 /\ length ins1 = n /\ length ins2 = m.
Proof.
  intros H. exists (firstn n ins), (skipn n ins).
  split; [symmetry; apply firstn_skipn|].
  rewrite length_firstn, length_skipn. lia.
Qed.

Lemma block_S (a : Z) (n : nat) :
  block mem_payload a (S n) = mem_read a :: block mem_payload (a + 1) n.
Proof.
  unfold block, mem_read. cbn [seq map]. rewrite <- seq_shift, map_map.
  f_equal; [f_equal; lia|].
  apply map_ext. intros k. f_equal. lia.
Qed.

Lemma cycles_of_pos (w : Z) : 1 <= cycles_of rankbits bankbits rowbits colbits w.
Proof.
  unfold cycles_of. lia.
Qed.

Lemma block_cycles_S (a : Z) (n : nat) :
  block_cycles mem_payload rankbits bankbits rowbits colbits a (S n) =
  cycles_of rankbits bankbits rowbits colbits (mem_read a)
  + block_cycles mem_payload rankbits bankbits rowbits colbits (a + 1) n.
Proof.
  unfold block_cycles. rewrite block_S. reflexivity.
Qed.

Lemma block_cycles_nonneg (n : nat) :
  forall a, 0 <= block_cycles mem_payload rankbits bankbits rowbits colbits a n.
Proof.
  induction n as [|n IH]; intros a.
  - cbn. lia.
  - rewrite block_cycles_S. pose proof (IH (a + 1)).
    pose proof (cycles_of_pos (mem_read a)). lia.
Qed.

(** A block of plain words is issued word by word, in order. *)
Lemma exec_block (n : nat) :
  forall (a : Z) (s : PayloadExecutor.t) (ins : list PayloadExecutor.inputs),
    run_at mem_payload s a ->
    (forall k, (k < n)%nat ->
               plain rankbits bankbits rowbits colbits (mem_read (a + Z.of_nat k))) ->
    0 <= a -> a + Z.of_nat n + 2 < 2 ^ addr_width ->
    Z.of_nat (length ins) = block_cycles mem_payload rankbits bankbits rowbits colbits a n ->
    let s' := fst (run ins s) in
    let os := snd (run ins s) in
    run_at mem_payload s' (a + Z.of_nat n) /\ same_control s s' /\
    PayloadExecutor.issued os = block mem_payload a n /\
    PayloadExecutor.jumps os = 0%nat.
Proof.
  induction n as [|n IH]; intros a s ins Hat Hplain Ha Hw Hlen.
  - destruct ins; [|cbn in Hlen; lia]. rewrite run_nil. cbn [fst snd].
    rewrite Z.add_0_r. repeat split; try reflexivity; apply Hat.
  - rewrite block_cycles_S in Hlen.
    pose proof (cycles_of_pos (mem_read a)) as Hc.
    pose proof (block_cycles_nonneg n (a + 1)) as Hb.
    destruct (split_inputs ins
                (Z.to_nat (cycles_of rankbits bankbits rowbits colbits (mem_read a)))
                (Z.to_nat (block_cycles mem_payload rankbits bankbits rowbits colbits (a + 1) n)))
      as [ins1 [ins2 [Hins [Hl1 Hl2]]]]; [lia|].
    subst ins. rewrite run_app. cbn [fst snd].
    assert (Hp0 : plain rankbits bankbits rowbits colbits (mem_read a)).
    { specialize (Hplain 0%nat ltac:(lia)). rewrite Z.add_0_r in Hplain. exact Hplain. }
    destruct (exec_plain s a ins1 Hat Hp0 Ha ltac:(lia) ltac:(lia))
      as [Hat1 [Hsc1 [Hi1 Hj1]]].
    destruct (IH (a + 1) (fst (run ins1 s)) ins2 Hat1) as [Hat2 [Hsc2 [Hi2 Hj2]]].
    + intros k Hk. specialize (Hplain (S k) ltac:(lia)).
      replace (a + 1 + Z.of_nat k) with (a + Z.of_nat (S k)) by lia. exact Hplain.
    + lia.
    + lia.
    + lia.
    + rewrite issued_app, jumps_app, Hi1, Hj1, Hi2, Hj2, block_S.
      replace (a + Z.of_nat (S n)) with (a + 1 + Z.of_nat n) by lia.
      split; [exact Hat2|]. split; [exact (same_control_trans _ _ _ Hsc1 Hsc2)|].
      split; reflexivity.
Qed.

(** The three cycles of a backward branch: RUN on the LOOP, two BUBBLEs. *)
Lemma loop_back (s : PayloadExecutor.t) (l count jump : Z)
      (ins : list PayloadExecutor.inputs) :
  run_at mem_payload s l ->
  loop_at mem_payload rankbits bankbits rowbits colbits l count jump ->
  0 <= PayloadExecutor.loop_counter s < count ->
  jump <= l -> l + 3 < 2 ^ addr_width ->
  length ins = 3%nat ->
  let s' := fst (run ins s) in
  let os := snd (run ins s) in
  run_at mem_payload s' (l - jump) /\
  PayloadExecutor.loop_counter s' = PayloadExecutor.loop_counter s + 1 /\
  PayloadExecutor.wants_dfi s' = PayloadExecutor.wants_dfi s /\
  PayloadExecutor.issued os = [] /\ PayloadExecutor.jumps os = 1%nat /\
  PayloadExecutor.program_counter (fst (cycle (hd (PayloadExecutor.mk_inputs false false) ins) s))
  = PayloadExecutor.program_counter s - jump - PayloadExecutor.PIPELINE_DELAY.
Proof.
  intros [Hf Hat] [Hop [Hcnt Hjmp]] Hlc Hjl Hw Hlen.
  pose proof (decoder_at s l Hat) as Hd. unfold mem_read in Hd.
  rewrite <- Hd in Hop, Hcnt, Hjmp.
  pose proof (decode_loop_count_range rankbits bankbits rowbits colbits
                (PayloadExecutor.instruction s)) as Hcr.
  change (Decoder.decode rankbits bankbits rowbits colbits
            (PayloadExecutor.instruction s)) with (decoder s) in Hcr.
  rewrite Hcnt in Hcr.
  assert (Hj0 : 0 <= jump).
  { rewrite <- Hjmp. unfold decoder, PayloadExecutor.decoder.
    rewrite decode_loop_jump. apply Z.mod_pos_bound. lia. }
  pose proof addr_width_nonneg as Hwn.
  destruct ins as [|i1 [|i2 [|i3 [|]]]]; try discriminate Hlen. clear Hlen.
  rewrite !run_cons, run_nil. cbn [fst snd hd].
  destruct Hat as [Hi [Hdr [Hp Ho]]].
  destruct (run_cycle_loop_back i1 s Hf Hop ltac:(lia))
    as [P1 [O1 [I1 [D1 [F1 [C1 [L1 [W1 [E1 J1]]]]]]]]].
  rewrite Hjmp, Hp in P1.
  rewrite trunc_small in P1 by (unfold PayloadExecutor.PIPELINE_DELAY; lia).
  remember (fst (cycle i1 s)) as s1 eqn:Hs1.
  remember (snd (cycle i1 s)) as o1 eqn:Ho1.
  destruct (bubble_cycle i2 s1 F1) as [[P2 [O2 [I2 D2]]] [[SL2 SW2] [Q2 [_ [_ B2]]]]].
  destruct B2 as [F2 C2]; [rewrite C1; unfold PayloadExecutor.PIPELINE_DELAY; lia|].
  rewrite C1 in C2. change (Migen.trunc Decoder.TIMESLICE_NOOP
                              (PayloadExecutor.PIPELINE_DELAY - 1 - 1)) with 0 in C2.
  fold addr_width in P2. rewrite P1 in P2, D2.
  rewrite trunc_small in P2 by (unfold PayloadExecutor.PIPELINE_DELAY in *; lia).
  remember (fst (cycle i2 s1)) as s2 eqn:Hs2.
  remember (snd (cycle i2 s1)) as o2 eqn:Ho2.
  destruct (bubble_cycle i3 s2 F2) as [[P3 [O3 [I3 D3]]] [[SL3 SW3] [Q3 [_ [B3 _]]]]].
  specialize (B3 C2).
  fold addr_width in P3. rewrite P2 in P3, D3, O3.
  rewrite trunc_small in P3 by (unfold PayloadExecutor.PIPELINE_DELAY in *; lia).
  destruct Q2 as [QE2 QJ2]. destruct Q3 as [QE3 QJ3].
  unfold PayloadExecutor.PIPELINE_DELAY in *.
  split.
  - split; [exact B3|]. unfold fetch_at.
    rewrite I3, D2, D3, P3, O3. unfold mem_read.
    repeat split; try lia; f_equal; lia.
  - split.
    + rewrite SL3, SL2, L1. apply trunc_small; [cbv; discriminate|].
      change Decoder.LOOP_COUNT with 12. lia.
    + split; [rewrite SW3, SW2, W1; reflexivity|].
      split; [unfold PayloadExecutor.issued; cbn [filter];
              rewrite E1, QE2, QE3; reflexivity|].
      split; [unfold PayloadExecutor.jumps; cbn [filter];
              rewrite J1, QJ2, QJ3; reflexivity|].
      rewrite P1. lia.
Qed.

Lemma loop_at_ranges (l count jump : Z) :
  loop_at mem_payload rankbits bankbits rowbits colbits l count jump ->
  0 <= count < 2 ^ 12 /\ 0 <= jump < 2 ^ 17.
Proof.
  intros [_ [Hc Hj]]. rewrite <- Hc, <- Hj.
  rewrite decode_loop_count, decode_loop_jump.
  split; apply Z.mod_pos_bound; lia.
Qed.

(** The cycle in which a finished LOOP falls through. *)
Lemma loop_exit (s : PayloadExecutor.t) (l count jump : Z) (i : PayloadExecutor.inputs) :
  run_at mem_payload s l ->
  loop_at mem_payload rankbits bankbits rowbits colbits l count jump ->
  PayloadExecutor.loop_counter s = count ->
  0 <= l -> l + 3 < 2 ^ addr_width ->
  let s' := fst (cycle i s) in
  let o := snd (cycle i s) in
  run_at mem_payload s' (l + 1) /\
  PayloadExecutor.loop_counter s' = 0 /\
  PayloadExecutor.wants_dfi s' = PayloadExecutor.wants_dfi s /\
  quiet o.
Proof.
  intros [Hf Hat] [Hop [Hcnt Hjmp]] Hlc Hl Hw.
  pose proof (decoder_at s l Hat) as Hd. unfold mem_read in Hd.
  rewrite <- Hd in Hop, Hcnt.
  assert (Hpc : PayloadExecutor.program_counter s <> PayloadExecutor.PIPELINE_DELAY - 1).
  { destruct Hat as [_ [_ [Hp _]]]. rewrite Hp. unfold PayloadExecutor.PIPELINE_DELAY. lia. }
  destruct (run_cycle_loop_exit i s Hf Hpc Hop ltac:(congruence))
    as [Hs [Hf1 [Hl1 [Hw1 Hq]]]].
  split; [split; [exact Hf1 | exact (fetch_at_step s _ l Hat Hs Hl Hw)]|].
  split; [exact Hl1|]. split; [exact Hw1 | exact Hq].
Qed.

(** From RUN on a LOOP with [m] iterations left: [m] times the branch and the
    block before the LOOP, then the fall through. *)
Lemma loop_iterations (l count jump : Z) (m : nat) :
  forall (s : PayloadExecutor.t) (ins : list PayloadExecutor.inputs),
    run_at mem_payload s l ->
    loop_at mem_payload rankbits bankbits rowbits colbits l count jump ->
    (forall k, (k < Z.to_nat jump)%nat ->
               plain rankbits bankbits rowbits colbits (mem_read (l - jump + Z.of_nat k))) ->
    0 <= PayloadExecutor.loop_counter s ->
    PayloadExecutor.loop_counter s + Z.of_nat m = count ->
    jump <= l -> l + 3 < 2 ^ addr_width ->
    Z.of_nat (length ins) =
      Z.of_nat m * (3 + block_cycles mem_payload rankbits bankbits rowbits colbits
                          (l - jump) (Z.to_nat jump)) + 1 ->
    let s' := fst (run ins s) in
    let os := snd (run ins s) in
    run_at mem_payload s' (l + 1) /\
    PayloadExecutor.loop_counter s' = 0 /\
    PayloadExecutor.wants_dfi s' = PayloadExecutor.wants_dfi s /\
    PayloadExecutor.issued os =
      concat (repeat (block mem_payload (l - jump) (Z.to_nat jump)) m) /\
    PayloadExecutor.jumps os = m.
Proof.
  induction m as [|m IH]; intros s ins Hat Hloop Hplain Hc0 Hcm Hjl Hw Hlen;
    destruct (loop_at_ranges l count jump Hloop) as [Hcr Hjr].
  - destruct ins as [|i [|]]; try (cbn [length] in Hlen; lia).
    rewrite run_cons, run_nil. cbn [fst snd].
    destruct (loop_exit s l count jump i Hat Hloop ltac:(lia) ltac:(lia) Hw)
      as [Hat1 [Hl1 [Hw1 Hq]]].
    rewrite issued_quiet, jumps_quiet by exact Hq.
    repeat split; try assumption; try reflexivity; apply Hat1.
  - pose proof (block_cycles_nonneg (Z.to_nat jump) (l - jump)) as Hb.
    set (bc := block_cycles mem_payload rankbits bankbits rowbits colbits
                 (l - jump) (Z.to_nat jump)) in *.
    destruct (split_inputs ins 3 (Z.to_nat bc + (m * Z.to_nat (3 + bc) + 1)))
      as [ins1 [ins23 [Hins [Hl1 Hl23]]]]; [nia|].
    destruct (split_inputs ins23 (Z.to_nat bc) (m * Z.to_nat (3 + bc) + 1))
      as [ins2 [ins3 [Hins' [Hl2 Hl3]]]]; [lia|].
    subst ins ins23. rewrite !run_app. cbn [fst snd].
    destruct (loop_back s l count jump ins1 Hat Hloop ltac:(lia) Hjl Hw Hl1)
      as [Hat1 [Hc1 [Hw1 [Hi1 [Hj1 _]]]]].
    remember (fst (run ins1 s)) as s1 eqn:Hs1.
    destruct (exec_block (Z.to_nat jump) (l - jump) s1 ins2 Hat1 Hplain)
      as [Hat2 [[Hc2 Hw2] [Hi2 Hj2]]]; [lia | lia | fold bc; lia |].
    rewrite Z2Nat.id in Hat2 by lia.
    replace (l - jump + jump) with l in Hat2 by lia.
    remember (fst (run ins2 s1)) as s2 eqn:Hs2.
    destruct (IH s2 ins3 Hat2 Hloop Hplain) as [Hat3 [Hc3 [Hw3 [Hi3 Hj3]]]];
      [lia | lia | exact Hjl | exact Hw | fold bc; nia |].
    split; [exact Hat3|]. split; [exact Hc3|].
    split; [rewrite Hw3, Hw2, Hw1; reflexivity|].
    rewrite !issued_app, !jumps_app, Hi1, Hi2, Hi3, Hj1, Hj2, Hj3.
    cbn [repeat concat app]. split; [reflexivity | lia].
Qed.

(** C4 (as amended): when a LOOP with count [N] and jump [J] is reached in
    RUN with [loop_counter = 0], the block of [J] instructions immediately
    before it (plain words) is executed [N + 1] times in total: the backward
    branch is taken [N] times, the fetcher computing the target as
    [pc - J - PIPELINE_DELAY], which is the address of the LOOP minus [J]; a
    LOOP with count 0 takes no branch and falls through. *)
Theorem C4_loop (l N J : Z) :
  loop_at mem_payload rankbits bankbits rowbits colbits l N J ->
  (forall k, (k < Z.to_nat J)%nat ->
             plain rankbits bankbits rowbits colbits (mem_read (l - J + Z.of_nat k))) ->
  J <= l -> l + 3 < 2 ^ addr_width ->
  let body := block mem_payload (l - J) (Z.to_nat J) in
  let bc := block_cycles mem_payload rankbits bankbits rowbits colbits (l - J) (Z.to_nat J) in
  (forall s ins,
     run_at mem_payload s (l - J) -> PayloadExecutor.loop_counter s = 0 ->
     Z.of_nat (length ins) = (N + 1) * bc + 3 * N + 1 ->
     run_at mem_payload (fst (run ins s)) (l + 1) /\
     PayloadExecutor.loop_counter (fst (run ins s)) = 0 /\
     PayloadExecutor.issued (snd (run ins s)) = concat (repeat body (S (Z.to_nat N))) /\
     PayloadExecutor.jumps (snd (run ins s)) = Z.to_nat N) /\
  (forall s ins,
     run_at mem_payload s l -> PayloadExecutor.loop_counter s = 0 ->
     Z.of_nat (length ins) = N * (3 + bc) + 1 ->
     run_at mem_payload (fst (run ins s)) (l + 1) /\
     PayloadExecutor.loop_counter (fst (run ins s)) = 0 /\
     PayloadExecutor.issued (snd (run ins s)) = concat (repeat body (Z.to_nat N)) /\
     PayloadExecutor.jumps (snd (run ins s)) = Z.to_nat N) /\
  (forall s i,
     run_at mem_payload s l -> PayloadExecutor.loop_counter s <> N ->
     PayloadExecutor.jump (PayloadExecutor.o_act (snd (cycle i s))) = true /\
     PayloadExecutor.program_counter (fst (cycle i s)) =
       PayloadExecutor.program_counter s - J - PayloadExecutor.PIPELINE_DELAY /\
     PayloadExecutor.program_counter (fst (cycle i s)) = l - J) /\
  (N = 0 ->
   forall s i,
     run_at mem_payload s l -> PayloadExecutor.loop_counter s = 0 ->
     PayloadExecutor.jump (PayloadExecutor.o_act (snd (cycle i s))) = false /\
     run_at mem_payload (fst (cycle i s)) (l + 1)).
Proof.
  intros Hloop Hplain HJl Hw body bc.
  destruct (loop_at_ranges l N J Hloop) as [HN HJ].
  pose proof (block_cycles_nonneg (Z.to_nat J) (l - J)) as Hb. fold bc in Hb.
  assert (Hfrom_loop :
    forall s ins,
      run_at mem_payload s l -> PayloadExecutor.loop_counter s = 0 ->
      Z.of_nat (length ins) = N * (3 + bc) + 1 ->
      run_at mem_payload (fst (run ins s)) (l + 1) /\
      PayloadExecutor.loop_counter (fst (run ins s)) = 0 /\
      PayloadExecutor.issued (snd (run ins s)) = concat (repeat body (Z.to_nat N)) /\
      PayloadExecutor.jumps (snd (run ins s)) = Z.to_nat N).
  { intros s ins Hat Hc Hlen.
    destruct (loop_iterations l N J (Z.to_nat N) s ins Hat Hloop Hplain)
      as [H1 [H2 [_ [H3 H4]]]];
      [lia | lia | exact HJl | exact Hw
       | fold bc; rewrite Z2Nat.id by lia; exact Hlen |].
    split; [exact H1|]. split; [exact H2|]. split; [exact H3 | exact H4]. }
  split; [|split; [exact Hfrom_loop|split]].
  - intros s ins Hat Hc Hlen.
    destruct (split_inputs ins (Z.to_nat bc) (Z.to_nat (N * (3 + bc) + 1)))
      as [ins1 [ins2 [Hins [Hl1 Hl2]]]]; [nia|].
    subst ins. rewrite run_app. cbn [fst snd].
    destruct (exec_block (Z.to_nat J) (l - J) s ins1 Hat Hplain)
      as [Hat1 [[Hc1 _] [Hi1 Hj1]]]; [lia | lia | fold bc; lia |].
    rewrite Z2Nat.id in Hat1 by lia.
    replace (l - J + J) with l in Hat1 by lia.
    destruct (Hfrom_loop (fst (run ins1 s)) ins2 Hat1) as [G1 [G2 [G3 G4]]];
      [rewrite Hc1; exact Hc | nia |].
    split; [exact G1|]. split; [exact G2|].
    rewrite issued_app, jumps_app, Hi1, Hj1, G3, G4. split; reflexivity.
  - intros s i [Hf Hat] Hc.
    destruct Hloop as [Hop [Hcnt Hjmp]].
    pose proof (decoder_at s l Hat) as Hd. unfold mem_read in Hd.
    rewrite <- Hd in Hop, Hcnt, Hjmp.
    destruct (run_cycle_loop_back i s Hf Hop ltac:(congruence))
      as [P1 [_ [_ [_ [_ [_ [_ [_ [_ J1]]]]]]]]].
    destruct Hat as [_ [_ [Hp _]]].
    rewrite Hjmp in P1. rewrite P1, Hp.
    rewrite trunc_small
      by (try apply addr_width_nonneg; unfold PayloadExecutor.PIPELINE_DELAY; lia).
    unfold PayloadExecutor.PIPELINE_DELAY.
    split; [exact J1|]. split; [reflexivity | lia].
  - intros HN0 s i Hat Hc.
    destruct (loop_exit s l N J i Hat Hloop ltac:(lia) ltac:(lia) Hw)
      as [Hat1 [_ [_ [_ Hq]]]].
    split; [exact Hq | exact Hat1].
Qed.

End ExecutorProperties.

(** ** The executor on concrete programs *)

Lemma loop_program_loop_at :
  loop_at loop_program 0 4 16 10 2 1 1.
Proof.
  repeat split; reflexivity.
Defined.

Lemma loop_program_plain (k : nat) :
  (k < Z.to_nat 1)%nat ->
  plain 0 4 16 10 (PayloadExecutor.mem_read loop_program (2 - 1 + Z.of_nat k)).
Proof.
  intros Hk. destruct k as [|k].
  - split; [vm_compute; discriminate | reflexivity].
  - exfalso. change (Z.to_nat 1) with 1%nat in Hk. lia.
Defined.

(** With count 1 and jump 1 the PRE before the LOOP is issued twice. *)
Lemma C4_loop_witness :
  run_at loop_program
    (fst (PayloadExecutor.run loop_program 0 4 16 10 1 (silent 6) (running loop_program 1 0)))
    (2 + 1) /\
  PayloadExecutor.loop_counter
    (fst (PayloadExecutor.run loop_program 0 4 16 10 1 (silent 6) (running loop_program 1 0)))
  = 0 /\
  PayloadExecutor.issued
    (snd (PayloadExecutor.run loop_program 0 4 16 10 1 (silent 6) (running loop_program 1 0)))
  = concat (repeat (block loop_program (2 - 1) (Z.to_nat 1)) (S (Z.to_nat 1))) /\
  PayloadExecutor.jumps
    (snd (PayloadExecutor.run loop_program 0 4 16 10 1 (silent 6) (running loop_program 1 0)))
  = Z.to_nat 1.
Proof.
  apply (proj1 (C4_loop loop_program 0 4 16 10 1 2 1 1
                  loop_program_loop_at loop_program_plain
                  ltac:(lia) ltac:(vm_compute; reflexivity))
           (running loop_program 1 0) (silent 6)).
  - repeat split; reflexivity.
  - reflexivity.
  - reflexivity.
Defined.

(** The program ACT, PRE, LOOP(count=1, jump=1), STOP issues ACT once and PRE
    twice: the two words before the LOOP are not both repeated. *)
Lemma C4_jump_1_repeats_one_word :
  Encoder.encode ACT (dfi_kwargs 1 (Some 8)) = Ok [2060] /\
  Encoder.encode PRE (dfi_kwargs 1 (Some 16)) = Ok [4109] /\
  Encoder.encode LOOP (loop_kwargs 1 1) = Ok [32783] /\
  PayloadExecutor.fsm
    (fst (PayloadExecutor.run loop_program 0 4 16 10 1 (started 14) PayloadExecutor.init))
  = PayloadExecutor.READY /\
  PayloadExecutor.issued
    (snd (PayloadExecutor.run loop_program 0 4 16 10 1 (started 14) PayloadExecutor.init))
  = [2060; 4109; 4109] /\
  PayloadExecutor.issued
    (snd (PayloadExecutor.run loop_program 0 4 16 10 1 (started 14) PayloadExecutor.init))
  <> [2060; 4109; 2060; 4109] /\
  PayloadExecutor.jumps
    (snd (PayloadExecutor.run loop_program 0 4 16 10 1 (started 14) PayloadExecutor.init))
  = 1%nat.
Proof.
  repeat split; try reflexivity.
  vm_compute. discriminate.
Qed.

(** STOP met with [loop_counter = 5] ends the run. *)
Lemma C5_run_exit_witness :
  PayloadExecutor.fsm
    (fst (PayloadExecutor.cycle loop_program 0 4 16 10 1
            (PayloadExecutor.mk_inputs false false) (running loop_program 3 5)))
  = PayloadExecutor.READY /\
  PayloadExecutor.wants_dfi
    (fst (PayloadExecutor.cycle loop_program 0 4 16 10 1
            (PayloadExecutor.mk_inputs false false) (running loop_program 3 5)))
  = false.
Proof.
  apply (proj2 (proj2 (proj2 (C5_run_exit loop_program 0 4 16 10 1
                                (PayloadExecutor.mk_inputs false false)
                                (running loop_program 3 5) eq_refl)))).
  reflexivity.
Defined.

(** ACT with timeslice 4: three IDLE cycles after the RUN cycle. *)
Lemma C9_timeslice_witness :
  PayloadExecutor.fsm
    (fst (PayloadExecutor.run act_program 0 4 16 10 1 (silent 4) (running act_program 0 0)))
  = PayloadExecutor.RUN /\
  next_states
    (snd (PayloadExecutor.run act_program 0 4 16 10 1 (silent 4) (running act_program 0 0)))
  = repeat PayloadExecutor.IDLE (Z.to_nat (4 - 1)) ++ [PayloadExecutor.RUN] /\
  PayloadExecutor.issued
    (snd (PayloadExecutor.run act_program 0 4 16 10 1 (silent 4) (running act_program 0 0)))
  = [1060].
Proof.
  apply (proj2 (proj2 (proj2 (C9_timeslice act_program 0 4 16 10 1
                                (running act_program 0 0) eq_refl
                                ltac:(vm_compute; discriminate)
                                ltac:(vm_compute; discriminate)
                                ltac:(vm_compute; discriminate)))
           ltac:(vm_compute; discriminate)) (silent 4)).
  reflexivity.
Defined.

(** ** Scratchpad *)

Lemma bits_for_nonneg (n : Z) : 0 <= Migen.bits_for n.
Proof.
  unfold Migen.bits_for. destruct (0 <? n).
  - apply Z.log2_up_nonneg.
  - pose proof (Z.log2_up_nonneg (- n)). lia.
Qed.

(** The executor resets the scratchpad in WAIT-DFI and in no other state. *)
Lemma scratchpad_reset_in_wait_dfi
      (rankbits bankbits rowbits colbits rdphase : Z)
      (i : PayloadExecutor.inputs) (s : PayloadExecutor.t) :
  PayloadExecutor.scratchpad_reset
    (PayloadExecutor.fsm_act rankbits bankbits rowbits colbits rdphase i s) = true <->
  PayloadExecutor.fsm s = PayloadExecutor.WAIT_DFI.
Proof.
  unfold PayloadExecutor.fsm_act.
  destruct (PayloadExecutor.fsm s);
    repeat match goal with |- context [if ?c then _ else _] => destruct c end;
    cbn; split; intros H; try discriminate H; reflexivity.
Qed.

(** When the counter register can hold [depth - 1], the cursor moves only in
    a cycle with a write strobe, by one, wrapping from [depth - 1] to 0 with
    the overflow flag set; the flag stays until reset, which clears both. *)
Theorem scratchpad_cursor (depth : Z) (reset : bool) (dfi : list Scratchpad.rdphase)
        (s : Scratchpad.t) :
  depth - 1 < 2 ^ Scratchpad.counter_width depth ->
  0 <= Scratchpad.counter s <= depth - 1 ->
  let s' := Scratchpad.step depth reset dfi s in
  (reset = true -> Scratchpad.counter s' = 0 /\ Scratchpad.overflow s' = false) /\
  (reset = false -> Scratchpad.write_strobe s = false ->
   Scratchpad.counter s' = Scratchpad.counter s /\
   Scratchpad.overflow s' = Scratchpad.overflow s) /\
  (reset = false -> Scratchpad.write_strobe s = true ->
   Scratchpad.counter s <> depth - 1 ->
   Scratchpad.counter s' = Scratchpad.counter s + 1 /\
   Scratchpad.overflow s' = Scratchpad.overflow s) /\
  (reset = false -> Scratchpad.write_strobe s = true ->
   Scratchpad.counter s = depth - 1 ->
   Scratchpad.counter s' = 0 /\ Scratchpad.overflow s' = true) /\
  (reset = false -> Scratchpad.overflow s = true -> Scratchpad.overflow s' = true) /\
  0 <= Scratchpad.counter s' <= depth - 1.
Proof.
  intros Hw Hc s'. subst s'. unfold Scratchpad.step.
  assert (Hwn : 0 <= Scratchpad.counter_width depth) by apply bits_for_nonneg.
  destruct reset.
  - cbn. repeat split; intros; try discriminate; try reflexivity; lia.
  - destruct (Scratchpad.write_strobe s).
    + destruct (Z.eqb_spec (Scratchpad.counter s) (depth - 1)) as [E|E];
        cbn [Scratchpad.counter Scratchpad.overflow].
      * repeat split; intros; try discriminate; try contradiction; try reflexivity; lia.
      * rewrite trunc_small by lia.
        repeat split; intros; try discriminate; try contradiction;
          try reflexivity; try assumption; lia.
    + cbn [Scratchpad.counter Scratchpad.overflow].
      repeat split; intros; try discriminate; try reflexivity; try assumption; lia.
Qed.

(** A scratchpad of 16 words wraps from 15 to 0 and raises the flag. *)
Lemma scratchpad_cursor_witness :
  Scratchpad.counter
    (Scratchpad.step 16 false [(7, true)]
       (Scratchpad.mk 15 false 14 [5] [true] (repeat [0] 16))) = 0 /\
  Scratchpad.overflow
    (Scratchpad.step 16 false [(7, true)]
       (Scratchpad.mk 15 false 14 [5] [true] (repeat [0] 16))) = true.
Proof.
  apply (proj1 (proj2 (proj2 (proj2
           (scratchpad_cursor 16 false [(7, true)]
              (Scratchpad.mk 15 false 14 [5] [true] (repeat [0] 16))
              ltac:(vm_compute; reflexivity)
              ltac:(cbn; lia)))))); reflexivity.
Defined.

(** C7 on the code: with [depth = 5] the counter register is 2 bits wide
    ([Signal(max=4)]), so after the write at cursor 3 the cursor is 0 although
    it never held [depth - 1 = 4], and the overflow flag is still clear. *)
Lemma C7_depth_5_wraps_silently :
  Scratchpad.counter_width 5 = 2 /\
  Scratchpad.counter
    (Scratchpad.run 5 (repeat (false, [(9, true)]) 4) (Scratchpad.init (repeat [0] 5))) = 3 /\
  Scratchpad.counter
    (Scratchpad.run 5 (repeat (false, [(9, true)]) 5) (Scratchpad.init (repeat [0] 5))) = 0 /\
  Scratchpad.overflow
    (Scratchpad.run 5 (repeat (false, [(9, true)]) 5) (Scratchpad.init (repeat [0] 5))) = false /\
  Scratchpad.mem
    (Scratchpad.run 5 (repeat (false, [(9, true)]) 9) (Scratchpad.init (repeat [0] 5)))
  = [[9]; [9]; [9]; [9]; [0]].
Proof.
  repeat split; reflexivity.
Qed.

(** ** From [start] to the first RUN cycle *)

Section Start.
Variable mem_payload : list Z.
Variables (rankbits bankbits rowbits colbits rdphase : Z).

Let cycle := PayloadExecutor.cycle mem_payload rankbits bankbits rowbits colbits rdphase.
Let run := PayloadExecutor.run mem_payload rankbits bankbits rowbits colbits rdphase.

(** READY with [start]: the bus is requested and the program counters stay 0. *)
Lemma ready_cycle (i : PayloadExecutor.inputs) (s : PayloadExecutor.t) :
  PayloadExecutor.fsm s = PayloadExecutor.READY ->
  PayloadExecutor.start i = true ->
  let s' := fst (cycle i s) in
  let o := snd (cycle i s) in
  PayloadExecutor.fsm s' = PayloadExecutor.WAIT_DFI /\
  PayloadExecutor.wants_dfi s' = true /\
  PayloadExecutor.program_counter s' = 0 /\
  PayloadExecutor.program_counter_old s' = 0 /\
  PayloadExecutor.loop_counter s' = PayloadExecutor.loop_counter s /\
  PayloadExecutor.next_fsm (PayloadExecutor.o_act o) = PayloadExecutor.WAIT_DFI.
Proof.
  intros Hf Hs s' o. subst s' o.
  unfold cycle, PayloadExecutor.cycle, PayloadExecutor.fsm_act.
  rewrite Hf, Hs. cbn. repeat split; reflexivity.
Qed.

(** WAIT-DFI with the bus granted: on to BUBBLE, the fetch still stalled. *)
Lemma wait_dfi_cycle (i : PayloadExecutor.inputs) (s : PayloadExecutor.t) :
  PayloadExecutor.fsm s = PayloadExecutor.WAIT_DFI ->
  PayloadExecutor.dfi_ready i = true ->
  let s' := fst (cycle i s) in
  let o := snd (cycle i s) in
  PayloadExecutor.fsm s' = PayloadExecutor.BUBBLE /\
  PayloadExecutor.idle_counter s' = PayloadExecutor.PIPELINE_DELAY - 1 /\
  fetch_hold mem_payload s s' /\ same_control s s' /\
  PayloadExecutor.next_fsm (PayloadExecutor.o_act o) = PayloadExecutor.BUBBLE.
Proof.
  intros Hf Hr s' o. subst s' o.
  unfold cycle, PayloadExecutor.cycle, PayloadExecutor.fsm_act, fetch_hold,
    same_control, PayloadExecutor.mem_addr.
  rewrite Hf, Hr. cbn. repeat split; reflexivity.
Qed.

(** The four cycles from READY in which [start] is strobed and the bus is
    granted: READY resets the program counters and nothing on the way touches
    the loop counter. *)
Lemma start_sequence (s0 : PayloadExecutor.t) :
  PayloadExecutor.fsm s0 = PayloadExecutor.READY ->
  2 < 2 ^ PayloadExecutor.addr_width mem_payload ->
  run_at mem_payload (fst (run (started 3) s0)) 0 /\
  PayloadExecutor.loop_counter (fst (run (started 3) s0)) = PayloadExecutor.loop_counter s0 /\
  next_states (snd (run (started 3) s0))
  = [PayloadExecutor.WAIT_DFI; PayloadExecutor.BUBBLE; PayloadExecutor.BUBBLE;
     PayloadExecutor.RUN].
Proof.
  intros Hready Hw.
  pose proof (addr_width_nonneg mem_payload) as Hn.
  unfold started. cbn [repeat]. unfold run.
  rewrite !run_cons, run_nil. cbn [fst snd].
  change (PayloadExecutor.cycle mem_payload rankbits bankbits rowbits colbits rdphase)
    with cycle.
  set (i0 := PayloadExecutor.mk_inputs true true).
  set (i1 := PayloadExecutor.mk_inputs false true).
  destruct (ready_cycle i0 s0 Hready eq_refl)
    as [F1 [_ [P1 [O1 [L1 N1]]]]].
  remember (fst (cycle i0 s0)) as s1 eqn:E1.
  remember (snd (cycle i0 s0)) as o1 eqn:Eo1.
  destruct (wait_dfi_cycle i1 s1 F1 eq_refl) as [F2 [C2 [[P2 [O2 [_ D2]]] [[L2 _] N2]]]].
  remember (fst (cycle i1 s1)) as s2 eqn:E2.
  remember (snd (cycle i1 s1)) as o2 eqn:Eo2.
  destruct (bubble_cycle mem_payload rankbits bankbits rowbits colbits rdphase i1 s2 F2)
    as [[P3 [O3 [I3 D3]]] [[L3 _] [_ [N3 [_ B3]]]]].
  fold cycle in P3, O3, I3, D3, L3, N3, B3.
  destruct B3 as [F3 C3]; [rewrite C2; unfold PayloadExecutor.PIPELINE_DELAY; lia|].
  rewrite C2 in C3.
  change (Migen.trunc Decoder.TIMESLICE_NOOP (PayloadExecutor.PIPELINE_DELAY - 1 - 1))
    with 0 in C3.
  remember (fst (cycle i1 s2)) as s3 eqn:E3.
  remember (snd (cycle i1 s2)) as o3 eqn:Eo3.
  destruct (bubble_cycle mem_payload rankbits bankbits rowbits colbits rdphase i1 s3 F3)
    as [[P4 [O4 [I4 D4]]] [[L4 _] [_ [N4 [B4 _]]]]].
  fold cycle in P4, O4, I4, D4, L4, N4, B4.
  specialize (B4 C3).
  rewrite P2, P1 in P3, D3.
  rewrite trunc_small in P3 by lia.
  rewrite P3 in P4, D4, O4. rewrite trunc_small in P4 by lia.
  split.
  - split; [exact B4|]. unfold fetch_at.
    rewrite I4, D3, D4, P4, O4. repeat split; reflexivity.
  - split; [rewrite L4, L3, L2, L1; reflexivity|].
    unfold next_states. cbn [map]. rewrite N1, N2, N3, N4, F3, B4. reflexivity.
Qed.

(** From any READY state, whatever its program counters, instruction
    register and loop counter: after [start], one WAIT-DFI cycle with the bus
    granted and two BUBBLE cycles, the executor is in RUN on the word of
    address 0, and the loop counter is the one READY was entered with (0 after
    reset; neither READY nor WAIT-DFI clears it). *)
Lemma start_reaches_run (s0 : PayloadExecutor.t) :
  PayloadExecutor.fsm s0 = PayloadExecutor.READY ->
  2 < 2 ^ PayloadExecutor.addr_width mem_payload ->
  run_at mem_payload (fst (run (started 3) s0)) 0 /\
  PayloadExecutor.loop_counter (fst (run (started 3) s0)) = PayloadExecutor.loop_counter s0 /\
  next_states (snd (run (started 3) s0))
  = [PayloadExecutor.WAIT_DFI; PayloadExecutor.BUBBLE; PayloadExecutor.BUBBLE;
     PayloadExecutor.RUN].
Proof.
  exact (start_sequence s0).
Qed.

End Start.

(** READY as a run that met STOP inside a loop leaves it: program counters
    anywhere, loop counter 1. *)
Lemma start_reaches_run_witness :
  run_at loop_program
    (fst (PayloadExecutor.run loop_program 0 4 16 10 1 (started 3)
            (PayloadExecutor.mk PayloadExecutor.READY false 1 0 5 4 0 0 0 0 0))) 0 /\
  PayloadExecutor.loop_counter
    (fst (PayloadExecutor.run loop_program 0 4 16 10 1 (started 3)
            (PayloadExecutor.mk PayloadExecutor.READY false 1 0 5 4 0 0 0 0 0)))
  = PayloadExecutor.loop_counter (PayloadExecutor.mk PayloadExecutor.READY false 1 0 5 4 0 0 0 0 0) /\
  next_states
    (snd (PayloadExecutor.run loop_program 0 4 16 10 1 (started 3)
            (PayloadExecutor.mk PayloadExecutor.READY false 1 0 5 4 0 0 0 0 0)))
  = [PayloadExecutor.WAIT_DFI; PayloadExecutor.BUBBLE; PayloadExecutor.BUBBLE;
     PayloadExecutor.RUN].
Proof.
  apply (start_reaches_run loop_program 0 4 16 10 1
           (PayloadExecutor.mk PayloadExecutor.READY false 1 0 5 4 0 0 0 0 0)).
  - reflexivity.
  - vm_compute. reflexivity.
Defined.

(** * Further properties of the code *)

(** ** [Encoder.address] *)

Lemma pow2_pos (n : Z) : 0 <= n -> 0 < 2 ^ n.
Proof.
  intros Hn. apply Z.pow_pos_nonneg; lia.
Qed.

Lemma field_low (lo hi n : Z) :
  0 <= n -> 0 <= lo < 2 ^ n -> (lo + hi * 2 ^ n) mod 2 ^ n = lo.
Proof.
  intros Hn Hlo. rewrite Z.mod_add by (pose proof (pow2_pos n Hn); lia).
  apply Z.mod_small. exact Hlo.
Qed.

Lemma field_high (lo hi n : Z) :
  0 <= n -> 0 <= lo < 2 ^ n -> (lo + hi * 2 ^ n) / 2 ^ n = hi.
Proof.
  intros Hn Hlo. rewrite Z.div_add by (pose proof (pow2_pos n Hn); lia).
  rewrite Z.div_small by exact Hlo. lia.
Qed.

Lemma field_bound (lo hi n m : Z) :
  0 <= n -> 0 <= m -> 0 <= lo < 2 ^ n -> 0 <= hi < 2 ^ m ->
  0 <= lo + hi * 2 ^ n < 2 ^ (n + m).
Proof.
  intros Hn Hm Hlo Hhi. rewrite Z.pow_add_r by assumption.
  pose proof (pow2_pos n Hn). nia.
Qed.

Lemma log2_int_pow2 (r : Z) : 0 <= r -> Migen.log2_int (2 ^ r) = Ok r.
Proof.
  intros Hr. unfold Migen.log2_int.
  destruct (Z.eqb_spec (2 ^ r) 0) as [E|_]; [pose proof (pow2_pos r Hr); lia|].
  rewrite Z.log2_up_pow2 by assumption.
  rewrite Z.eqb_refl. reflexivity.
Qed.

(** The value [Encoder.address] packs for [2^r] ranks: rank in the low [r]
    bits, then the bank cut to [bankbits] bits, then the row or column. *)
Lemma address_value (r bankbits rank bank rowcol : Z) (row col : option Z) :
  0 <= r -> 0 <= bankbits -> 0 <= rank < 2 ^ r ->
  (row = Some rowcol /\ col = None) \/ (row = None /\ col = Some rowcol) ->
  Encoder.address bankbits (2 ^ r) (Some rank) bank row col =
  Ok (rank + (bank mod 2 ^ bankbits + rowcol * 2 ^ bankbits) * 2 ^ r).
Proof.
  intros Hr Hb Hrank Hrc. unfold Encoder.address.
  assert (Hsel : match row, col with
                 | Some x, _ => x
                 | None, Some c => c
                 | None, None => 0
                 end = rowcol)
    by (destruct Hrc as [[-> ->]|[-> ->]]; reflexivity).
  assert (Hboth : negb match row, col with
                       | Some _, Some _ => true
                       | _, _ => false
                       end = true)
    by (destruct Hrc as [[-> ->]|[-> ->]]; reflexivity).
  rewrite Hboth, Hsel. cbn [py_assert bind].
  destruct (Z.ltb_spec bankbits 0) as [Hneg|_]; [lia|].
  rewrite land_mask_mod by assumption.
  assert (Hbm : 0 <= bank mod 2 ^ bankbits < 2 ^ bankbits)
    by (apply Z.mod_pos_bound, pow2_pos; assumption).
  rewrite lor_shiftl_add by assumption.
  destruct (Z.ltb_spec 1 (2 ^ r)) as [Hgt|Hle].
  - rewrite log2_int_pow2 by assumption. cbn [bind].
    rewrite Z.lor_comm, lor_shiftl_add by assumption. reflexivity.
  - assert (r = 0).
    { destruct (Z.eq_dec r 0) as [E|E]; [exact E|].
      assert (2 ^ 1 <= 2 ^ r) by (apply Z.pow_le_mono_r; lia).
      change (2 ^ 1) with 2 in *. lia. }
    subst r. change (2 ^ 0) with 1 in *.
    replace rank with 0 by lia. f_equal. lia.
Qed.

(** An address built by [Encoder.address] for a layout the decoder accepts
    ([rankbits + bankbits + max(rowbits, colbits) <= 24]) comes back from the
    decoder of any DFI instruction carrying it: [dfi_rank], [dfi_bank] (the
    bank modulo [2^bankbits]) and [dfi_address] (the row or the column). *)
Theorem address_round_trip (r bankbits rowbits colbits rank bank rowcol : Z)
        (row col : option Z) (op : OpCode) (t : Z) :
  0 <= r -> 0 <= bankbits ->
  r + bankbits + Z.max rowbits colbits <= 24 ->
  0 <= rank < 2 ^ r ->
  0 <= rowcol < 2 ^ Z.max rowbits colbits ->
  (row = Some rowcol /\ col = None) \/ (row = None /\ col = Some rowcol) ->
  is_dfi op = true -> 1 <= t <= 31 ->
  exists a w,
    Encoder.address bankbits (2 ^ r) (Some rank) bank row col = Ok a /\
    Encoder.encode op (dfi_kwargs t (Some a)) = Ok [w] /\
    Decoder.dfi_rank (Decoder.decode r bankbits rowbits colbits w) = rank /\
    Decoder.dfi_bank (Decoder.decode r bankbits rowbits colbits w) = bank mod 2 ^ bankbits /\
    Decoder.dfi_address (Decoder.decode r bankbits rowbits colbits w) = rowcol.
Proof.
  intros Hr Hb Hsum Hrank Hrowcol Hrc Hop Ht.
  assert (Hm : 0 <= Z.max rowbits colbits).
  { destruct (Z_lt_le_dec (Z.max rowbits colbits) 0) as [Hneg|]; [|assumption].
    rewrite (Z.pow_neg_r 2 _ Hneg) in Hrowcol. lia. }
  set (m := Z.max rowbits colbits) in *.
  set (bk := bank mod 2 ^ bankbits).
  assert (Hbk : 0 <= bk < 2 ^ bankbits)
    by (apply Z.mod_pos_bound, pow2_pos; assumption).
  set (hi := bk + rowcol * 2 ^ bankbits).
  assert (Hhi : 0 <= hi < 2 ^ (bankbits + m)) by (apply field_bound; assumption).
  set (a := rank + hi * 2 ^ r).
  assert (Ha : 0 <= a < 2 ^ (r + (bankbits + m))) by (apply field_bound; try lia; assumption).
  assert (Ha24 : 0 <= a < 2 ^ 24).
  { split; [lia|]. apply Z.lt_le_trans with (2 ^ (r + (bankbits + m))); [lia|].
    apply Z.pow_le_mono_r; lia. }
  destruct (round_trip_dfi op (dfi_kwargs t (Some a)) t a Hop eq_refl eq_refl Ht Ha24)
    as [w [Henc [_ Hrec]]].
  exists a, w. split; [apply address_value; assumption|]. split; [exact Henc|].
  destruct (Hrec r bankbits rowbits colbits) as [_ Hfields].
  assert (Haddr : Decoder.address (Decoder.decode r bankbits rowbits colbits w) = a).
  { destruct op; try discriminate Hop; destruct Hfields as [_ Hfa];
      cbn [dfi_kwargs Encoder.kw_address] in Hfa; congruence. }
  unfold Decoder.decode in *.
  cbn [Decoder.address Decoder.dfi_rank Decoder.dfi_bank Decoder.dfi_address] in *.
  rewrite Haddr. fold m.
  rewrite !slice_div_mod by (unfold Decoder.ADDRESS; lia).
  rewrite trunc_mod by assumption.
  change (2 ^ 0) with 1. rewrite Z.div_1_r, Z.sub_0_r.
  replace (r + bankbits - r) with bankbits by lia.
  unfold a.
  rewrite field_low, field_high by assumption.
  assert (Hq : (rank + hi * 2 ^ r) / 2 ^ (r + bankbits) = rowcol).
  { rewrite Z.pow_add_r by assumption.
    rewrite <- Z.div_div by (try apply pow2_pos; try assumption;
                              pose proof (pow2_pos r Hr); lia).
    rewrite field_high by assumption. unfold hi. apply field_high; assumption. }
  rewrite Hq. unfold hi. rewrite field_low by assumption.
  split; [reflexivity|]. split; [reflexivity|].
  rewrite (Z.mod_small rowcol (2 ^ (Decoder.ADDRESS - (r + bankbits)))).
  - apply Z.mod_small. assumption.
  - split; [lia|]. apply Z.lt_le_trans with (2 ^ m); [lia|].
    apply Z.pow_le_mono_r; unfold Decoder.ADDRESS; lia.
Qed.

Lemma address_round_trip_witness :
  exists a w,
    Encoder.address 4 (2 ^ 1) (Some 1) 3 (Some 4660) None = Ok a /\
    Encoder.encode ACT (dfi_kwargs 4 (Some a)) = Ok [w] /\
    Decoder.dfi_rank (Decoder.decode 1 4 16 10 w) = 1 /\
    Decoder.dfi_bank (Decoder.decode 1 4 16 10 w) = 3 mod 2 ^ 4 /\
    Decoder.dfi_address (Decoder.decode 1 4 16 10 w) = 4660.
Proof.
  apply (address_round_trip 1 4 16 10 1 3 4660 (Some 4660) None ACT 4);
    try reflexivity; try (cbn; lia).
  left. split; reflexivity.
Defined.

(** [Encoder.address] fails with the assertion exactly when both row and
    column are given.  Otherwise it fails with a TypeError exactly when
    [bankbits] is negative (the mask is then a float) or, with more than one
    rank, a power of two of them, no rank is given ([|=] with [None]); with a
    ValueError exactly when [bankbits] is not negative and the number of ranks
    is above 1 and no power of two ([log2_int]); and it returns exactly when
    [bankbits] is not negative and there is one rank at most, or a power of
    two of them and a rank given. *)
Theorem address_errors (bankbits nranks bank : Z) (rank row col : option Z) :
  (Encoder.address bankbits nranks rank bank row col = Raise AssertionError <->
   is_some row && is_some col = true) /\
  (is_some row && is_some col = false ->
   (Encoder.address bankbits nranks rank bank row col = Raise TypeError <->
    bankbits < 0 \/
    (1 < nranks /\ 2 ^ Z.log2_up nranks = nranks /\ rank = None)) /\
   (Encoder.address bankbits nranks rank bank row col = Raise ValueError <->
    0 <= bankbits /\ 1 < nranks /\ 2 ^ Z.log2_up nranks <> nranks) /\
   ((exists a, Encoder.address bankbits nranks rank bank row col = Ok a) <->
    0 <= bankbits /\
    (nranks <= 1 \/ (2 ^ Z.log2_up nranks = nranks /\ is_some rank = true)))).
Proof.
  unfold Encoder.address, Migen.log2_int.
  destruct row as [rw|], col as [cl|], rank as [rk|];
    cbn [is_some andb negb py_assert bind];
    destruct (Z.ltb_spec bankbits 0);
    destruct (Z.ltb_spec 1 nranks);
    try (destruct (Z.eqb_spec nranks 0); [lia|]);
    try destruct (Z.eqb_spec (2 ^ Z.log2_up nranks) nranks);
    cbn [bind is_some];
    repeat split; intros;
    repeat match goal with
           | H : exists _, _ |- _ => destruct H
           | H : _ /\ _ |- _ => destruct H
           | H : _ \/ _ |- _ => destruct H
           end;
    try discriminate; try lia; try congruence; try (eexists; reflexivity);
    try (left; lia); try (right; repeat split; first [assumption | lia | reflexivity]);
    try (split; [lia|]; first [left; lia | right; split; [assumption | reflexivity]]).
Qed.

(** Two ranks and no rank given: the TypeError. *)
Lemma address_errors_witness :
  Encoder.address 4 2 None 1 (Some 5) None = Raise TypeError <->
  4 < 0 \/ (1 < 2 /\ 2 ^ Z.log2_up 2 = 2 /\ @None Z = None).
Proof.
  exact (proj1 (proj2 (address_errors 4 2 1 None (Some 5) None) eq_refl)).
Defined.

(** A negative [bankbits]: the TypeError, whatever the rest. *)
Example address_negative_bankbits :
  Encoder.address (-1) 1 None 3 None None = Raise TypeError.
Proof.
  reflexivity.
Qed.

(** ** STOP and the number of words *)

(** Among 32-bit words the decoder's [stop] singles out the zero word, which
    is what a NOOP with timeslice 0 is encoded into. *)
Theorem stop_is_the_zero_word (rankbits bankbits rowbits colbits w : Z) :
  word_in_range w ->
  (Decoder.stop (Decoder.decode rankbits bankbits rowbits colbits w) = true <-> w = 0) /\
  Encoder.encode NOOP (noop_kwargs 0) = Ok [0].
Proof.
  intros Hw. split; [|reflexivity].
  unfold word_in_range, WORD in Hw. change (2 ^ Decoder.INSTRUCTION) with 4294967296 in Hw.
  rewrite decode_stop, decode_op_code, decode_timeslice.
  change (2 ^ 29) with 536870912.
  destruct (Z.eqb_spec (w mod 8) 0) as [E|E]; cbn [andb].
  - rewrite Z.eqb_eq. split; intros H; [|subst w; reflexivity].
    Z.div_mod_to_equations. lia.
  - split; [discriminate|]. intros ->. contradiction E. reflexivity.
Qed.

Lemma stop_is_the_zero_word_witness :
  (Decoder.stop (Decoder.decode 0 4 16 10 8) = true <-> 8 = 0) /\
  Encoder.encode NOOP (noop_kwargs 0) = Ok [0].
Proof.
  apply (stop_is_the_zero_word 0 4 16 10 8). cbv. split; [discriminate | reflexivity].
Defined.



Lemma encode_spec_nonempty (spec : Encoder.Instruction) :
  (1 <= length (Encoder.encode_spec spec))%nat.
Proof.
  unfold Encoder.encode_spec. cbn [map length]. lia.
Qed.

(** [encode_payload] returns the words of the instructions one after the
    other: at least one word for each instruction, and exactly one each when no
    instruction carries [_noops]. *)
Theorem encode_payload_length (payload : list Encoder.Instruction) :
  (length payload <= length (Encoder.encode_payload payload))%nat /\
  (Forall (fun spec => Encoder._noops spec = None) payload ->
   Encoder.encode_payload payload = map (fun spec => Encoder.pack (Encoder._parts spec)) payload) /\
  (forall more, Encoder.encode_payload (payload ++ more) =
                Encoder.encode_payload payload ++ Encoder.encode_payload more).
Proof.
  unfold Encoder.encode_payload. split; [|split].
  - induction payload as [|spec payload IH]; cbn [flat_map length]; [lia|].
    rewrite length_app. pose proof (encode_spec_nonempty spec). lia.
  - intros Hall. induction Hall as [|spec payload Hn _ IH]; cbn [flat_map map].
    + reflexivity.
    + rewrite IH. unfold Encoder.encode_spec. rewrite Hn. reflexivity.
  - intros more. apply flat_map_app.
Qed.

(** ** Executor: termination, straight-line code and the status counters *)

Section ExecutorRuns.
Variable mem_payload : list Z.
Variables (rankbits bankbits rowbits colbits rdphase : Z).

Let cycle := PayloadExecutor.cycle mem_payload rankbits bankbits rowbits colbits rdphase.
Let run := PayloadExecutor.run mem_payload rankbits bankbits rowbits colbits rdphase.
Let decoder := PayloadExecutor.decoder rankbits bankbits rowbits colbits.
Let fsm_act := PayloadExecutor.fsm_act rankbits bankbits rowbits colbits rdphase.
Let mem_read := PayloadExecutor.mem_read mem_payload.
Let addr_width := PayloadExecutor.addr_width mem_payload.
Let decode := Decoder.decode rankbits bankbits rowbits colbits.

(** Only RUN strobes the emitter or makes the fetcher jump. *)
Lemma quiet_outside_run (i : PayloadExecutor.inputs) (s : PayloadExecutor.t) :
  PayloadExecutor.fsm s <> PayloadExecutor.RUN -> quiet (snd (cycle i s)).
Proof.
  intros Hf. unfold quiet, cycle, PayloadExecutor.cycle, PayloadExecutor.fsm_act.
  cbn [snd PayloadExecutor.o_act].
  destruct (PayloadExecutor.fsm s); try contradiction;
    repeat match goal with |- context [if ?c then _ else _] => destruct c end;
    split; reflexivity.
Qed.

(** [executing] is driven in RUN, IDLE and BUBBLE, [ready] in READY. *)
Lemma executing_states (i : PayloadExecutor.inputs) (s : PayloadExecutor.t) :
  (PayloadExecutor.executing (fsm_act i s) = true <->
   PayloadExecutor.fsm s = PayloadExecutor.RUN \/
   PayloadExecutor.fsm s = PayloadExecutor.IDLE \/
   PayloadExecutor.fsm s = PayloadExecutor.BUBBLE) /\
  (PayloadExecutor.ready (fsm_act i s) = true <->
   PayloadExecutor.fsm s = PayloadExecutor.READY).
Proof.
  unfold fsm_act, PayloadExecutor.fsm_act.
  destruct (PayloadExecutor.fsm s);
    repeat match goal with |- context [if ?c then _ else _] => destruct c end;
    cbn; intuition discriminate.
Qed.

(** The RUN cycle that ends the program issues nothing: the word in the
    instruction register is dropped, [wants_dfi] falls and the loop counter
    keeps its value. *)
Lemma terminating_cycle (i : PayloadExecutor.inputs) (s : PayloadExecutor.t) :
  PayloadExecutor.fsm s = PayloadExecutor.RUN ->
  PayloadExecutor.terminate rankbits bankbits rowbits colbits s = true ->
  PayloadExecutor.fsm (fst (cycle i s)) = PayloadExecutor.READY /\
  PayloadExecutor.wants_dfi (fst (cycle i s)) = false /\
  PayloadExecutor.loop_counter (fst (cycle i s)) = PayloadExecutor.loop_counter s /\
  quiet (snd (cycle i s)) /\
  PayloadExecutor.executing (PayloadExecutor.o_act (snd (cycle i s))) = true /\
  PayloadExecutor.next_fsm (PayloadExecutor.o_act (snd (cycle i s))) = PayloadExecutor.READY.
Proof.
  intros Hf Ht.
  unfold cycle, PayloadExecutor.cycle, PayloadExecutor.fsm_act, quiet.
  rewrite Hf, Ht. cbn. repeat split; reflexivity.
Qed.

Lemma start_is_quiet :
  PayloadExecutor.issued (snd (run (started 3) PayloadExecutor.init)) = [] /\
  PayloadExecutor.jumps (snd (run (started 3) PayloadExecutor.init)) = 0%nat.
Proof.
  unfold started. cbn [repeat]. unfold run.
  rewrite !run_cons, run_nil. cbn [fst snd].
  change (PayloadExecutor.cycle mem_payload rankbits bankbits rowbits colbits rdphase)
    with cycle.
  set (i0 := PayloadExecutor.mk_inputs true true).
  set (i1 := PayloadExecutor.mk_inputs false true).
  destruct (ready_cycle mem_payload rankbits bankbits rowbits colbits rdphase
              i0 PayloadExecutor.init eq_refl eq_refl) as [F1 _].
  fold cycle in F1.
  pose proof (quiet_outside_run i0 PayloadExecutor.init ltac:(discriminate)) as Q0.
  remember (fst (cycle i0 PayloadExecutor.init)) as s1 eqn:E1.
  pose proof (quiet_outside_run i1 s1 ltac:(rewrite F1; discriminate)) as Q1.
  destruct (wait_dfi_cycle mem_payload rankbits bankbits rowbits colbits rdphase
              i1 s1 F1 eq_refl) as [F2 [C2 _]].
  fold cycle in F2, C2.
  remember (fst (cycle i1 s1)) as s2 eqn:E2.
  pose proof (quiet_outside_run i1 s2 ltac:(rewrite F2; discriminate)) as Q2.
  destruct (bubble_cycle mem_payload rankbits bankbits rowbits colbits rdphase i1 s2 F2)
    as [_ [_ [_ [_ [_ B3]]]]].
  fold cycle in B3.
  destruct B3 as [F3 _]; [rewrite C2; unfold PayloadExecutor.PIPELINE_DELAY; lia|].
  remember (fst (cycle i1 s2)) as s3 eqn:E3.
  pose proof (quiet_outside_run i1 s3 ltac:(rewrite F3; discriminate)) as Q3.
  rewrite !issued_quiet, !jumps_quiet by assumption.
  split; reflexivity.
Qed.

(** A program whose first word is STOP: five cycles after [start] (the bus
    being granted at once) the executor is back in READY with [wants_dfi]
    dropped, and nothing was issued. *)
Theorem stop_as_first_word :
  2 < 2 ^ addr_width ->
  Decoder.stop (decode (mem_read 0)) = true ->
  PayloadExecutor.fsm (fst (run (started 4) PayloadExecutor.init)) = PayloadExecutor.READY /\
  PayloadExecutor.wants_dfi (fst (run (started 4) PayloadExecutor.init)) = false /\
  PayloadExecutor.issued (snd (run (started 4) PayloadExecutor.init)) = [] /\
  next_states (snd (run (started 4) PayloadExecutor.init))
  = [PayloadExecutor.WAIT_DFI; PayloadExecutor.BUBBLE; PayloadExecutor.BUBBLE;
     PayloadExecutor.RUN; PayloadExecutor.READY].
Proof.
  intros Hw Hstop.
  change (started 4) with (started 3 ++ [PayloadExecutor.mk_inputs false true]).
  unfold run. rewrite run_app, run_cons, run_nil. cbn [fst snd].
  destruct (start_sequence mem_payload rankbits bankbits rowbits colbits rdphase
              PayloadExecutor.init eq_refl Hw)
    as [[Hf Hat] [_ Hn]].
  destruct start_is_quiet as [Hi _]. unfold run in Hi.
  remember (fst (PayloadExecutor.run mem_payload rankbits bankbits rowbits colbits
                   rdphase (started 3) PayloadExecutor.init)) as s eqn:Es.
  remember (snd (PayloadExecutor.run mem_payload rankbits bankbits rowbits colbits
                   rdphase (started 3) PayloadExecutor.init)) as os eqn:Eos.
  change (PayloadExecutor.cycle mem_payload rankbits bankbits rowbits colbits rdphase)
    with cycle.
  assert (Ht : PayloadExecutor.terminate rankbits bankbits rowbits colbits s = true).
  { apply (terminate_spec mem_payload).
    pose proof (decoder_at mem_payload rankbits bankbits rowbits colbits s 0 Hat) as Hd.
    rewrite Hd. fold decode mem_read. rewrite Hstop.
    split; [right; reflexivity|]. left.
    pose proof (decode_stop rankbits bankbits rowbits colbits (mem_read 0)) as E.
    fold decode in E. rewrite Hstop in E. symmetry in E.
    apply andb_prop in E. destruct E as [E _]. apply Z.eqb_eq in E.
    rewrite E. discriminate. }
  destruct (terminating_cycle (PayloadExecutor.mk_inputs false true) s Hf Ht)
    as [G1 [G2 [_ [G4 [_ G6]]]]].
  split; [exact G1|]. split; [exact G2|]. split.
  - rewrite issued_app, Hi, issued_quiet by exact G4. reflexivity.
  - unfold next_states in *. rewrite map_app, Hn. cbn [map app]. rewrite G6. reflexivity.
Qed.

Lemma layout_independent (w : Z) :
  Decoder.op_code (decode w) = Decoder.op_code (decode0 w) /\
  Decoder.timeslice (decode w) = Decoder.timeslice (decode0 w) /\
  Decoder.stop (decode w) = Decoder.stop (decode0 w).
Proof.
  unfold decode, decode0. rewrite !decode_stop, !decode_op_code, !decode_timeslice.
  repeat split; reflexivity.
Qed.

Lemma block_forall (P : Z -> Prop) (a : Z) (n : nat) :
  Forall P (block mem_payload a n) ->
  forall k, (k < n)%nat -> P (mem_read (a + Z.of_nat k)).
Proof.
  intros Hall k Hk. rewrite Forall_forall in Hall. apply Hall.
  unfold block. apply in_map_iff. exists k. split; [reflexivity|].
  apply in_seq. lia.
Qed.

(** The words of a DFI instruction are plain and their timeslices add up to
    the requested one. *)
Lemma encoded_words_plain (op : OpCode) (kw : Encoder.kwargs) (T : Z) :
  is_dfi op = true ->
  Encoder.kw_timeslice kw = Some T -> 1 <= T ->
  (needs_address op = true -> is_some (Encoder.kw_address kw) = true) ->
  exists ws,
    Encoder.encode op kw = Ok ws /\
    Forall (plain rankbits bankbits rowbits colbits) ws /\
    sumZ (map (cycles_of rankbits bankbits rowbits colbits) ws) = T.
Proof.
  intros Hop Ht HT Ha.
  destruct (encode_DFI_shape op kw T Hop Ht HT Ha)
    as [base [noops [Henc [_ [Hd [Hts [Hall Hsum]]]]]]].
  exists (base :: noops). split; [exact Henc|].
  pose proof (dfi_opcode_pos op Hop) as Hv.
  assert (Hnoops : Forall (fun w => plain rankbits bankbits rowbits colbits w /\
                                    cycles_of rankbits bankbits rowbits colbits w
                                    = noop_duration w) noops).
  { eapply Forall_impl; [|exact Hall]. intros w [_ [Hn Hdur]].
    destruct (layout_independent w) as [L1 [L2 L3]].
    unfold plain, cycles_of. fold decode. rewrite L1, L2.
    unfold is_noop_word in Hn. unfold noop_duration in *.
    split; [split|].
    - rewrite Hn. discriminate.
    - rewrite L3. unfold decode0. rewrite decode_stop. fold (decode0 w).
      rewrite Hn. cbn [OpCode_value Z.eqb andb].
      apply Z.eqb_neq. lia.
    - lia. }
  split.
  - constructor.
    + destruct (layout_independent base) as [L1 [_ L3]].
      unfold plain. fold decode. rewrite L1, L3, Hd.
      split; [destruct op; try discriminate Hop; discriminate|].
      unfold decode0. rewrite decode_stop. fold (decode0 base). rewrite Hd.
      replace (OpCode_value op =? 0) with false by (symmetry; apply Z.eqb_neq; lia).
      reflexivity.
    + eapply Forall_impl; [|exact Hnoops]. intros w [Hp _]. exact Hp.
  - cbn [map sumZ fold_right].
    destruct (layout_independent base) as [_ [L2 _]].
    unfold cycles_of at 1. fold decode. rewrite L2, Hts.
    fold (sumZ (map (cycles_of rankbits bankbits rowbits colbits) noops)).
    rewrite (map_ext_in _ noop_duration).
    + rewrite Hsum. lia.
    + intros w Hw. rewrite Forall_forall in Hnoops. apply (Hnoops w Hw).
Qed.

(** A DFI instruction with timeslice [T], encoded and stored at address [a],
    keeps the executor for exactly [T] cycles: every one of its words is
    strobed once, in order, and RUN is then on the word after them. *)
Theorem encoded_instruction_timing (op : OpCode) (kw : Encoder.kwargs) (T : Z) :
  is_dfi op = true ->
  Encoder.kw_timeslice kw = Some T -> 1 <= T ->
  (needs_address op = true -> is_some (Encoder.kw_address kw) = true) ->
  exists ws,
    Encoder.encode op kw = Ok ws /\
    forall a s ins,
      block mem_payload a (length ws) = ws ->
      run_at mem_payload s a ->
      0 <= a -> a + Z.of_nat (length ws) + 2 < 2 ^ addr_width ->
      Z.of_nat (length ins) = T ->
      run_at mem_payload (fst (run ins s)) (a + Z.of_nat (length ws)) /\
      same_control s (fst (run ins s)) /\
      PayloadExecutor.issued (snd (run ins s)) = ws /\
      PayloadExecutor.jumps (snd (run ins s)) = 0%nat.
Proof.
  intros Hop Ht HT Ha.
  destruct (encoded_words_plain op kw T Hop Ht HT Ha) as [ws [Henc [Hplain Hsum]]].
  exists ws. split; [exact Henc|].
  intros a s ins Hblock Hat Ha0 Hw Hlen.
  destruct (exec_block mem_payload rankbits bankbits rowbits colbits rdphase
              (length ws) a s ins Hat) as [G1 [G2 [G3 G4]]].
  - apply block_forall. rewrite Hblock. exact Hplain.
  - exact Ha0.
  - exact Hw.
  - unfold block_cycles. rewrite Hblock, Hsum. exact Hlen.
  - fold run in G1, G2, G3, G4. rewrite Hblock in G3.
    split; [exact G1|]. split; [exact G2|]. split; [exact G3 | exact G4].
Qed.

(** The status counters in a cycle with [executing] and no [start]. *)
Lemma counters_cycle (i : PayloadExecutor.inputs) (s : PayloadExecutor.t) :
  PayloadExecutor.start i = false ->
  PayloadExecutor.executing (PayloadExecutor.o_act (snd (cycle i s))) = true ->
  0 <= PayloadExecutor.cycle_counter s -> PayloadExecutor.cycle_counter s + 1 < 2 ^ 64 ->
  PayloadExecutor.exec_start (fst (cycle i s)) =
    (if PayloadExecutor.exec_start s =? 0 then PayloadExecutor.cycle_counter s
     else PayloadExecutor.exec_start s) /\
  PayloadExecutor.exec_stop (fst (cycle i s)) = PayloadExecutor.cycle_counter s + 1 /\
  PayloadExecutor.cycle_counter (fst (cycle i s)) = PayloadExecutor.cycle_counter s + 1.
Proof.
  intros Hs He H0 Hlt.
  unfold cycle, PayloadExecutor.cycle in *.
  cbn [fst snd PayloadExecutor.o_act PayloadExecutor.exec_start PayloadExecutor.exec_stop
       PayloadExecutor.cycle_counter] in *.
  unfold PayloadExecutor.next_exec_start, PayloadExecutor.next_exec_stop.
  rewrite He, Hs. cbn [andb].
  rewrite trunc_small by lia.
  destruct (PayloadExecutor.exec_start s =? 0); repeat split; reflexivity.
Qed.

Lemma counters_run (ins : list PayloadExecutor.inputs) :
  forall s,
    Forall (fun i => PayloadExecutor.start i = false) ins ->
    Forall (fun o => PayloadExecutor.executing (PayloadExecutor.o_act o) = true)
           (snd (run ins s)) ->
    0 <= PayloadExecutor.cycle_counter s ->
    PayloadExecutor.cycle_counter s + Z.of_nat (length ins) < 2 ^ 64 ->
    PayloadExecutor.exec_start s <> 0 ->
    PayloadExecutor.exec_start (fst (run ins s)) = PayloadExecutor.exec_start s /\
    PayloadExecutor.cycle_counter (fst (run ins s)) =
      PayloadExecutor.cycle_counter s + Z.of_nat (length ins) /\
    (ins <> [] ->
     PayloadExecutor.exec_stop (fst (run ins s)) =
       PayloadExecutor.cycle_counter s + Z.of_nat (length ins)).
Proof.
  induction ins as [|i ins IH]; intros s Hst Hex H0 Hlt Hne.
  - unfold run. rewrite run_nil. cbn [fst length Z.of_nat].
    split; [reflexivity|]. split; [lia|]. intros H. contradiction.
  - unfold run in Hex |- *. rewrite run_cons in Hex |- *. cbn [fst snd] in Hex |- *.
    change (PayloadExecutor.cycle mem_payload rankbits bankbits rowbits colbits rdphase)
      with cycle in Hex |- *.
    change (PayloadExecutor.run mem_payload rankbits bankbits rowbits colbits rdphase)
      with run in Hex |- *.
    inversion Hst as [|? ? Hs1 Hst']; subst.
    inversion Hex as [|? ? He1 Hex']; subst.
    cbn [length] in Hlt. rewrite Nat2Z.inj_succ in Hlt.
    destruct (counters_cycle i s Hs1 He1 H0 ltac:(lia)) as [C1 [C2 C3]].
    apply Z.eqb_neq in Hne. rewrite Hne in C1. apply Z.eqb_neq in Hne.
    destruct (IH (fst (cycle i s)) Hst' Hex') as [G1 [G2 G3]];
      [lia | lia | congruence |].
    cbn [length]. rewrite Nat2Z.inj_succ.
    split; [congruence|]. split; [lia|]. intros _.
    destruct ins as [|i' ins'].
    + unfold run. rewrite run_nil. cbn [fst length Z.of_nat]. lia.
    + rewrite G3 by discriminate. lia.
Qed.

(** Over [n >= 1] consecutive cycles with [executing], entered with
    [exec_start = 0] at a cycle count [c > 0] and without a [start] strobe,
    [exec_start] takes the value [c] and [exec_stop] the value [c + n]: their
    difference is the number of executing cycles. *)
Theorem exec_counters (ins : list PayloadExecutor.inputs) (s : PayloadExecutor.t) :
  ins <> [] ->
  Forall (fun i => PayloadExecutor.start i = false) ins ->
  Forall (fun o => PayloadExecutor.executing (PayloadExecutor.o_act o) = true)
         (snd (run ins s)) ->
  PayloadExecutor.exec_start s = 0 ->
  0 < PayloadExecutor.cycle_counter s ->
  PayloadExecutor.cycle_counter s + Z.of_nat (length ins) < 2 ^ 64 ->
  PayloadExecutor.exec_start (fst (run ins s)) = PayloadExecutor.cycle_counter s /\
  PayloadExecutor.exec_stop (fst (run ins s)) =
    PayloadExecutor.cycle_counter s + Z.of_nat (length ins) /\
  PayloadExecutor.exec_stop (fst (run ins s)) - PayloadExecutor.exec_start (fst (run ins s))
  = Z.of_nat (length ins).
Proof.
  intros Hne Hst Hex Hes Hc Hlt.
  destruct ins as [|i ins]; [contradiction|].
  unfold run in Hex |- *. rewrite run_cons in Hex |- *. cbn [fst snd] in Hex |- *.
  change (PayloadExecutor.cycle mem_payload rankbits bankbits rowbits colbits rdphase)
    with cycle in Hex |- *.
  change (PayloadExecutor.run mem_payload rankbits bankbits rowbits colbits rdphase)
    with run in Hex |- *.
  inversion Hst as [|? ? Hs1 Hst']; subst.
  inversion Hex as [|? ? He1 Hex']; subst.
  cbn [length] in Hlt |- *. rewrite Nat2Z.inj_succ in Hlt |- *.
  destruct (counters_cycle i s Hs1 He1 ltac:(lia) ltac:(lia)) as [C1 [C2 C3]].
  rewrite Hes in C1. cbn [Z.eqb] in C1.
  destruct (counters_run ins (fst (cycle i s)) Hst' Hex') as [G1 [G2 G3]];
    [lia | lia | lia |].
  assert (Hstop : PayloadExecutor.exec_stop (fst (run ins (fst (cycle i s))))
                  = PayloadExecutor.cycle_counter s + Z.succ (Z.of_nat (length ins))).
  { destruct ins as [|i' ins'].
    - unfold run. rewrite run_nil. cbn [fst length Z.of_nat]. lia.
    - rewrite G3 by discriminate. lia. }
  rewrite G1, C1, Hstop. repeat split; lia.
Qed.

End ExecutorRuns.

Lemma stop_as_first_word_witness :
  PayloadExecutor.fsm
    (fst (PayloadExecutor.run [0; 0; 0; 0] 0 4 16 10 1 (started 4) PayloadExecutor.init))
  = PayloadExecutor.READY /\
  PayloadExecutor.wants_dfi
    (fst (PayloadExecutor.run [0; 0; 0; 0] 0 4 16 10 1 (started 4) PayloadExecutor.init))
  = false /\
  PayloadExecutor.issued
    (snd (PayloadExecutor.run [0; 0; 0; 0] 0 4 16 10 1 (started 4) PayloadExecutor.init))
  = [] /\
  next_states
    (snd (PayloadExecutor.run [0; 0; 0; 0] 0 4 16 10 1 (started 4) PayloadExecutor.init))
  = [PayloadExecutor.WAIT_DFI; PayloadExecutor.BUBBLE; PayloadExecutor.BUBBLE;
     PayloadExecutor.RUN; PayloadExecutor.READY].
Proof.
  apply (stop_as_first_word [0; 0; 0; 0] 0 4 16 10 1);
    [vm_compute; reflexivity | reflexivity].
Defined.

(** ACT with timeslice 100 stored as five words takes 100 cycles. *)
Lemma encoded_instruction_timing_witness :
  exists ws,
    Encoder.encode ACT (dfi_kwargs 100 (Some 5)) = Ok ws /\
    forall a s ins,
      block [1316; 224; 224; 224; 96; 0; 0; 0] a (length ws) = ws ->
      run_at [1316; 224; 224; 224; 96; 0; 0; 0] s a ->
      0 <= a ->
      a + Z.of_nat (length ws) + 2
      < 2 ^ PayloadExecutor.addr_width [1316; 224; 224; 224; 96; 0; 0; 0] ->
      Z.of_nat (length ins) = 100 ->
      run_at [1316; 224; 224; 224; 96; 0; 0; 0]
        (fst (PayloadExecutor.run [1316; 224; 224; 224; 96; 0; 0; 0] 0 4 16 10 1 ins s))
        (a + Z.of_nat (length ws)) /\
      same_control s
        (fst (PayloadExecutor.run [1316; 224; 224; 224; 96; 0; 0; 0] 0 4 16 10 1 ins s)) /\
      PayloadExecutor.issued
        (snd (PayloadExecutor.run [1316; 224; 224; 224; 96; 0; 0; 0] 0 4 16 10 1 ins s))
      = ws /\
      PayloadExecutor.jumps
        (snd (PayloadExecutor.run [1316; 224; 224; 224; 96; 0; 0; 0] 0 4 16 10 1 ins s))
      = 0%nat.
Proof.
  apply (encoded_instruction_timing [1316; 224; 224; 224; 96; 0; 0; 0] 0 4 16 10 1
           ACT (dfi_kwargs 100 (Some 5)) 100);
    [reflexivity | reflexivity | lia | reflexivity].
Defined.

(** ACT then PRE, one cycle each. *)
Lemma exec_block_witness :
  run_at loop_program
    (fst (PayloadExecutor.run loop_program 0 4 16 10 1 (silent 2) (running loop_program 0 0)))
    (0 + Z.of_nat 2) /\
  same_control (running loop_program 0 0)
    (fst (PayloadExecutor.run loop_program 0 4 16 10 1 (silent 2) (running loop_program 0 0))) /\
  PayloadExecutor.issued
    (snd (PayloadExecutor.run loop_program 0 4 16 10 1 (silent 2) (running loop_program 0 0)))
  = block loop_program 0 2 /\
  PayloadExecutor.jumps
    (snd (PayloadExecutor.run loop_program 0 4 16 10 1 (silent 2) (running loop_program 0 0)))
  = 0%nat.
Proof.
  apply (exec_block loop_program 0 4 16 10 1 2 0 (running loop_program 0 0) (silent 2)).
  - repeat split; reflexivity.
  - intros k Hk.
    destruct k as [|[|k]]; [| |lia]; (split; [vm_compute; discriminate | reflexivity]).
  - lia.
  - vm_compute. reflexivity.
  - reflexivity.
Defined.

(** The run of ACT(timeslice 4), STOP: two BUBBLEs, four cycles of ACT and
    the cycle that meets STOP, entered at cycle count 2. *)
Lemma exec_counters_witness :
  PayloadExecutor.exec_start
    (fst (PayloadExecutor.run act_program 0 4 16 10 1 (silent 7)
            (fst (PayloadExecutor.run act_program 0 4 16 10 1 (started 1) PayloadExecutor.init))))
  = 2 /\
  PayloadExecutor.exec_stop
    (fst (PayloadExecutor.run act_program 0 4 16 10 1 (silent 7)
            (fst (PayloadExecutor.run act_program 0 4 16 10 1 (started 1) PayloadExecutor.init))))
  = 2 + 7 /\
  PayloadExecutor.exec_stop
    (fst (PayloadExecutor.run act_program 0 4 16 10 1 (silent 7)
            (fst (PayloadExecutor.run act_program 0 4 16 10 1 (started 1) PayloadExecutor.init))))
  - PayloadExecutor.exec_start
      (fst (PayloadExecutor.run act_program 0 4 16 10 1 (silent 7)
              (fst (PayloadExecutor.run act_program 0 4 16 10 1 (started 1) PayloadExecutor.init))))
  = 7.
Proof.
  apply (exec_counters act_program 0 4 16 10 1 (silent 7)
           (fst (PayloadExecutor.run act_program 0 4 16 10 1 (started 1) PayloadExecutor.init))).
  - discriminate.
  - repeat constructor.
  - vm_compute. repeat constructor.
  - reflexivity.
  - reflexivity.
  - reflexivity.
Defined.

(** ** Scratchpad: where the read data lands *)

Lemma valid_data_we (d : list Z) : map snd (valid_data d) = repeat true (length d).
Proof.
  unfold valid_data. induction d as [|x d IH]; cbn; [reflexivity | rewrite IH; reflexivity].
Qed.

Lemma valid_data_dat (d : list Z) : map fst (valid_data d) = d.
Proof.
  unfold valid_data. rewrite map_map. cbn. apply map_id.
Qed.

Lemma idle_data_we (d : list Z) : map snd (idle_data d) = repeat false (length d).
Proof.
  unfold idle_data. induction d as [|x d IH]; cbn; [reflexivity | rewrite IH; reflexivity].
Qed.

Lemma strobe_all_true (n : nat) : (0 < n)%nat -> existsb (fun b => b) (repeat true n) = true.
Proof.
  destruct n; [lia | reflexivity].
Qed.

Lemma strobe_all_false (n : nat) : existsb (fun b => b) (repeat false n) = false.
Proof.
  induction n; [reflexivity | exact IHn].
Qed.

Lemma merge_all_true (d : list Z) :
  forall old, length old = length d ->
              Scratchpad.merge_lanes (repeat true (length d)) d old = d.
Proof.
  induction d as [|x d IH]; intros old Hl; destruct old as [|o old]; try discriminate Hl.
  - reflexivity.
  - cbn. f_equal. apply IH. cbn in Hl. lia.
Qed.

Lemma merge_no_strobe (we : list bool) :
  forall new old,
    existsb (fun b => b) we = false -> (length we <= length old)%nat ->
    Scratchpad.merge_lanes we new old = old.
Proof.
  induction we as [|w we IH]; intros new old Hs Hl.
  - reflexivity.
  - cbn in Hs. apply orb_false_elim in Hs. destruct Hs as [Hw Hs]. subst w.
    destruct new as [|n new]; [reflexivity|].
    destruct old as [|o old]; [cbn in Hl; lia|].
    cbn. f_equal. apply IH; [exact Hs | cbn in Hl; lia].
Qed.

Lemma write_at_no_strobe (we : list bool) (new : list Z) (m : list (list Z)) :
  existsb (fun b => b) we = false ->
  Forall (fun w => (length we <= length w)%nat) m ->
  forall n, Scratchpad.write_at n we new m = m.
Proof.
  intros Hs Hall. induction Hall as [|w m Hw _ IH]; intros n.
  - destruct n; reflexivity.
  - destruct n as [|n]; cbn.
    + rewrite merge_no_strobe by assumption. reflexivity.
    + rewrite IH. reflexivity.
Qed.

Lemma write_at_all_true (d : list Z) (m : list (list Z)) :
  Forall (fun w => length w = length d) m ->
  forall n, (n < length m)%nat ->
            Scratchpad.write_at n (repeat true (length d)) d m
            = firstn n m ++ d :: skipn (S n) m.
Proof.
  intros Hall. induction Hall as [|w m Hw _ IH]; intros n Hn.
  - cbn in Hn. lia.
  - destruct n as [|n]; cbn [Scratchpad.write_at firstn skipn app].
    + rewrite merge_all_true by assumption. reflexivity.
    + rewrite IH by (cbn in Hn; lia). reflexivity.
Qed.

Lemma Forall_split_at (P : list Z -> Prop) (m : list (list Z)) (n : nat) :
  Forall P m -> Forall P (firstn n m) /\ Forall P (skipn n m).
Proof.
  intros H. rewrite <- (firstn_skipn n m) in H. apply Forall_app in H. exact H.
Qed.

Lemma write_at_lanes (lanes : nat) (d : list Z) (m : list (list Z)) (n : nat) :
  length d = lanes -> Forall (fun w => length w = lanes) m -> (n < length m)%nat ->
  Forall (fun w => length w = lanes) (firstn n m ++ d :: skipn (S n) m) /\
  length (firstn n m ++ d :: skipn (S n) m) = length m.
Proof.
  intros Hd Hall Hn. split.
  - apply Forall_app. split; [apply (Forall_split_at _ m n Hall)|].
    constructor; [exact Hd | apply (Forall_split_at _ m (S n) Hall)].
  - rewrite length_app, length_firstn. cbn [length]. rewrite length_skipn. lia.
Qed.

(** A cycle entered with the port at rest only captures the inputs. *)
Lemma step_from_rest (depth : Z) (lanes : nat) (dfi : list Scratchpad.rdphase)
      (s : Scratchpad.t) :
  port_at_rest lanes s ->
  Scratchpad.step depth false dfi s =
  {| Scratchpad.counter := Scratchpad.counter s;
     Scratchpad.overflow := Scratchpad.overflow s;
     Scratchpad.wr_port_adr := Scratchpad.counter s;
     Scratchpad.wr_port_dat_w := map fst dfi;
     Scratchpad.wr_port_we := map snd dfi;
     Scratchpad.mem := Scratchpad.mem s |}.
Proof.
  intros [Hrest [Hwe Hmem]]. unfold Scratchpad.step. rewrite Hrest.
  rewrite write_at_no_strobe
    by first [exact Hrest
             | eapply Forall_impl; [|exact Hmem]; cbn; intros; lia].
  reflexivity.
Qed.

(** One valid cycle followed by one without: the data is in the word under
    the cursor and the cursor has moved on by one. *)
Lemma pulse_stored (depth : Z) (lanes : nat) (d : list Z) (s : Scratchpad.t) :
  port_at_rest lanes s -> length d = lanes -> (0 < lanes)%nat ->
  0 <= Scratchpad.counter s -> Scratchpad.counter s + 1 <= depth - 1 ->
  Scratchpad.counter s + 1 < 2 ^ Scratchpad.counter_width depth ->
  Scratchpad.counter s < Z.of_nat (length (Scratchpad.mem s)) ->
  let s' := Scratchpad.run depth (pulses [d]) s in
  port_at_rest lanes s' /\
  Scratchpad.counter s' = Scratchpad.counter s + 1 /\
  Scratchpad.overflow s' = Scratchpad.overflow s /\
  Scratchpad.mem s' =
    firstn (Z.to_nat (Scratchpad.counter s)) (Scratchpad.mem s)
    ++ d :: skipn (S (Z.to_nat (Scratchpad.counter s))) (Scratchpad.mem s).
Proof.
  intros [Hrest [Hwe Hmem]] Hd Hl Hc0 Hc1 Hcw Hcm s'. subst s' lanes.
  unfold pulses, Scratchpad.run. cbn [flat_map app fold_left fst snd].
  rewrite (step_from_rest depth (length d) (valid_data d) s)
    by (split; [exact Hrest | split; assumption]).
  unfold Scratchpad.step, Scratchpad.write_strobe.
  cbn [Scratchpad.wr_port_we Scratchpad.wr_port_adr Scratchpad.wr_port_dat_w
       Scratchpad.mem Scratchpad.counter Scratchpad.overflow].
  rewrite valid_data_we, valid_data_dat, idle_data_we.
  rewrite strobe_all_true by exact Hl.
  replace (Scratchpad.counter s =? depth - 1) with false
    by (symmetry; apply Z.eqb_neq; lia).
  rewrite trunc_small by (try apply bits_for_nonneg; lia).
  rewrite write_at_all_true by (try lia; exact Hmem).
  destruct (write_at_lanes (length d) d (Scratchpad.mem s)
              (Z.to_nat (Scratchpad.counter s)) eq_refl Hmem ltac:(lia)) as [Hlanes _].
  cbn [Scratchpad.wr_port_we Scratchpad.mem Scratchpad.counter Scratchpad.overflow].
  unfold port_at_rest, Scratchpad.write_strobe.
  cbn [Scratchpad.wr_port_we Scratchpad.mem].
  rewrite strobe_all_false, repeat_length.
  repeat split; try reflexivity; try lia. exact Hlanes.
Qed.

Lemma splice_firstn (m : list (list Z)) (c : nat) (d : list Z) :
  (c < length m)%nat ->
  firstn (S c) (firstn c m ++ d :: skipn (S c) m) = firstn c m ++ [d].
Proof.
  intros Hc. rewrite firstn_app, length_firstn.
  replace (S c - Nat.min c (length m))%nat with 1%nat by lia.
  rewrite firstn_all2 by (rewrite length_firstn; lia). reflexivity.
Qed.

Lemma splice_skipn (m : list (list Z)) (c k : nat) (d : list Z) :
  (c < length m)%nat ->
  skipn (S c + k) (firstn c m ++ d :: skipn (S c) m) = skipn (S c + k) m.
Proof.
  intros Hc. rewrite skipn_app, length_firstn.
  rewrite skipn_all2 by (rewrite length_firstn; lia).
  replace (S c + k - Nat.min c (length m))%nat with (S k) by lia.
  cbn [app]. rewrite skipn_cons, skipn_skipn. f_equal. lia.
Qed.

Lemma pulses_cons (d : list Z) (ds : list (list Z)) :
  pulses (d :: ds) = pulses [d] ++ pulses ds.
Proof.
  reflexivity.
Qed.

(** Read data arriving in separate valid cycles is stored in arrival order
    from the cursor on, one memory word each, the cursor ending behind the
    last of them with the overflow flag untouched. *)
Theorem scratchpad_captures_in_order (depth : Z) (lanes : nat) (ds : list (list Z)) :
  forall s : Scratchpad.t,
    port_at_rest lanes s ->
    Forall (fun d => length d = lanes) ds -> (0 < lanes)%nat ->
    0 <= Scratchpad.counter s ->
    Scratchpad.counter s + Z.of_nat (length ds) <= depth - 1 ->
    Scratchpad.counter s + Z.of_nat (length ds) < 2 ^ Scratchpad.counter_width depth ->
    Scratchpad.counter s + Z.of_nat (length ds) <= Z.of_nat (length (Scratchpad.mem s)) ->
    let s' := Scratchpad.run depth (pulses ds) s in
    port_at_rest lanes s' /\
    Scratchpad.counter s' = Scratchpad.counter s + Z.of_nat (length ds) /\
    Scratchpad.overflow s' = Scratchpad.overflow s /\
    Scratchpad.mem s' =
      firstn (Z.to_nat (Scratchpad.counter s)) (Scratchpad.mem s)
      ++ ds
      ++ skipn (Z.to_nat (Scratchpad.counter s) + length ds) (Scratchpad.mem s).
Proof.
  induction ds as [|d ds IH]; intros s Hrest Hds Hl Hc0 Hc1 Hcw Hcm s'; subst s'.
  - cbn [pulses flat_map Scratchpad.run fold_left length Z.of_nat app].
    rewrite Nat.add_0_r, firstn_skipn.
    repeat split; try lia; apply Hrest.
  - inversion Hds as [|? ? Hd Hds']; subst.
    cbn [length] in Hc1, Hcw, Hcm. rewrite Nat2Z.inj_succ in Hc1, Hcw, Hcm.
    rewrite pulses_cons. unfold Scratchpad.run. rewrite fold_left_app.
    fold (Scratchpad.run depth (pulses [d]) s).
    destruct (pulse_stored depth (length d) d s Hrest eq_refl Hl Hc0)
      as [R1 [C1 [O1 M1]]]; [lia | lia | lia |].
    remember (Scratchpad.run depth (pulses [d]) s) as s1 eqn:E1.
    fold (Scratchpad.run depth (pulses ds) s1).
    assert (Hlen1 : length (Scratchpad.mem s1) = length (Scratchpad.mem s)).
    { rewrite M1. destruct Hrest as [_ [_ Hmem]].
      apply (write_at_lanes (length d) d (Scratchpad.mem s)
               (Z.to_nat (Scratchpad.counter s)) eq_refl Hmem). lia. }
    destruct (IH s1 R1 Hds' Hl) as [R2 [C2 [O2 M2]]]; try lia.
    split; [exact R2|]. split; [cbn [length]; lia|]. split; [congruence|].
    rewrite M2, C1.
    replace (Z.to_nat (Scratchpad.counter s + 1)) with (S (Z.to_nat (Scratchpad.counter s)))
      by lia.
    rewrite M1, splice_firstn, splice_skipn by lia.
    rewrite <- app_assoc. cbn [app length].
    replace (Z.to_nat (Scratchpad.counter s) + S (length ds))%nat
      with (S (Z.to_nat (Scratchpad.counter s)) + length ds)%nat by lia.
    reflexivity.
Qed.

Lemma scratchpad_captures_in_order_witness :
  port_at_rest 2
    (Scratchpad.run 16 (pulses [[1; 2]; [3; 4]; [5; 6]])
       (Scratchpad.init (repeat [0; 0] 16))) /\
  Scratchpad.counter
    (Scratchpad.run 16 (pulses [[1; 2]; [3; 4]; [5; 6]])
       (Scratchpad.init (repeat [0; 0] 16)))
  = Scratchpad.counter (Scratchpad.init (repeat [0; 0] 16)) + Z.of_nat 3 /\
  Scratchpad.overflow
    (Scratchpad.run 16 (pulses [[1; 2]; [3; 4]; [5; 6]])
       (Scratchpad.init (repeat [0; 0] 16)))
  = Scratchpad.overflow (Scratchpad.init (repeat [0; 0] 16)) /\
  Scratchpad.mem
    (Scratchpad.run 16 (pulses [[1; 2]; [3; 4]; [5; 6]])
       (Scratchpad.init (repeat [0; 0] 16)))
  = firstn (Z.to_nat (Scratchpad.counter (Scratchpad.init (repeat [0; 0] 16))))
      (Scratchpad.mem (Scratchpad.init (repeat [0; 0] 16)))
    ++ [[1; 2]; [3; 4]; [5; 6]]
    ++ skipn (Z.to_nat (Scratchpad.counter (Scratchpad.init (repeat [0; 0] 16))) + 3)
         (Scratchpad.mem (Scratchpad.init (repeat [0; 0] 16))).
Proof.
  apply (scratchpad_captures_in_order 16 2 [[1; 2]; [3; 4]; [5; 6]]
           (Scratchpad.init (repeat [0; 0] 16))).
  - split; [reflexivity|]. split; [cbn; lia|]. repeat constructor.
  - repeat constructor.
  - lia.
  - cbn. lia.
  - cbn. lia.
  - vm_compute. reflexivity.
  - cbn. lia.
Defined.

(** A cycle entered with a full write pending performs it and moves the
    cursor. *)
Lemma step_writing (depth : Z) (dfi : list Scratchpad.rdphase) (d : list Z)
      (s : Scratchpad.t) :
  Scratchpad.wr_port_we s = repeat true (length d) ->
  Scratchpad.wr_port_dat_w s = d -> (0 < length d)%nat ->
  0 <= Scratchpad.counter s -> Scratchpad.counter s + 1 <= depth - 1 ->
  Scratchpad.counter s + 1 < 2 ^ Scratchpad.counter_width depth ->
  Scratchpad.step depth false dfi s =
  {| Scratchpad.counter := Scratchpad.counter s + 1;
     Scratchpad.overflow := Scratchpad.overflow s;
     Scratchpad.wr_port_adr := Scratchpad.counter s;
     Scratchpad.wr_port_dat_w := map fst dfi;
     Scratchpad.wr_port_we := map snd dfi;
     Scratchpad.mem :=
       Scratchpad.write_at (Z.to_nat (Scratchpad.wr_port_adr s))
         (repeat true (length d)) d (Scratchpad.mem s) |}.
Proof.
  intros Hwe Hdat Hl Hc0 Hc1 Hcw.
  unfold Scratchpad.step, Scratchpad.write_strobe. rewrite Hwe, Hdat.
  rewrite strobe_all_true by exact Hl.
  replace (Scratchpad.counter s =? depth - 1) with false
    by (symmetry; apply Z.eqb_neq; lia).
  rewrite trunc_small by (try apply bits_for_nonneg; lia).
  reflexivity.
Qed.

(** Two valid cycles in a row share one memory word: the second data
    overwrites the first, the cursor advances by two and the word it skipped
    is left as it was. *)
Theorem scratchpad_back_to_back (depth : Z) (lanes : nat) (d1 d2 : list Z)
        (last : list Scratchpad.rdphase) (s : Scratchpad.t) :
  port_at_rest lanes s ->
  length d1 = lanes -> length d2 = lanes -> (0 < lanes)%nat ->
  0 <= Scratchpad.counter s -> Scratchpad.counter s + 2 <= depth - 1 ->
  Scratchpad.counter s + 2 < 2 ^ Scratchpad.counter_width depth ->
  Scratchpad.counter s < Z.of_nat (length (Scratchpad.mem s)) ->
  let s' := Scratchpad.run depth
              [(false, valid_data d1); (false, valid_data d2); (false, last)] s in
  Scratchpad.counter s' = Scratchpad.counter s + 2 /\
  Scratchpad.overflow s' = Scratchpad.overflow s /\
  Scratchpad.mem s' =
    firstn (Z.to_nat (Scratchpad.counter s)) (Scratchpad.mem s)
    ++ d2 :: skipn (S (Z.to_nat (Scratchpad.counter s))) (Scratchpad.mem s).
Proof.
  intros Hrest Hd1 Hd2 Hl Hc0 Hc1 Hcw Hcm s'. subst s'.
  pose proof Hrest as [_ [_ Hmem]].
  unfold Scratchpad.run. cbn [fold_left fst snd].
  rewrite (step_from_rest depth lanes (valid_data d1) s Hrest).
  rewrite (step_writing depth (valid_data d2) d1)
    by (cbn [Scratchpad.wr_port_we Scratchpad.wr_port_dat_w Scratchpad.counter];
        first [apply valid_data_we | apply valid_data_dat | lia]).
  cbn [Scratchpad.wr_port_adr Scratchpad.counter Scratchpad.overflow Scratchpad.mem].
  rewrite (step_writing depth last d2)
    by (cbn [Scratchpad.wr_port_we Scratchpad.wr_port_dat_w Scratchpad.counter];
        first [apply valid_data_we | apply valid_data_dat | lia]).
  cbn [Scratchpad.wr_port_adr Scratchpad.counter Scratchpad.overflow Scratchpad.mem].
  split; [lia|]. split; [reflexivity|].
  rewrite (write_at_all_true d1 (Scratchpad.mem s))
    by (try lia; rewrite Hd1; exact Hmem).
  destruct (write_at_lanes lanes d1 (Scratchpad.mem s) (Z.to_nat (Scratchpad.counter s))
              Hd1 Hmem ltac:(lia)) as [Hlanes Hlen].
  rewrite write_at_all_true by (try lia; rewrite Hd2; exact Hlanes).
  rewrite firstn_app, length_firstn.
  replace (Z.to_nat (Scratchpad.counter s)
           - Nat.min (Z.to_nat (Scratchpad.counter s)) (length (Scratchpad.mem s)))%nat
    with 0%nat by lia.
  rewrite firstn_firstn, Nat.min_id. cbn [firstn]. rewrite app_nil_r.
  f_equal. f_equal.
  pose proof (splice_skipn (Scratchpad.mem s) (Z.to_nat (Scratchpad.counter s)) 0 d1
                ltac:(lia)) as E.
  rewrite Nat.add_0_r in E. exact E.
Qed.

Lemma scratchpad_back_to_back_witness :
  Scratchpad.counter
    (Scratchpad.run 16 [(false, valid_data [1; 2]); (false, valid_data [3; 4]);
                        (false, idle_data [0; 0])]
       (Scratchpad.init (repeat [0; 0] 16)))
  = Scratchpad.counter (Scratchpad.init (repeat [0; 0] 16)) + 2 /\
  Scratchpad.overflow
    (Scratchpad.run 16 [(false, valid_data [1; 2]); (false, valid_data [3; 4]);
                        (false, idle_data [0; 0])]
       (Scratchpad.init (repeat [0; 0] 16)))
  = Scratchpad.overflow (Scratchpad.init (repeat [0; 0] 16)) /\
  Scratchpad.mem
    (Scratchpad.run 16 [(false, valid_data [1; 2]); (false, valid_data [3; 4]);
                        (false, idle_data [0; 0])]
       (Scratchpad.init (repeat [0; 0] 16)))
  = firstn (Z.to_nat (Scratchpad.counter (Scratchpad.init (repeat [0; 0] 16))))
      (Scratchpad.mem (Scratchpad.init (repeat [0; 0] 16)))
    ++ [3; 4]
       :: skipn (S (Z.to_nat (Scratchpad.counter (Scratchpad.init (repeat [0; 0] 16)))))
            (Scratchpad.mem (Scratchpad.init (repeat [0; 0] 16))).
Proof.
  apply (scratchpad_back_to_back 16 2 [1; 2] [3; 4] (idle_data [0; 0])
           (Scratchpad.init (repeat [0; 0] 16))).
  - split; [reflexivity|]. split; [cbn; lia|]. repeat constructor.
  - reflexivity.
  - reflexivity.
  - lia.
  - cbn. lia.
  - cbn. lia.
  - vm_compute. reflexivity.
  - cbn. lia.
Defined.

(** ** Command emitter *)

Lemma step_from_nth (nranks nphases sel : Z) (exec : bool) (d : Decoder.t) (rank_o : Z)
      (ps : list DFIExecutor.phase) :
  forall (i : Z) (k : nat) (p : DFIExecutor.phase),
    nth_error ps k = Some p ->
    nth_error (DFIExecutor.step_from nranks nphases i sel exec d rank_o ps) k =
    Some (DFIExecutor.step_phase nranks nphases (i + Z.of_nat k) sel exec d rank_o p).
Proof.
  induction ps as [|q ps IH]; intros i k p Hk.
  - destruct k; discriminate Hk.
  - destruct k as [|k]; cbn [DFIExecutor.step_from nth_error] in *.
    + injection Hk as ->. rewrite Z.add_0_r. reflexivity.
    + rewrite (IH (i + 1) k p Hk). do 2 f_equal. lia.
Qed.

Lemma step_from_length (nranks nphases sel : Z) (exec : bool) (d : Decoder.t) (rank_o : Z)
      (ps : list DFIExecutor.phase) :
  forall i, length (DFIExecutor.step_from nranks nphases i sel exec d rank_o ps) = length ps.
Proof.
  induction ps as [|q ps IH]; intros i; cbn; [reflexivity | rewrite IH; reflexivity].
Qed.

(** The three command bits of a word. *)
Lemma decode_command_bits (rankbits bankbits rowbits colbits w : Z) :
  let d := Decoder.decode rankbits bankbits rowbits colbits w in
  0 <= Decoder.op_code d < 8 /\
  Decoder.op_code d =
    (if Decoder.ras d then 4 else 0) + (if Decoder.cas d then 2 else 0)
    + (if Decoder.we d then 1 else 0).
Proof.
  intros d. subst d. unfold Decoder.decode.
  cbn [Decoder.op_code Decoder.cas Decoder.ras Decoder.we].
  rewrite slice_div_mod by (unfold Decoder.OP_CODE; lia).
  change (2 ^ 0) with 1. rewrite Z.div_1_r.
  change (2 ^ (Decoder.OP_CODE - 0)) with 8.
  pose proof (Z.mod_pos_bound w 8 ltac:(lia)) as Hr.
  split; [exact Hr|].
  assert (Hcase : w mod 8 = 0 \/ w mod 8 = 1 \/ w mod 8 = 2 \/ w mod 8 = 3 \/
                  w mod 8 = 4 \/ w mod 8 = 5 \/ w mod 8 = 6 \/ w mod 8 = 7) by lia.
  destruct Hcase as [E|[E|[E|[E|[E|[E|[E|E]]]]]]]; rewrite E; reflexivity.
Qed.

(** What one clock edge puts on the phases: the phase selected by a strobed
    cycle carries the decoder's command lines, bank and address, its chip
    selects being all high for NOOP, all low for REF and the inverted rank
    decoder otherwise, and reads are enabled for READ alone; every other phase,
    and every phase of a cycle without strobe, shows the inactive pattern and
    keeps its bank and address.  The number of phases does not change. *)
Theorem emitter_phases (nranks sel : Z) (exec : bool) (d : Decoder.t) (rank_o : Z)
        (ps : list DFIExecutor.phase) (k : nat) (p : DFIExecutor.phase) :
  nth_error ps k = Some p ->
  let nphases := Z.of_nat (length ps) in
  let ps' := DFIExecutor.step nranks nphases sel exec d rank_o ps in
  let selected := (Migen.trunc (DFIExecutor.phase_width nphases) sel =? Z.of_nat k) && exec in
  length ps' = length ps /\
  exists p',
    nth_error ps' k = Some p' /\
    DFIExecutor.cke p' = Z.ones nranks /\
    DFIExecutor.odt p' = Z.ones nranks /\
    DFIExecutor.reset_n p' = Z.ones nranks /\
    (selected = false ->
     DFIExecutor.idle nranks p' /\
     DFIExecutor.address p' = DFIExecutor.address p /\
     DFIExecutor.bank p' = DFIExecutor.bank p) /\
    (selected = true ->
     DFIExecutor.cas_n p' = DFIExecutor.inv (Decoder.cas d) /\
     DFIExecutor.ras_n p' = DFIExecutor.inv (Decoder.ras d) /\
     DFIExecutor.we_n p' = DFIExecutor.inv (Decoder.we d) /\
     DFIExecutor.address p' = Decoder.dfi_address d /\
     DFIExecutor.bank p' = Decoder.dfi_bank d /\
     (DFIExecutor.rddata_en p' = true <-> Decoder.op_code d = OpCode_value READ) /\
     (Decoder.op_code d = OpCode_value NOOP -> DFIExecutor.cs_n p' = Z.ones nranks) /\
     (Decoder.op_code d = OpCode_value REF -> DFIExecutor.cs_n p' = 0) /\
     (Decoder.op_code d <> OpCode_value NOOP -> Decoder.op_code d <> OpCode_value REF ->
      DFIExecutor.cs_n p' = Migen.trunc nranks (Z.lnot rank_o))).
Proof.
  intros Hk nphases ps' selected. subst ps'. unfold DFIExecutor.step.
  split; [apply step_from_length|].
  eexists. split; [apply (step_from_nth _ _ _ _ _ _ ps 0 k p Hk)|].
  cbn [Z.add]. unfold DFIExecutor.step_phase. fold selected.
  destruct selected;
    cbn [DFIExecutor.cke DFIExecutor.odt DFIExecutor.reset_n DFIExecutor.cs_n
         DFIExecutor.cas_n DFIExecutor.ras_n DFIExecutor.we_n DFIExecutor.address
         DFIExecutor.bank DFIExecutor.rddata_en];
    unfold DFIExecutor.idle, DFIExecutor.all_ranks;
    cbn [DFIExecutor.cs_n DFIExecutor.cas_n DFIExecutor.ras_n DFIExecutor.we_n
         DFIExecutor.rddata_en];
    repeat split; intros; try discriminate; try reflexivity.
  - apply Z.eqb_eq. assumption.
  - apply Z.eqb_eq. assumption.
  - replace (Decoder.op_code d =? OpCode_value NOOP) with true
      by (symmetry; apply Z.eqb_eq; assumption). reflexivity.
  - replace (Decoder.op_code d =? OpCode_value NOOP) with false
      by (symmetry; apply Z.eqb_neq;
          match goal with E : Decoder.op_code d = _ |- _ => rewrite E; discriminate end).
    replace (Decoder.op_code d =? OpCode_value REF) with true
      by (symmetry; apply Z.eqb_eq; assumption). reflexivity.
  - replace (Decoder.op_code d =? OpCode_value NOOP) with false
      by (symmetry; apply Z.eqb_neq; assumption).
    replace (Decoder.op_code d =? OpCode_value REF) with false
      by (symmetry; apply Z.eqb_neq; assumption). reflexivity.
Qed.

(** With the classic refresh rule, a phase driven by the emitter is counted
    as a refresh exactly when it was selected by a strobed cycle whose word is
    a REF. *)
Theorem emitted_refresh_is_counted (rankbits bankbits rowbits colbits w : Z)
        (nranks nphases i sel rank_o : Z) (exec : bool) (p : DFIExecutor.phase) :
  0 < nranks ->
  let d := Decoder.decode rankbits bankbits rowbits colbits w in
  RefreshCounter.refresh false
    (DFIExecutor.observed (DFIExecutor.step_phase nranks nphases i sel exec d rank_o p))
  = true <->
  Migen.trunc (DFIExecutor.phase_width nphases) sel = i /\ exec = true /\
  Decoder.op_code d = OpCode_value REF.
Proof.
  intros Hn d.
  destruct (decode_command_bits rankbits bankbits rowbits colbits w) as [Hr Hbits].
  fold d in Hr, Hbits.
  assert (Hones : Z.ones nranks <> 0).
  { rewrite Z.ones_equiv. pose proof (Z.pow_gt_1 2 nranks ltac:(lia)) as [H _].
    specialize (H Hn). lia. }
  rewrite refresh_classic. unfold DFIExecutor.step_phase, DFIExecutor.observed.
  destruct (Z.eqb_spec (Migen.trunc (DFIExecutor.phase_width nphases) sel) i) as [Es|Es];
    destruct exec; cbn [andb];
    cbn [RefreshCounter.cs_n RefreshCounter.cas_n RefreshCounter.ras_n RefreshCounter.we_n
         DFIExecutor.cs_n DFIExecutor.cas_n DFIExecutor.ras_n DFIExecutor.we_n];
    try (split; [intros [_ [H _]]; discriminate H
                | intros [H1 [H2 _]]; try discriminate H2; contradiction]).
  unfold DFIExecutor.inv, DFIExecutor.all_ranks. cbn [OpCode_value] in *.
  destruct (Decoder.ras d), (Decoder.cas d), (Decoder.we d);
    rewrite Hbits; cbn [Z.add Z.eqb Pos.add Pos.eqb Pos.succ];
    split; intros H; try (destruct H as [_ [_ H]]; discriminate H);
    try (destruct H as [_ [H _]]; discriminate H);
    try (destruct H as [_ [_ [H _]]]; discriminate H);
    try (destruct H as [_ [_ [_ H]]]; discriminate H);
    try (destruct H as [H _]; contradiction);
    repeat split; first [exact Es | reflexivity].
Qed.

(** A strobed NOOP, as executed for its timeslice, leaves the selected phase
    in the inactive pattern. *)
Theorem emitted_noop_is_idle (rankbits bankbits rowbits colbits w : Z)
        (nranks nphases i sel rank_o : Z) (exec : bool) (p : DFIExecutor.phase) :
  let d := Decoder.decode rankbits bankbits rowbits colbits w in
  Decoder.op_code d = OpCode_value NOOP ->
  DFIExecutor.idle nranks (DFIExecutor.step_phase nranks nphases i sel exec d rank_o p).
Proof.
  intros d Hop.
  destruct (decode_command_bits rankbits bankbits rowbits colbits w) as [_ Hbits].
  fold d in Hbits. rewrite Hop in Hbits. cbn [OpCode_value] in Hbits.
  unfold DFIExecutor.step_phase, DFIExecutor.idle.
  destruct ((Migen.trunc (DFIExecutor.phase_width nphases) sel =? i) && exec);
    cbn [DFIExecutor.cs_n DFIExecutor.cas_n DFIExecutor.ras_n DFIExecutor.we_n
         DFIExecutor.rddata_en]; [|repeat split; reflexivity].
  rewrite Hop. cbn [OpCode_value Z.eqb].
  destruct (Decoder.ras d), (Decoder.cas d), (Decoder.we d);
    try discriminate Hbits; repeat split; reflexivity.
Qed.

Lemma emitted_noop_is_idle_witness :
  DFIExecutor.idle 1
    (DFIExecutor.step_phase 1 4 0 0 true (Decoder.decode 0 4 16 10 800) 1
       (DFIExecutor.idle_phase 1)).
Proof.
  apply (emitted_noop_is_idle 0 4 16 10 800 1 4 0 0 1 true (DFIExecutor.idle_phase 1)).
  reflexivity.
Defined.

Lemma emitted_refresh_is_counted_witness :
  RefreshCounter.refresh false
    (DFIExecutor.observed
       (DFIExecutor.step_phase 1 4 0 0 true (Decoder.decode 0 4 16 10 14) 1
          (DFIExecutor.idle_phase 1)))
  = true <->
  Migen.trunc (DFIExecutor.phase_width 4) 0 = 0 /\ true = true /\
  Decoder.op_code (Decoder.decode 0 4 16 10 14) = OpCode_value REF.
Proof.
  apply (emitted_refresh_is_counted 0 4 16 10 14 1 4 0 0 1 true (DFIExecutor.idle_phase 1)).
  lia.
Defined.

Lemma emitter_phases_witness :
  length (DFIExecutor.step 1 (Z.of_nat 4) 1 true (Decoder.decode 0 4 16 10 1042) 1
            (repeat (DFIExecutor.idle_phase 1) 4)) = 4%nat.
Proof.
  exact (proj1 (emitter_phases 1 1 true (Decoder.decode 0 4 16 10 1042) 1
                  (repeat (DFIExecutor.idle_phase 1) 4) 1 (DFIExecutor.idle_phase 1)
                  eq_refl)).
Defined.

(** ** The executor, the bus switch and the emitter together *)

(** Without the strobe every phase is driven to the inactive pattern. *)
Lemma step_from_unstrobed (nranks nphases sel : Z) (d : Decoder.t) (rank_o : Z)
      (ps : list DFIExecutor.phase) :
  forall i,
    Forall (DFIExecutor.idle nranks)
           (DFIExecutor.step_from nranks nphases i sel false d rank_o ps).
Proof.
  induction ps as [|q ps IH]; intros i; cbn [DFIExecutor.step_from]; constructor;
    [|apply IH].
  unfold DFIExecutor.step_phase. rewrite andb_false_r. repeat split; reflexivity.
Qed.

Section SystemProperties.
Variable mem_payload : list Z.
Variables (rankbits bankbits rowbits colbits rdphase : Z).
Variables (with_refresh ddr5 : bool).
Variable scratchpad_depth : Z.

Let step := System.step mem_payload rankbits bankbits rowbits colbits rdphase
                        with_refresh ddr5 scratchpad_depth.
Let fsm_act := PayloadExecutor.fsm_act rankbits bankbits rowbits colbits rdphase.

(** The emitter is strobed in RUN only. *)
Lemma exec_only_in_run (i : PayloadExecutor.inputs) (e : PayloadExecutor.t) :
  PayloadExecutor.exec (fsm_act i e) = true ->
  PayloadExecutor.fsm e = PayloadExecutor.RUN.
Proof.
  unfold fsm_act, PayloadExecutor.fsm_act.
  destruct (PayloadExecutor.fsm e);
    repeat match goal with |- context [if ?c then _ else _] => destruct c end;
    cbn; intros H; try discriminate H; reflexivity.
Qed.

(** The request is raised on leaving READY and dropped only on returning
    to it. *)
Lemma request_follows_fsm (i : PayloadExecutor.inputs) (e : PayloadExecutor.t) :
  (PayloadExecutor.fsm e <> PayloadExecutor.READY -> PayloadExecutor.wants_dfi e = true) ->
  PayloadExecutor.next_fsm (fsm_act i e) <> PayloadExecutor.READY ->
  PayloadExecutor.next_wants_dfi (fsm_act i e) = true.
Proof.
  unfold fsm_act, PayloadExecutor.fsm_act.
  destruct (PayloadExecutor.fsm e) eqn:Ef; intros Hw;
    repeat match goal with |- context [if ?c then _ else _] => destruct c end;
    cbn; intros H; try (exfalso; apply H; reflexivity);
    try reflexivity; try (rewrite Ef in H); try (apply Hw; discriminate);
    try (exfalso; apply H; reflexivity).
Qed.

(** The executor starts executing only on [dfi_ready], and goes on executing
    only from an executing state. *)
Lemma executing_needs_ready (i : PayloadExecutor.inputs) (e : PayloadExecutor.t) :
  is_executing (PayloadExecutor.next_fsm (fsm_act i e)) = true ->
  is_executing (PayloadExecutor.fsm e) = true \/
  (PayloadExecutor.fsm e = PayloadExecutor.WAIT_DFI /\ PayloadExecutor.dfi_ready i = true).
Proof.
  unfold fsm_act, PayloadExecutor.fsm_act.
  destruct (PayloadExecutor.fsm e) eqn:Ef;
    try (intros _; left; reflexivity).
  - destruct (PayloadExecutor.start i); cbn; try rewrite Ef; intros H; discriminate H.
  - destruct (PayloadExecutor.dfi_ready i); cbn; try rewrite Ef; intros H;
      [right; split; reflexivity | discriminate H].
Qed.

(** One cycle keeps [bus_owned]. *)
Lemma bus_owned_step (i : System.inputs) (s : System.t) :
  bus_owned (System.nranks rankbits) s ->
  bus_owned (System.nranks rankbits) (step i s).
Proof.
  intros [Ha [Hb Hc]].
  assert (Hpe : is_executing (PayloadExecutor.fsm (System.executor s)) = true ->
                DFISwitch.fsm (DFISwitch.step with_refresh ddr5
                                 (System.switch_inputs i s) (System.switch s))
                = DFISwitch.PAYLOAD_EXECUTION).
  { intros He. specialize (Hb He).
    assert (Hw : PayloadExecutor.wants_dfi (System.executor s) = true).
    { apply Ha. intros E. rewrite E in He. discriminate He. }
    unfold DFISwitch.step, DFISwitch.next_state, System.switch_inputs.
    cbn [DFISwitch.fsm DFISwitch.wants_dfi]. rewrite Hb, Hw. reflexivity. }
  unfold bus_owned, step, System.step, PayloadExecutor.cycle.
  cbn [System.executor System.switch System.ext_dfi fst snd PayloadExecutor.fsm
       PayloadExecutor.wants_dfi PayloadExecutor.o_act].
  fold fsm_act.
  split; [|split].
  - apply request_follows_fsm. exact Ha.
  - intros He. apply executing_needs_ready in He. destruct He as [He|[Ew Hr]].
    + apply Hpe. exact He.
    + unfold System.executor_inputs, DFISwitch.comb in Hr.
      cbn [PayloadExecutor.dfi_ready] in Hr.
      assert (Hw : PayloadExecutor.wants_dfi (System.executor s) = true).
      { apply Ha. rewrite Ew. discriminate. }
      unfold DFISwitch.step, DFISwitch.next_state, System.switch_inputs.
      cbn [DFISwitch.fsm DFISwitch.wants_dfi]. rewrite Hw.
      destruct (DFISwitch.fsm (System.switch s)); [discriminate Hr | reflexivity].
  - intros Hmc.
    destruct (PayloadExecutor.exec (fsm_act (System.executor_inputs i s) (System.executor s)))
      eqn:Ex.
    + apply exec_only_in_run in Ex.
      rewrite Hpe in Hmc; [discriminate Hmc | rewrite Ex; reflexivity].
    + apply step_from_unstrobed.
Qed.

End SystemProperties.

(** From reset on, whatever the host, the memory controller and the DRAM do:
    the executor keeps [wants_dfi] up whenever it is not in READY, it is in
    RUN, IDLE or BUBBLE only while the switch is in PAYLOAD-EXECUTION, and
    whenever the switch is in MEMORY-CONTROLLER all phases driven by the
    command emitter are inactive. *)
Theorem bus_owned_always (mem_payload : list Z)
        (rankbits bankbits rowbits colbits rdphase : Z) (with_refresh ddr5 : bool)
        (scratchpad_depth : Z) (scratchpad_mem : list (list Z)) (nphases : nat)
        (ins : list System.inputs) :
  bus_owned (System.nranks rankbits)
    (System.run mem_payload rankbits bankbits rowbits colbits rdphase with_refresh ddr5
       scratchpad_depth ins (System.init rankbits scratchpad_mem nphases)).
Proof.
  unfold System.run.
  assert (H0 : bus_owned (System.nranks rankbits) (System.init rankbits scratchpad_mem nphases)).
  { unfold bus_owned, System.init.
    cbn [System.executor System.switch System.ext_dfi PayloadExecutor.init
         PayloadExecutor.fsm PayloadExecutor.wants_dfi DFISwitch.init DFISwitch.fsm].
    split; [intros H; exfalso; apply H; reflexivity|].
    split; [intros H; discriminate H|].
    intros _. apply Forall_forall. intros p Hp. apply repeat_spec in Hp. subst p.
    repeat split; reflexivity. }
  revert H0. generalize (System.init rankbits scratchpad_mem nphases).
  induction ins as [|i ins IH]; intros s Hs; cbn [fold_left]; [exact Hs|].
  apply IH. apply bus_owned_step. exact Hs.
Qed.

(** A strobed command goes to phase [rdphase] when it is a READ and to
    phase 0 otherwise. *)
Theorem read_goes_to_rdphase (rankbits bankbits rowbits colbits rdphase : Z)
        (i : PayloadExecutor.inputs) (s : PayloadExecutor.t) :
  let a := PayloadExecutor.fsm_act rankbits bankbits rowbits colbits rdphase i s in
  let d := PayloadExecutor.decoder rankbits bankbits rowbits colbits s in
  PayloadExecutor.exec a = true ->
  PayloadExecutor.phase a = if Decoder.op_code d =? OpCode_value READ then rdphase else 0.
Proof.
  intros a d. subst a.
  destruct (decode_command_bits rankbits bankbits rowbits colbits
              (PayloadExecutor.instruction s)) as [_ Hbits].
  change (Decoder.decode rankbits bankbits rowbits colbits (PayloadExecutor.instruction s))
    with d in Hbits.
  unfold PayloadExecutor.fsm_act. fold d.
  destruct (PayloadExecutor.fsm s);
    repeat match goal with
           | |- context [if PayloadExecutor.start i then _ else _] =>
               destruct (PayloadExecutor.start i)
           | |- context [if PayloadExecutor.dfi_ready i then _ else _] =>
               destruct (PayloadExecutor.dfi_ready i)
           | |- context [if PayloadExecutor.idle_counter s =? 0 then _ else _] =>
               destruct (PayloadExecutor.idle_counter s =? 0)
           end;
    try (cbn; intros H; discriminate H).
  destruct (PayloadExecutor.terminate rankbits bankbits rowbits colbits s);
    [cbn; intros H; discriminate H|].
  destruct (Decoder.op_code d =? OpCode_value LOOP).
  { destruct (negb (PayloadExecutor.loop_counter s =? Decoder.loop_count d));
      cbn; intros H; discriminate H. }
  intros _.
  assert (E : (Decoder.cas d && negb (Decoder.ras d) && negb (Decoder.we d))
              = (Decoder.op_code d =? OpCode_value READ)).
  { rewrite Hbits. destruct (Decoder.ras d), (Decoder.cas d), (Decoder.we d); reflexivity. }
  rewrite <- E.
  destruct ((Decoder.timeslice d =? 0) || (Decoder.timeslice d =? 1)); reflexivity.
Qed.

Lemma read_goes_to_rdphase_witness :
  PayloadExecutor.phase
    (PayloadExecutor.fsm_act 0 4 16 10 3 (PayloadExecutor.mk_inputs false true)
       (running [1042; 0; 0; 0] 0 0)) = 3.
Proof.
  apply (read_goes_to_rdphase 0 4 16 10 3 (PayloadExecutor.mk_inputs false true)
           (running [1042; 0; 0; 0] 0 0)).
  reflexivity.
Defined.

(** ** The refresh counter and the latched refresh count *)

(** Over any sequence of observed commands the counter advances by the
    number of refresh commands among them, modulo [2 ^ width]. *)
Theorem refresh_counter_counts (width : Z) (ddr5 : bool)
        (ps : list RefreshCounter.dfi_phase) (c0 : Z) :
  0 <= width -> 0 <= c0 < 2 ^ width ->
  fold_left (fun c p => RefreshCounter.step width ddr5 p c) ps c0 =
  (c0 + Z.of_nat (length (filter (RefreshCounter.refresh ddr5) ps))) mod 2 ^ width.
Proof.
  intros Hw. revert c0.
  assert (Hpos : 0 < 2 ^ width) by (apply Z.pow_pos_nonneg; lia).
  induction ps as [|p ps IH]; intros c0 Hc; cbn [fold_left filter].
  - cbn [length]. rewrite Z.add_0_r. symmetry. apply Z.mod_small. exact Hc.
  - unfold RefreshCounter.step at 2.
    destruct (RefreshCounter.refresh ddr5 p).
    + rewrite trunc_mod by exact Hw.
      rewrite IH by (apply Z.mod_pos_bound; exact Hpos).
      cbn [length]. rewrite Z.add_mod_idemp_l by lia. f_equal. lia.
    + apply IH. exact Hc.
Qed.

Lemma refresh_counter_counts_witness :
  fold_left (fun c p => RefreshCounter.step 2 false p c)
            (repeat (RefreshCounter.mk_phase 0 0 0 1 0) 5) 1 = 2.
Proof.
  exact (refresh_counter_counts 2 false (repeat (RefreshCounter.mk_phase 0 0 0 1 0) 5) 1
           ltac:(lia) ltac:(lia)).
Defined.

(** Two cycles after the switch was last in MEMORY-CONTROLLER before a
    handover, the status register holds the refresh counter of the first
    PAYLOAD-EXECUTION cycle; when the handover was gated on a non-zero
    [at_refresh], that is the value of [at_refresh]. *)
Theorem refresh_count_latched (with_refresh ddr5 : bool) (i1 i2 : DFISwitch.inputs)
        (s : DFISwitch.t) :
  let s1 := DFISwitch.step with_refresh ddr5 i1 s in
  let s2 := DFISwitch.step with_refresh ddr5 i2 s1 in
  DFISwitch.fsm s = DFISwitch.MEMORY_CONTROLLER ->
  DFISwitch.fsm s1 = DFISwitch.PAYLOAD_EXECUTION ->
  DFISwitch.refresh_count_status s2 = DFISwitch.refresh_counter s1 /\
  (with_refresh = true -> DFISwitch.at_refresh i1 <> 0 ->
   0 <= DFISwitch.refresh_counter s < 2 ^ 64 - 1 ->
   DFISwitch.refresh_count_status s2 = DFISwitch.at_refresh i1).
Proof.
  intros s1 s2 Hmc Hpe.
  assert (E2 : DFISwitch.refresh_count_status s2 = DFISwitch.refresh_counter s1).
  { subst s2. unfold DFISwitch.step at 1. cbn [DFISwitch.refresh_count_status].
    rewrite Hpe. subst s1. unfold DFISwitch.step at 1. cbn [DFISwitch.mc_ongoing_d].
    rewrite Hmc. reflexivity. }
  split; [exact E2|].
  intros Hwr Hat Hc. rewrite E2. subst s1.
  unfold DFISwitch.step, DFISwitch.next_state in Hpe. cbn [DFISwitch.fsm] in Hpe.
  rewrite Hmc, Hwr in Hpe.
  unfold DFISwitch.step. cbn [DFISwitch.refresh_counter].
  unfold RefreshCounter.step.
  destruct (DFISwitch.wants_dfi i1); [|discriminate Hpe].
  destruct (RefreshCounter.refresh ddr5 (DFISwitch.master_phase0 i1));
    [|discriminate Hpe].
  cbn [andb] in Hpe. unfold DFISwitch.refresh_matches in Hpe.
  destruct (Z.eqb_spec (DFISwitch.at_refresh i1) 0) as [E0|_]; [contradiction|].
  cbn [orb] in Hpe.
  destruct (Z.eqb_spec (DFISwitch.at_refresh i1) (DFISwitch.refresh_counter s + 1))
    as [E1|_]; [|discriminate Hpe].
  rewrite trunc_small by lia. symmetry. exact E1.
Qed.

Lemma refresh_count_latched_witness :
  DFISwitch.refresh_count_status
    (DFISwitch.step true false
       (DFISwitch.mk_inputs true 8 (RefreshCounter.mk_phase 1 1 1 1 0) false)
       (DFISwitch.step true false
          (DFISwitch.mk_inputs true 8 (RefreshCounter.mk_phase 0 0 0 1 0) false)
          (DFISwitch.mk DFISwitch.MEMORY_CONTROLLER 7 true 0))) = 8.
Proof.
  apply (proj2 (refresh_count_latched true false
           (DFISwitch.mk_inputs true 8 (RefreshCounter.mk_phase 0 0 0 1 0) false)
           (DFISwitch.mk_inputs true 8 (RefreshCounter.mk_phase 1 1 1 1 0) false)
           (DFISwitch.mk DFISwitch.MEMORY_CONTROLLER 7 true 0) eq_refl eq_refl)).
  - reflexivity.
  - cbn. discriminate.
  - cbn. lia.
Defined.

(** With refresh gating and no refresh command on the master bus, the switch
    stays in MEMORY-CONTROLLER and the executor never leaves READY and
    WAIT-DFI, however often the host strobes [start]. *)
Theorem gated_until_refresh (mem_payload : list Z)
        (rankbits bankbits rowbits colbits rdphase : Z) (ddr5 : bool)
        (scratchpad_depth : Z) (scratchpad_mem : list (list Z)) (nphases : nat)
        (ins : list System.inputs) :
  Forall (fun i => RefreshCounter.refresh ddr5 (System.master_phase0 i) = false) ins ->
  let s := System.run mem_payload rankbits bankbits rowbits colbits rdphase true ddr5
             scratchpad_depth ins (System.init rankbits scratchpad_mem nphases) in
  DFISwitch.fsm (System.switch s) = DFISwitch.MEMORY_CONTROLLER /\
  is_executing (PayloadExecutor.fsm (System.executor s)) = false.
Proof.
  intros Hins s. subst s. unfold System.run.
  assert (H0 : DFISwitch.fsm (System.switch (System.init rankbits scratchpad_mem nphases))
               = DFISwitch.MEMORY_CONTROLLER /\
               is_executing (PayloadExecutor.fsm
                 (System.executor (System.init rankbits scratchpad_mem nphases))) = false)
    by (split; reflexivity).
  revert H0. generalize (System.init rankbits scratchpad_mem nphases).
  induction Hins as [|i ins Hi _ IH]; intros s Hs; cbn [fold_left]; [exact Hs|].
  apply IH. destruct Hs as [Hmc Hex]. split.
  - unfold System.step, DFISwitch.step, DFISwitch.next_state, System.switch_inputs.
    cbn [System.switch DFISwitch.fsm DFISwitch.wants_dfi DFISwitch.master_phase0].
    rewrite Hmc, Hi. cbn [andb].
    destruct (PayloadExecutor.wants_dfi (System.executor s)); reflexivity.
  - unfold System.step, PayloadExecutor.cycle, PayloadExecutor.fsm_act,
      System.executor_inputs, DFISwitch.comb.
    cbn [System.executor fst PayloadExecutor.fsm PayloadExecutor.start
         PayloadExecutor.dfi_ready].
    rewrite Hmc. cbn [DFISwitch.dfi_ready].
    destruct (PayloadExecutor.fsm (System.executor s)) eqn:Ef; try discriminate Hex.
    + destruct (System.start i); cbn; [reflexivity | rewrite Ef; reflexivity].
    + cbn. rewrite Ef. reflexivity.
Qed.

Lemma gated_until_refresh_witness :
  let s := System.run act_program 0 4 16 10 1 true false 8
             (repeat (System.mk_inputs true 0 false (RefreshCounter.mk_phase 1 1 1 1 0) []) 3)
             (System.init 0 [] 2) in
  DFISwitch.fsm (System.switch s) = DFISwitch.MEMORY_CONTROLLER /\
  is_executing (PayloadExecutor.fsm (System.executor s)) = false.
Proof.
  apply (gated_until_refresh act_program 0 4 16 10 1 false 8 [] 2
           (repeat (System.mk_inputs true 0 false (RefreshCounter.mk_phase 1 1 1 1 0) []) 3)).
  repeat constructor.
Defined.
